(** * hotel/pms_systems.py : PMS adapters and the reconciliation engine

    A shallow embedding of [src/hotel/pms_systems.py]: the [PMS_Mews]
    adapter's payload cleaning and webhook handling, the adapter lookup,
    the retrying call wrapper, the two reconciliation functions and the
    language lookup.

    - Python values that travel through the module (decoded JSON, the
      records built by the [namedtuple] object hook) are the type [pyval].
    - A Python [str] is the [string] of its UTF-8 bytes. On ASCII text
      case mapping and the identifier test are computed; on text with
      other characters they are what the Unicode tables of the
      interpreter say, and these, like the limits the interpreter sets
      on the decoder, are read from [Python].
    - A function that may raise returns [exn + A]; a function that also
      reads or writes the record store, calls the vendor API or prints is
      a computation [M A] over the [World]. *)

From Stdlib Require Import List String Ascii ZArith Bool Lia PeanoNat.
Import ListNotations.
Local Open Scope string_scope.
Local Open Scope Z_scope.

(** ** Python values *)

Unset Elimination Schemes.
Inductive pyval : Type :=
| PNone
| PBool (b : bool)
| PInt (z : Z)
| PFloat (m e : Z)            (* the float nearest to m * 10^e *)
| PInf (negative : bool)
| PNaN
| PStr (s : string)
| PList (items : list pyval)
| PRecord (fields : list (string * pyval)).   (* an instance of namedtuple('X', keys) *)
Set Elimination Schemes.

(** Induction with the hypotheses for the values nested in a list or a
    record. *)
Definition pyval_nested_ind (P : pyval -> Prop)
  (HNone : P PNone) (HBool : forall b, P (PBool b)) (HInt : forall z, P (PInt z))
  (HFloat : forall m e, P (PFloat m e)) (HInf : forall b, P (PInf b)) (HNaN : P PNaN)
  (HStr : forall s, P (PStr s))
  (HList : forall items, Forall P items -> P (PList items))
  (HRecord : forall fields, Forall (fun kv => P (snd kv)) fields -> P (PRecord fields))
  : forall v, P v :=
  fix go (v : pyval) : P v :=
    match v with
    | PNone => HNone
    | PBool b => HBool b
    | PInt z => HInt z
    | PFloat m e => HFloat m e
    | PInf b => HInf b
    | PNaN => HNaN
    | PStr s => HStr s
    | PList items =>
        HList items
          ((fix all (l : list pyval) : Forall P l :=
              match l with
              | [] => Forall_nil _
              | x :: r => Forall_cons x (go x) (all r)
              end) items)
    | PRecord fields =>
        HRecord fields
          ((fix all (l : list (string * pyval)) : Forall (fun kv => P (snd kv)) l :=
              match l with
              | [] => Forall_nil _
              | kv :: r => Forall_cons kv (go (snd kv)) (all r)
              end) fields)
    end.

(** [bool(v)]: what [not v] negates. A float is zero when it rounds to
    zero, that is when its magnitude is at most 2^-1075. *)
Definition float_nonzero (m e : Z) : bool :=
  if 0 <=? e then negb (m =? 0)
  else 10 ^ (- e) <? Z.abs m * 2 ^ 1075.

Definition truthy (v : pyval) : bool :=
  match v with
  | PNone => false
  | PBool b => b
  | PInt z => negb (z =? 0)
  | PFloat m e => float_nonzero m e
  | PInf _ => true
  | PNaN => true
  | PStr s => negb (s =? "")%string
  | PList items => match items with [] => false | _ => true end
  | PRecord fields => match fields with [] => false | _ => true end
  end.

(** [v == s] for a [str] literal [s]. *)
Definition eq_str (v : pyval) (s : string) : bool :=
  match v with
  | PStr t => (t =? s)%string
  | _ => false
  end.

(** Exact match of two stored values, as the record store compares a
    field with a lookup value. *)
Fixpoint pyval_eqb (a b : pyval) {struct a} : bool :=
  match a, b with
  | PNone, PNone => true
  | PBool x, PBool y => Bool.eqb x y
  | PInt x, PInt y => x =? y
  | PFloat m e, PFloat m' e' => (m =? m') && (e =? e')
  | PInf x, PInf y => Bool.eqb x y
  | PNaN, PNaN => true
  | PStr s, PStr t => (s =? t)%string
  | PList xs, PList ys =>
      (fix all (l l' : list pyval) : bool :=
         match l, l' with
         | [], [] => true
         | x :: r, y :: r' => pyval_eqb x y && all r r'
         | _, _ => false
         end) xs ys
  | PRecord fs, PRecord gs =>
      (fix all (l l' : list (string * pyval)) : bool :=
         match l, l' with
         | [], [] => true
         | (k, x) :: r, (k', y) :: r' => (k =? k')%string && pyval_eqb x y && all r r'
         | _, _ => false
         end) fs gs
  | _, _ => false
  end.

(** ** Exceptions *)

(** Modelled from the spec: the exception classes of [hotel.exceptions]
    and [hotel.external_api] are not under src/. They are the separate
    categories of the spec's error taxonomy, none a subclass of another;
    whether [except ValueError] catches a [JsonValueError] is left to
    [Env]. With them stand the built-in and library exceptions the module
    meets, which Python keeps apart the same way, but for
    [JSONDecodeError], a [ValueError]. *)
Inductive exn : Type :=
| JsonValueError (msg : string)             (* hotel.exceptions *)
| IncorrectHotelIdException (msg : string)  (* hotel.exceptions *)
| APIError (msg : string)                   (* hotel.external_api *)
| JSONDecodeError                           (* json *)
| ValueError
| TypeError
| AttributeError
| RecursionError
| SyntaxError
| DoesNotExist                              (* Model.DoesNotExist *)
| MultipleObjectsReturned.                  (* Model.MultipleObjectsReturned *)

Definition result (A : Type) : Type := (exn + A)%type.

Definition is_APIError (e : exn) : bool :=
  match e with APIError _ => true | _ => false end.

(** [obj.name] for one of the field names the module reads ([Events],
    [Value], [ReservationId], [GuestId], [HotelId], [Status],
    [CheckInDate], [CheckOutDate], [Country], [Phone], [Name]): only a
    record carrying the field has it. *)
Fixpoint assoc (name : string) (fields : list (string * pyval)) : option pyval :=
  match fields with
  | [] => None
  | (k, v) :: rest => if (k =? name)%string then Some v else assoc name rest
  end.

Definition get_attr (v : pyval) (name : string) : result pyval :=
  match v with
  | PRecord fields =>
      match assoc name fields with
      | Some x => inr x
      | None => inl AttributeError
      end
  | _ => inl AttributeError
  end.

(** ** The interpreter *)

(** What the module leaves to the interpreter it runs on: the Unicode
    tables behind [str.lower] and [str.isidentifier] and the
    normalisation of the identifiers the compiler reads, the limit on the
    digits of an [int] read from text, and the room on the stack, taken
    to be the same at every call of the decoder. *)
Record Python : Type := mkPython {
  unicode_lower : string -> string;       (* str.lower() of a text with other
                                             characters than ASCII, for the text
                                             with its letters A to Z lowered *)
  unicode_isidentifier : string -> bool;  (* str.isidentifier() of such a text *)
  unicode_identifier : string -> string;  (* the identifier the compiler reads in
                                             such a name, its NFKC form *)
  int_max_str_digits : nat;               (* sys.get_int_max_str_digits(); 0: no limit *)
  recursion_depth : nat;                  (* how deep in nested arrays and objects
                                             the scanner can enter one more *)
  hook_depth : nat                        (* how deep in them the object hook still
                                             has the frames it needs *)
}.

(** ** Strings *)

Fixpoint all_chars (f : ascii -> bool) (s : string) : bool :=
  match s with
  | EmptyString => true
  | String c rest => f c && all_chars f rest
  end.

(** A text of ASCII characters only. *)
Definition is_ascii (s : string) : bool :=
  all_chars (fun c => (nat_of_ascii c <? 128)%nat) s.

Definition lower_char (c : ascii) : ascii :=
  let n := nat_of_ascii c in
  if ((65 <=? n) && (n <=? 90))%nat then ascii_of_nat (n + 32) else c.

Definition upper_char (c : ascii) : ascii :=
  let n := nat_of_ascii c in
  if ((97 <=? n) && (n <=? 122))%nat then ascii_of_nat (n - 32) else c.

(** The letters A to Z of [s] in lower case, every other byte as it is:
    [s.lower()] on ASCII text. *)
Fixpoint ascii_lower (s : string) : string :=
  match s with
  | EmptyString => EmptyString
  | String c rest => String (lower_char c) (ascii_lower rest)
  end.

(** [s.capitalize()] on ASCII text: the first letter in upper case, the
    others in lower case. *)
Definition capitalize (s : string) : string :=
  match s with
  | EmptyString => EmptyString
  | String c rest => String (upper_char c) (ascii_lower rest)
  end.

(** [s.lower()]. On a text with other characters than ASCII the Unicode
    tables decide; they lower the letters A to Z as [ascii_lower] does
    and map the other characters one by one, so that they may be asked
    about the text with these letters lowered. *)
Definition lower (py : Python) (s : string) : string :=
  if is_ascii s then ascii_lower s else unicode_lower py (ascii_lower s).

(** [v.lower()] on an arbitrary value: only a [str] has the method; a
    record with a field of that name has the field, which cannot be
    called. *)
Definition call_lower (py : Python) (v : pyval) : result string :=
  match v with
  | PStr s => inr (lower py s)
  | PRecord fields =>
      match assoc "lower" fields with
      | Some _ => inl TypeError
      | None => inl AttributeError
      end
  | _ => inl AttributeError
  end.

(** ** json.loads

    The decoder of the [json] module ([json.decoder], [json.scanner]) as
    the module calls it: on a [str], strict, with an object hook. Every
    syntax error is a [JSONDecodeError]; an error of the hook leaves the
    decoder at the closing brace of the object it was called on. The
    scanner is the one of the C accelerator: before it enters an array
    or an object it asks for room on the stack
    ([Py_EnterRecursiveCall]) and raises [RecursionError] when there is
    none, and [int()] raises [ValueError] on a literal with more digits
    than the interpreter allows. *)

Definition dquote : ascii := ascii_of_nat 34.
Definition backslash : ascii := ascii_of_nat 92.

Definition is_whitespace (c : ascii) : bool :=
  let n := nat_of_ascii c in
  ((n =? 32) || (n =? 9) || (n =? 10) || (n =? 13))%nat.

Fixpoint skip_whitespace (s : string) : string :=
  match s with
  | String c rest => if is_whitespace c then skip_whitespace rest else s
  | EmptyString => s
  end.

Fixpoint strip_prefix (p s : string) : option string :=
  match p with
  | EmptyString => Some s
  | String a p' =>
      match s with
      | String b s' => if Ascii.eqb a b then strip_prefix p' s' else None
      | EmptyString => None
      end
  end.

(** [s] without its first character when that is [c]. *)
Definition after (c : ascii) (s : string) : option string :=
  match s with
  | String x rest => if Ascii.eqb x c then Some rest else None
  | EmptyString => None
  end.

Definition is_digit (c : ascii) : bool :=
  let n := nat_of_ascii c in ((48 <=? n) && (n <=? 57))%nat.

Definition digit_value (c : ascii) : Z := Z.of_nat (nat_of_ascii c) - 48.

(** The longest run of digits at the head of [s], and what follows. *)
Fixpoint digits (s : string) : string * string :=
  match s with
  | String c rest =>
      if is_digit c then let (ds, r) := digits rest in (String c ds, r)
      else (EmptyString, s)
  | EmptyString => (EmptyString, s)
  end.

Fixpoint Z_of_digits (acc : Z) (ds : string) : Z :=
  match ds with
  | String c rest => Z_of_digits (10 * acc + digit_value c) rest
  | EmptyString => acc
  end.

(** NUMBER_RE: an optional minus sign, then 0 or a run of digits that
    does not start with 0; optionally a dot and digits; optionally e or
    E, a sign and digits. The value is an [int] when neither fraction nor
    exponent is present. [match_number] yields the value, the number of
    digits [int()] has to convert (none for a float), and the text that
    follows. *)
Definition match_integer (s : string) : option (bool * string * string) :=
  let (negative, s1) :=
    match after "-" s with
    | Some r => (true, r)
    | None => (false, s)
    end in
  match s1 with
  | String c r =>
      if Ascii.eqb c "0" then Some (negative, "0", r)
      else if is_digit c then let (ds, r') := digits s1 in Some (negative, ds, r')
      else None
  | EmptyString => None
  end.

Definition match_frac (s : string) : string * string :=
  match after "." s with
  | Some r =>
      let (ds, r') := digits r in
      match ds with
      | EmptyString => (EmptyString, s)
      | _ => (ds, r')
      end
  | None => (EmptyString, s)
  end.

Definition match_exp (s : string) : option Z * string :=
  match s with
  | String c r =>
      if Ascii.eqb c "e" || Ascii.eqb c "E" then
        let (negative, r1) :=
          match after "-" r, after "+" r with
          | Some r', _ => (true, r')
          | None, Some r' => (false, r')
          | None, None => (false, r)
          end in
        let (ds, r2) := digits r1 in
        match ds with
        | EmptyString => (None, s)
        | _ => (Some (if negative then - Z_of_digits 0 ds else Z_of_digits 0 ds), r2)
        end
      else (None, s)
  | EmptyString => (None, s)
  end.

Definition match_number (s : string) : option (pyval * nat * string) :=
  match match_integer s with
  | None => None
  | Some (negative, int_digits, r) =>
      let (frac_digits, r1) := match_frac r in
      let (exponent, r2) := match_exp r1 in
      let sign (z : Z) := if negative then - z else z in
      match frac_digits, exponent with
      | EmptyString, None =>
          Some (PInt (sign (Z_of_digits 0 int_digits)), String.length int_digits, r2)
      | _, _ =>
          let m := Z_of_digits (Z_of_digits 0 int_digits) frac_digits in
          let e := match exponent with Some x => x | None => 0 end in
          Some (PFloat (sign m) (e - Z.of_nat (String.length frac_digits)), 0%nat, r2)
      end
  end.

Definition hex_value (c : ascii) : option N :=
  let n := N_of_ascii c in
  if ((48 <=? n) && (n <=? 57))%N then Some (n - 48)%N
  else if ((97 <=? n) && (n <=? 102))%N then Some (n - 87)%N
  else if ((65 <=? n) && (n <=? 70))%N then Some (n - 55)%N
  else None.

Definition hex4 (a b c d : ascii) : option N :=
  match hex_value a, hex_value b, hex_value c, hex_value d with
  | Some x, Some y, Some z, Some t => Some (((x * 16 + y) * 16 + z) * 16 + t)%N
  | _, _, _, _ => None
  end.

(** The UTF-8 bytes of [chr(n)]. *)
Definition chr (n : N) : string :=
  let byte (k : N) := ascii_of_N k in
  let cont (k : N) := byte (128 + k mod 64)%N in
  (if n <? 128 then String (byte n) EmptyString
   else if n <? 2048 then String (byte (192 + n / 64)) (String (cont n) EmptyString)
   else if n <? 65536 then
     String (byte (224 + n / 4096)) (String (cont (n / 64)) (String (cont n) EmptyString))
   else
     String (byte (240 + n / 262144))
       (String (cont (n / 4096)) (String (cont (n / 64)) (String (cont n) EmptyString))))%N.

Definition is_high_surrogate (n : N) : bool := ((55296 <=? n) && (n <=? 56319))%N.
Definition is_low_surrogate (n : N) : bool := ((56320 <=? n) && (n <=? 57343))%N.
Definition join_surrogates (hi lo : N) : N :=
  (65536 + ((hi - 55296) * 1024 + (lo - 56320)))%N.

Definition unescape (esc : ascii) : option ascii :=
  if Ascii.eqb esc dquote then Some dquote
  else if Ascii.eqb esc backslash then Some backslash
  else if Ascii.eqb esc "/" then Some "/"%char
  else if Ascii.eqb esc "b" then Some (ascii_of_nat 8)
  else if Ascii.eqb esc "f" then Some (ascii_of_nat 12)
  else if Ascii.eqb esc "n" then Some (ascii_of_nat 10)
  else if Ascii.eqb esc "r" then Some (ascii_of_nat 13)
  else if Ascii.eqb esc "t" then Some (ascii_of_nat 9)
  else None.

Definition cons_chars (prefix : string) (r : option (string * string))
  : option (string * string) :=
  match r with
  | Some (str, rest) => Some ((prefix ++ str)%string, rest)
  | None => None
  end.

(** [scanstring]: the text after an opening quote up to the closing one,
    and what follows it; [None] where the decoder raises
    [JSONDecodeError]. *)
Fixpoint scanstring (s : string) : option (string * string) :=
  match s with
  | EmptyString => None
  | String c r =>
      if Ascii.eqb c dquote then Some (EmptyString, r)
      else if Ascii.eqb c backslash then
        match r with
        | EmptyString => None
        | String esc r1 =>
            if Ascii.eqb esc "u" then
              match r1 with
              | String h1 (String h2 (String h3 (String h4 r2))) =>
                  match hex4 h1 h2 h3 h4 with
                  | None => None
                  | Some uni =>
                      match r2 with
                      | String b (String u (String k1 (String k2 (String k3 (String k4 r3))))) =>
                          if is_high_surrogate uni && Ascii.eqb b backslash && Ascii.eqb u "u"
                          then
                            match hex4 k1 k2 k3 k4 with
                            | None => None
                            | Some uni2 =>
                                if is_low_surrogate uni2
                                then cons_chars (chr (join_surrogates uni uni2)) (scanstring r3)
                                else cons_chars (chr uni) (scanstring r2)
                            end
                          else cons_chars (chr uni) (scanstring r2)
                      | _ => cons_chars (chr uni) (scanstring r2)
                      end
                  end
              | _ => None
              end
            else
              match unescape esc with
              | Some ch => cons_chars (String ch EmptyString) (scanstring r1)
              | None => None
              end
        end
      else if (nat_of_ascii c <? 32)%nat then None
      else cons_chars (String c EmptyString) (scanstring r)
  end.

(** [dict(pairs)]: a repeated key keeps its first place and its last
    value. *)
Fixpoint dict_set (d : list (string * pyval)) (k : string) (v : pyval)
  : list (string * pyval) :=
  match d with
  | [] => [(k, v)]
  | (k', v') :: rest =>
      if (k' =? k)%string then (k', v) :: rest else (k', v') :: dict_set rest k v
  end.

Definition dict_of_pairs (pairs : list (string * pyval)) : list (string * pyval) :=
  fold_left (fun d kv => dict_set d (fst kv) (snd kv)) pairs [].

(** [int()] refuses a text of [n] digits: the limit is set, [n] is above
    it, and above the 640 digits below which the limit is not looked
    at. *)
Definition too_many_digits (max_str_digits n : nat) : bool :=
  ((0 <? max_str_digits) && (max_str_digits <? n) && (640 <? n))%nat.

Section Decoder.

(** What becomes, at its closing brace, of the members of an object that
    lies [level] deep: 1 for the outermost. *)
Variable finish_object : nat -> list (string * pyval) -> result pyval.

(** The limit on the digits of an [int] literal; 0 for none. *)
Variable max_str_digits : nat.

(** Whether the scanner may enter an array or object that lies [level]
    deep. *)
Variable room : nat -> bool.

(** [level] counts the arrays and objects around the value to scan. *)
Fixpoint scan_once (fuel level : nat) (s : string) {struct fuel}
  : result (pyval * string) :=
  match fuel with
  | O => inl JSONDecodeError
  | S fuel' =>
      match s with
      | EmptyString => inl JSONDecodeError
      | String c r =>
          if Ascii.eqb c dquote then
            match scanstring r with
            | Some (str, rest) => inr (PStr str, rest)
            | None => inl JSONDecodeError
            end
          else if Ascii.eqb c "{" then
            if room (S level) then
              match after "}" (skip_whitespace r) with
              | Some rest =>
                  match finish_object (S level) [] with
                  | inr obj => inr (obj, rest)
                  | inl e => inl e
                  end
              | None => JSONObject fuel' (S level) (skip_whitespace r) []
              end
            else inl RecursionError
          else if Ascii.eqb c "[" then
            if room (S level) then
              match after "]" (skip_whitespace r) with
              | Some rest => inr (PList [], rest)
              | None => JSONArray fuel' (S level) (skip_whitespace r) []
              end
            else inl RecursionError
          else
            match strip_prefix "null" s, strip_prefix "true" s, strip_prefix "false" s with
            | Some rest, _, _ => inr (PNone, rest)
            | _, Some rest, _ => inr (PBool true, rest)
            | _, _, Some rest => inr (PBool false, rest)
            | None, None, None =>
                match match_number s with
                | Some (number, n, rest) =>
                    if too_many_digits max_str_digits n then inl ValueError
                    else inr (number, rest)
                | None =>
                    match strip_prefix "NaN" s, strip_prefix "Infinity" s,
                          strip_prefix "-Infinity" s with
                    | Some rest, _, _ => inr (PNaN, rest)
                    | _, Some rest, _ => inr (PInf false, rest)
                    | _, _, Some rest => inr (PInf true, rest)
                    | None, None, None => inl JSONDecodeError
                    end
                end
            end
      end
  end

(** The members of an object that lies [level] deep, from the first
    character of a key on. *)
with JSONObject (fuel level : nat) (s : string) (pairs : list (string * pyval))
  {struct fuel} : result (pyval * string) :=
  match fuel with
  | O => inl JSONDecodeError
  | S fuel' =>
      match s with
      | String c r =>
          if Ascii.eqb c dquote then
            match scanstring r with
            | None => inl JSONDecodeError
            | Some (key, r1) =>
                match after ":" (skip_whitespace r1) with
                | Some r2 =>
                    match scan_once fuel' level (skip_whitespace r2) with
                    | inl e => inl e
                    | inr (value, r3) =>
                        let pairs' := (pairs ++ [(key, value)])%list in
                        match after "}" (skip_whitespace r3), after "," (skip_whitespace r3) with
                        | Some rest, _ =>
                            match finish_object level pairs' with
                            | inr obj => inr (obj, rest)
                            | inl e => inl e
                            end
                        | None, Some r4 => JSONObject fuel' level (skip_whitespace r4) pairs'
                        | None, None => inl JSONDecodeError
                        end
                    end
                | None => inl JSONDecodeError
                end
            end
          else inl JSONDecodeError
      | EmptyString => inl JSONDecodeError
      end
  end

(** The items of an array that lies [level] deep, from the first
    character of an item on. *)
with JSONArray (fuel level : nat) (s : string) (items : list pyval) {struct fuel}
  : result (pyval * string) :=
  match fuel with
  | O => inl JSONDecodeError
  | S fuel' =>
      match scan_once fuel' level s with
      | inl e => inl e
      | inr (value, r1) =>
          let items' := (items ++ [value])%list in
          match after "]" (skip_whitespace r1), after "," (skip_whitespace r1) with
          | Some rest, _ => inr (PList items', rest)
          | None, Some r2 => JSONArray fuel' level (skip_whitespace r2) items'
          | None, None => inl JSONDecodeError
          end
      end
  end.

(** [JSONDecoder.decode]: one value, white space around it, nothing
    else. Of two nested calls of the scanner at least one consumes a
    character, so twice the length of the text bounds their depth. *)
Definition decode (s : string) : result pyval :=
  match scan_once (S (2 * String.length s)) 0 (skip_whitespace s) with
  | inl e => inl e
  | inr (obj, rest) =>
      match skip_whitespace rest with
      | EmptyString => inr obj
      | _ => inl JSONDecodeError
      end
  end.

End Decoder.

(** ** namedtuple *)

Definition is_letter (c : ascii) : bool :=
  let n := nat_of_ascii c in
  (((65 <=? n) && (n <=? 90)) || ((97 <=? n) && (n <=? 122)))%nat.

(** [s.isidentifier()]: on ASCII text a letter or an underscore, then
    letters, digits and underscores; on other text the Unicode tables
    decide. *)
Definition isidentifier (py : Python) (s : string) : bool :=
  if is_ascii s then
    match s with
    | EmptyString => false
    | String c rest =>
        (is_letter c || Ascii.eqb c "_")
        && all_chars (fun x => is_letter x || is_digit x || Ascii.eqb x "_") rest
    end
  else unicode_isidentifier py s.

Definition kwlist : list string :=
  ["False"; "None"; "True"; "and"; "as"; "assert"; "async"; "await"; "break";
   "class"; "continue"; "def"; "del"; "elif"; "else"; "except"; "finally"; "for";
   "from"; "global"; "if"; "import"; "in"; "is"; "lambda"; "nonlocal"; "not"; "or";
   "pass"; "raise"; "return"; "try"; "while"; "with"; "yield"].

Definition iskeyword (s : string) : bool := existsb (String.eqb s) kwlist.

(** The names [namedtuple] takes as field names; it raises [ValueError]
    on any other. *)
Definition valid_field_name (py : Python) (s : string) : bool :=
  isidentifier py s && negb (iskeyword s)
  && match after "_" s with Some _ => false | None => true end.

(** The identifier the compiler reads in a field name. *)
Definition identifier (py : Python) (s : string) : string :=
  if is_ascii s then s else unicode_identifier py s.

Fixpoint distinct (names : list string) : bool :=
  match names with
  | [] => true
  | x :: rest => negb (existsb (String.eqb x) rest) && distinct rest
  end.

(** [namedtuple('X', d.keys())( *d.values() )]. The names are checked
    first; the class is then built from a [lambda] with the names for
    parameters, which the compiler refuses with [SyntaxError] when two
    of them are the same identifier to it. *)
Definition namedtuple_X (py : Python) (d : list (string * pyval)) : result pyval :=
  let field_names := map fst d in
  if negb (forallb (valid_field_name py) field_names) then inl ValueError
  else if distinct (map (identifier py) field_names) then inr (PRecord d)
  else inl SyntaxError.

(** The object hook on the [dict] of the members read, for an object
    that lies [level] deep. The hook is a Python call of its own, and
    raises [RecursionError] where it has no room left. *)
Definition hook (py : Python) (level : nat) (pairs : list (string * pyval))
  : result pyval :=
  if (level <=? hook_depth py)%nat then namedtuple_X py (dict_of_pairs pairs)
  else inl RecursionError.

(** [json.loads(payload, object_hook=lambda d: namedtuple('X', d.keys())( *d.values() ))] *)
Definition json_loads (py : Python) (payload : string) : result pyval :=
  decode (hook py) (int_max_str_digits py)
         (fun level => (level <=? recursion_depth py)%nat) payload.



(** ** The object hook, seen from the syntax *)





(** The field names of the record an object becomes: its keys, each
    once. *)
Definition field_names (members : list (string * pyval)) : list string :=
  map fst (dict_of_pairs members).




(** ** The record store *)

(** Modelled from the spec: [hotel.models] is not under src/. The three
    tables are the spec's key-addressable record store: rows carrying
    the fields the module names, looked up by exact field match, created
    with a fresh id, updated in place; a field that a call does not set
    stays absent. [Hotel] maps a vendor's hotel id to an internal id. *)
Module Hotel.
Record t : Type := Build { id : Z; pms_hotel_id : pyval }.
End Hotel.

(** Modelled from the spec: the [Guest] rows of [hotel.models], with the
    fields [update_or_create_guest] writes. *)
Module Guest.
Record t : Type := Build {
  id : Z;
  name : pyval;
  phone : pyval;
  language : string;
  created_at : option Z;
  updated_at : option Z
}.
End Guest.

(** Modelled from the spec: the [Stay] rows of [hotel.models], with the
    fields [update_or_create_stay] writes. *)
Module Stay.
Record t : Type := Build {
  id : Z;
  hotel_id : Z;
  pms_reservation_id : pyval;
  pms_guest_id : pyval;
  guest_id : option Z;
  status : pyval;
  checkin : pyval;
  checkout : pyval;
  created_at : option Z;
  updated_at : option Z
}.
End Stay.

(** The vendor endpoints of [hotel.external_api]. *)
Inductive endpoint : Type :=
| get_reservations_for_given_checkin_date
| get_reservation_details
| get_guest_details.

Record World : Type := mkWorld {
  Hotels : list Hotel.t;
  Guests : list Guest.t;
  Stays : list Stay.t;
  next_guest_id : Z;
  next_stay_id : Z;
  api_calls : list (endpoint * pyval);   (* remote calls made so far *)
  stdout : list string;                  (* lines printed so far *)
  uuids_drawn : nat                      (* uuid.uuid4() calls so far *)
}.

(** What the module reads from its surroundings: the table
    [Language.choices] of [hotel.models] and the vendor calls of
    [hotel.external_api], neither under src/, the clock at import, the
    placeholder names drawn and the interpreter. [remote ep p k] is the
    vendor's answer to the call [ep(p)] made after [k] earlier calls. *)
Record Env : Type := mkEnv {
  Language_choices : list (string * string);   (* Language.choices *)
  now : Z;                                     (* now = datetime.now(), at import *)
  uuid4 : nat -> string;
  remote : endpoint -> pyval -> nat -> result string;
  JsonValueError_is_ValueError : bool;
  python : Python                              (* the interpreter *)
}.

(** ** Computations *)

Definition M (A : Type) : Type := World -> result A * World.

Definition ret {A} (a : A) : M A := fun w => (inr a, w).
Definition raise {A} (e : exn) : M A := fun w => (inl e, w).
Definition bind {A B} (m : M A) (k : A -> M B) : M B :=
  fun w =>
    match m w with
    | (inr a, w') => k a w'
    | (inl e, w') => (inl e, w')
    end.
Definition lift {A} (r : result A) : M A := fun w => (r, w).

Notation "x <- m ;; k" := (bind m (fun x => k))
  (at level 61, m at next level, right associativity).
Notation "m ;;; k" := (bind m (fun _ => k))
  (at level 61, right associativity).

Definition bind_result {A B} (r : result A) (k : A -> result B) : result B :=
  match r with
  | inr a => k a
  | inl e => inl e
  end.

Definition print (line : string) : M unit :=
  fun w => (inr tt,
            mkWorld (Hotels w) (Guests w) (Stays w) (next_guest_id w) (next_stay_id w)
                    (api_calls w) (stdout w ++ [line]) (uuids_drawn w)).

Definition set_Guests (gs : list Guest.t) (w : World) : World :=
  mkWorld (Hotels w) gs (Stays w) (next_guest_id w) (next_stay_id w)
          (api_calls w) (stdout w) (uuids_drawn w).

Definition set_Stays (ss : list Stay.t) (w : World) : World :=
  mkWorld (Hotels w) (Guests w) ss (next_guest_id w) (next_stay_id w)
          (api_calls w) (stdout w) (uuids_drawn w).

Definition record_call (request : endpoint) (parameters : pyval) (w : World) : World :=
  mkWorld (Hotels w) (Guests w) (Stays w) (next_guest_id w) (next_stay_id w)
          (api_calls w ++ [(request, parameters)])%list (stdout w) (uuids_drawn w).

(** ** Queries

    The operations keep the meaning they have in the ORM the module
    calls: [filter(...)] selects the rows whose field equals the value,
    [exists()] tells whether there is one, [update(...)] writes every
    selected row, [get(...)] returns the only match and raises
    [DoesNotExist] on none, [MultipleObjectsReturned] on several. *)

Definition hotel_matches (pms_hotel_id : pyval) (h : Hotel.t) : bool :=
  pyval_eqb (Hotel.pms_hotel_id h) pms_hotel_id.

Definition guest_matches (phone : pyval) (g : Guest.t) : bool :=
  pyval_eqb (Guest.phone g) phone.

Definition stay_matches (pms_reservation_id : pyval) (s : Stay.t) : bool :=
  pyval_eqb (Stay.pms_reservation_id s) pms_reservation_id.

(** [queryset.get()] on the rows a filter selects. *)
Definition get_one {A} (rows : list A) : result A :=
  match rows with
  | [] => inl DoesNotExist
  | [row] => inr row
  | _ => inl MultipleObjectsReturned
  end.

(** [queryset.exists()] *)
Definition exists_ {A} (rows : list A) : bool :=
  match rows with [] => false | _ => true end.

(** ** The adapters *)

(** The instances of the concrete subclasses of [PMS]. *)
Inductive pms : Type := PMS_Mews.

Definition class_name (self : pms) : string :=
  match self with PMS_Mews => "PMS_Mews" end.

(** [longname[4:]] *)
Definition name (self : pms) : string :=
  let longname := class_name self in
  substring 4 (String.length longname - 4) longname.

(** [PMS_Mews.clean_webhook_payload]. [raise JSONDecodeError] raises the
    class, which Python instantiates without arguments; its constructor
    needs three, so what leaves the handler is a [TypeError]. *)
Definition clean_webhook_payload (env : Env) (self : pms) (payload : string)
  : result pyval :=
  match self with
  | PMS_Mews =>
      if negb (truthy (PStr payload))
      then inl (JsonValueError "Incorrect json input")
      else
        match json_loads (python env) payload with
        | inl JSONDecodeError => inl TypeError
        | inl e => inl e
        | inr webhook_data => inr webhook_data
        end
  end.

(** [get_pms] looks among the class names of the module for PMS_
    followed by the capitalised name. [PMS_Mews] is the only class whose
    name starts with PMS_; [None] is the [False] the function returns
    for every other name. [name.capitalize()] is computed as on ASCII
    text: only M and m have the title case M, and only E, W, S and e, w,
    s the lower case e, w, s, so that a name with any other character
    does not capitalise to Mews whatever the Unicode tables say, and is
    no name of a class here either. *)
Definition get_pms (name : string) : option pms :=
  let fullname := ("PMS_" ++ capitalize name)%string in
  if (fullname =? class_name PMS_Mews)%string then Some PMS_Mews else None.

(** A byte that continues a UTF-8 sequence. *)
Definition is_continuation (c : ascii) : bool :=
  let n := nat_of_ascii c in ((128 <=? n) && (n <=? 191))%nat.

(** The characters of a [str], one string per code point. *)
Fixpoint code_points (s : string) : list string :=
  match s with
  | EmptyString => []
  | String c rest =>
      match code_points rest with
      | tail :: more =>
          match tail with
          | String c' _ =>
              if is_continuation c' then String c tail :: more
              else String c EmptyString :: tail :: more
          | EmptyString => String c EmptyString :: more
          end
      | [] => [String c EmptyString]
      end
  end.

(** [for x in v]: the items [v] yields; a record is a tuple of its
    values, a number or [None] is not iterable. *)
Definition iter (v : pyval) : result (list pyval) :=
  match v with
  | PList items => inr items
  | PRecord fields => inr (map snd fields)
  | PStr s => inr (map PStr (code_points s))
  | _ => inl TypeError
  end.

(** Modelled from the spec: a row of [Stay] as [getattr] sees it. Its
    attributes are the fields of the model, named as the module names
    them when it writes a row. *)
Definition stay_row (s : Stay.t) : pyval :=
  let optional (z : option Z) := match z with Some x => PInt x | None => PNone end in
  PRecord [("id", PInt (Stay.id s)); ("hotel_id", PInt (Stay.hotel_id s));
           ("pms_reservation_id", Stay.pms_reservation_id s);
           ("pms_guest_id", Stay.pms_guest_id s);
           ("guest_id", optional (Stay.guest_id s));
           ("status", Stay.status s); ("checkin", Stay.checkin s);
           ("checkout", Stay.checkout s);
           ("created_at", optional (Stay.created_at s));
           ("updated_at", optional (Stay.updated_at s))].

(** ** Dates *)

(** A [datetime.date]. *)
Module Date.
Record t : Type := Build { year : Z; month : Z; day : Z }.
End Date.

Definition digit_char (z : Z) : ascii := ascii_of_nat (48 + Z.to_nat z).

(** Two and four decimal digits, zero padded. *)
Definition pad2 (z : Z) : string :=
  String (digit_char (z / 10)) (String (digit_char (z mod 10)) EmptyString).

Definition pad4 (z : Z) : string := (pad2 (z / 100) ++ pad2 (z mod 100))%string.

(** [str(d)]: the ISO form YYYY-MM-DD. *)
Definition str_date (d : Date.t) : string :=
  (pad4 (Date.year d) ++ "-" ++ pad2 (Date.month d) ++ "-" ++ pad2 (Date.day d))%string.

Section Module_pms_systems.

Variable env : Env.

(** ** get_guest_language *)

Fixpoint language_choice (choices : list (string * string)) (country : pyval)
  : result string :=
  match choices with
  | [] => inr "None"
  | choice :: rest =>
      bind_result (call_lower (python env) country) (fun lowered =>
        if (fst choice =? lowered)%string then inr (snd choice)
        else language_choice rest country)
  end.

Definition get_guest_language (country : pyval) : result string :=
  if negb (truthy country) then inr "None"
  else language_choice (Language_choices env) country.

(** ** update_or_create_guest *)

(** [uuid.uuid4() if not guest.Name else guest.Name]; the store keeps the
    placeholder in its text form. *)
Definition guest_name (guest : pyval) : M pyval :=
  n <- lift (get_attr guest "Name") ;;
  if negb (truthy n)
  then fun w =>
         (inr (PStr (uuid4 env (uuids_drawn w))),
          mkWorld (Hotels w) (Guests w) (Stays w) (next_guest_id w) (next_stay_id w)
                  (api_calls w) (stdout w) (S (uuids_drawn w)))
  else lift (get_attr guest "Name").

Definition update_guest (phone name : pyval) (language : string) (g : Guest.t)
  : Guest.t :=
  if guest_matches phone g
  then Guest.Build (Guest.id g) name phone language (Guest.created_at g) (Some (now env))
  else g.

Definition save_guest (name phone : pyval) (language : string) : M unit :=
  fun w =>
    (inr tt,
     mkWorld (Hotels w)
             (Guests w ++ [Guest.Build (next_guest_id w) name phone language
                                       (Some (now env)) None])
             (Stays w) (next_guest_id w + 1) (next_stay_id w)
             (api_calls w) (stdout w) (uuids_drawn w)).

Definition guests_by_phone (phone : pyval) : M (list Guest.t) :=
  fun w => (inr (filter (guest_matches phone) (Guests w)), w).

Definition update_or_create_guest (guest : pyval) : M (option Z) :=
  country <- lift (get_attr guest "Country") ;;
  language <- lift (get_guest_language country) ;;
  phone <- lift (get_attr guest "Phone") ;;
  if negb (truthy phone) || eq_str phone "Not available"
  then ret None
  else
    guest_from_db <- guests_by_phone phone ;;
    if exists_ guest_from_db
    then
      name <- guest_name guest ;;
      (fun w => (inr tt, set_Guests (map (update_guest phone name language) (Guests w)) w)) ;;;
      rows <- guests_by_phone phone ;;
      g <- lift (get_one rows) ;;
      ret (Some (Guest.id g))
    else
      name <- guest_name guest ;;
      save_guest name phone language ;;;
      rows <- guests_by_phone phone ;;
      if negb (exists_ rows) then ret None
      else
        rows' <- guests_by_phone phone ;;
        g <- lift (get_one rows') ;;
        ret (Some (Guest.id g)).

(** ** update_or_create_stay *)

Definition hotels_by_pms_id (pms_hotel_id : pyval) : M (list Hotel.t) :=
  fun w => (inr (filter (hotel_matches pms_hotel_id) (Hotels w)), w).

Definition stays_by_reservation (pms_reservation_id : pyval) : M (list Stay.t) :=
  fun w => (inr (filter (stay_matches pms_reservation_id) (Stays w)), w).

Definition update_stay (key : pyval) (hotel_id : Z) (reservation guest : pyval)
  (guest_id : option Z) (status checkin checkout : pyval) (s : Stay.t) : Stay.t :=
  if stay_matches key s
  then Stay.Build (Stay.id s) hotel_id reservation guest guest_id status checkin checkout
                  (Stay.created_at s) (Some (now env))
  else s.

Definition save_stay (hotel_id : Z) (reservation guest : pyval)
  (guest_id : option Z) (status checkin checkout : pyval) : M unit :=
  fun w =>
    (inr tt,
     mkWorld (Hotels w) (Guests w)
             (Stays w ++ [Stay.Build (next_stay_id w) hotel_id reservation guest guest_id
                                     status checkin checkout (Some (now env)) None])
             (next_guest_id w) (next_stay_id w + 1)
             (api_calls w) (stdout w) (uuids_drawn w)).

Definition update_or_create_stay (stay : pyval) (guest_id : option Z) : M unit :=
  pms_hotel_id <- lift (get_attr stay "HotelId") ;;
  hotels <- hotels_by_pms_id pms_hotel_id ;;
  hotel <- lift (get_one hotels) ;;
  let hotel_id := Hotel.id hotel in
  if hotel_id =? 0
  then raise (IncorrectHotelIdException "Hotel ID not found")
  else
    key <- lift (get_attr stay "ReservationId") ;;
    stay_from_db <- stays_by_reservation key ;;
    if exists_ stay_from_db
    then
      reservation <- lift (get_attr stay "ReservationId") ;;
      guest <- lift (get_attr stay "GuestId") ;;
      status <- lift (get_attr stay "Status") ;;
      checkin <- lift (get_attr stay "CheckInDate") ;;
      checkout <- lift (get_attr stay "CheckOutDate") ;;
      fun w => (inr tt,
                set_Stays (map (update_stay key hotel_id reservation guest guest_id
                                            status checkin checkout) (Stays w)) w)
    else
      reservation <- lift (get_attr stay "ReservationId") ;;
      guest <- lift (get_attr stay "GuestId") ;;
      status <- lift (get_attr stay "Status") ;;
      checkin <- lift (get_attr stay "CheckInDate") ;;
      checkout <- lift (get_attr stay "CheckOutDate") ;;
      save_stay hotel_id reservation guest guest_id status checkin checkout.

(** ** make_api_call_with_retry *)

(** [request(parameters)]: the call is recorded, the vendor answers. *)
Definition call (request : endpoint) (parameters : pyval) : M string :=
  fun w =>
    (remote env request parameters (List.length (api_calls w)),
     record_call request parameters w).

(** The outcome of [m] as a value, for the [except] clauses to inspect. *)
Definition attempt {A} (m : M A) : M (result A) :=
  fun w => let (r, w') := m w in (inr r, w').

(** [pms.clean_webhook_payload(data)], where [pms] may be the [False] of
    [get_pms]. *)
Definition pms_clean (pms : option pms) (data : string) : result pyval :=
  match pms with
  | Some self => clean_webhook_payload env self data
  | None => inl AttributeError
  end.

(** The [while retry_times < 10] loop; it yields [retry_times] and [data]
    as they stand when the loop is left. The counter grows by one per
    turn from 0, so ten turns of fuel reach the loop condition. *)
Fixpoint retry_loop (fuel : nat) (pms : option pms) (request : endpoint)
  (parameters : pyval) (retry_times : Z) (data : pyval) : M (Z * pyval) :=
  match fuel with
  | O => ret (retry_times, data)
  | S fuel' =>
      if retry_times <? 10 then
        r <- attempt (call request parameters) ;;
        match r with
        | inr raw =>
            match pms_clean pms raw with
            | inr cleaned => ret (retry_times, cleaned)
            | inl (APIError msg) =>
                print msg ;;;
                retry_loop fuel' pms request parameters (retry_times + 1) (PStr raw)
            | inl e => raise e
            end
        | inl (APIError msg) =>
            print msg ;;;
            retry_loop fuel' pms request parameters (retry_times + 1) data
        | inl e => raise e
        end
      else ret (retry_times, data)
  end.

Definition make_api_call_with_retry (pms_name : string) (request : endpoint)
  (parameters : pyval) : M pyval :=
  let data := PNone in
  let pms := get_pms pms_name in
  let retry_times := 0 in
  out <- retry_loop 10 pms request parameters retry_times data ;;
  let (retry_times', data') := out : Z * pyval in
  if retry_times' =? 10 then raise (APIError "")
  else ret data'.

(** ** PMS_Mews.handle_webhook *)

(** The [except] clauses of the event loop: [true] for the two that
    [continue], [false] for [except Exception: return False]. *)
Definition continues (e : exn) : bool :=
  match e with
  | IncorrectHotelIdException _ => true
  | ValueError => true
  | JSONDecodeError => true
  | JsonValueError _ => JsonValueError_is_ValueError env
  | _ => false
  end.

Definition handle_event (self : pms) (event : pyval) : M unit :=
  value <- lift (get_attr event "Value") ;;
  reservation_id <- lift (get_attr value "ReservationId") ;;
  stay <- make_api_call_with_retry (name self) get_reservation_details reservation_id ;;
  pms_guest_id <- lift (get_attr stay "GuestId") ;;
  guest <- make_api_call_with_retry (name self) get_guest_details pms_guest_id ;;
  guest_id <- update_or_create_guest guest ;;
  update_or_create_stay stay guest_id.

Fixpoint handle_events (self : pms) (events : list pyval) : M bool :=
  match events with
  | [] => ret true
  | event :: rest =>
      r <- attempt (handle_event self event) ;;
      match r with
      | inr _ => handle_events self rest
      | inl e => if continues e then handle_events self rest else ret false
      end
  end.

Definition handle_webhook (self : pms) (webhook_data : pyval) : M bool :=
  match self with
  | PMS_Mews =>
      events <- lift (get_attr webhook_data "Events") ;;
      items <- lift (iter events) ;;
      handle_events self items
  end.

(** ** PMS_Mews.update_tomorrows_stays *)

(** The body of the [try] in the loop over the reservations. *)
Definition update_stay_and_guest (self : pms) (stay : pyval) : M unit :=
  pms_guest_id <- lift (get_attr stay "GuestId") ;;
  guest <- make_api_call_with_retry (name self) get_guest_details pms_guest_id ;;
  guest_id <- update_or_create_guest guest ;;
  update_or_create_stay stay guest_id.

Fixpoint update_stays (self : pms) (stays : list pyval) : M bool :=
  match stays with
  | [] => ret true
  | stay :: rest =>
      r <- attempt (update_stay_and_guest self stay) ;;
      match r with
      | inr _ => update_stays self rest
      | inl e => if continues e then update_stays self rest else ret false
      end
  end.

(** [tomorrow_date] is the date the first statement reads off the clock,
    [(datetime.now() + timedelta(days=1)).date()]. *)
Definition update_tomorrows_stays (self : pms) (tomorrow_date : Date.t) : M bool :=
  match self with
  | PMS_Mews =>
      stays <- make_api_call_with_retry (name self)
                 get_reservations_for_given_checkin_date
                 (PStr (str_date tomorrow_date)) ;;
      items <- lift (iter stays) ;;
      update_stays self items
  end.

(** ** PMS_Mews.stay_has_breakfast *)

(** [stay] is read by attribute: a [Stay] row, as the signature has it
    (see [stay_row]), or any other object. *)
Definition stay_has_breakfast (self : pms) (stay : pyval) : M pyval :=
  match self with
  | PMS_Mews =>
      reservation_id <- lift (get_attr stay "ReservationId") ;;
      stay_to_check <- make_api_call_with_retry (name self) get_reservation_details
                         reservation_id ;;
      lift (get_attr stay_to_check "BreakfastIncluded")
  end.

End Module_pms_systems.

(** "After any sequence of [update_or_create_guest] calls": the calls are
    made one after the other, whatever each returns or raises. *)
Fixpoint reconcile_guests (env : Env) (guests : list pyval) (w : World) : World :=
  match guests with
  | [] => w
  | guest :: rest => reconcile_guests env rest (snd (update_or_create_guest env guest w))
  end.

(** At most one [Guest] row per phone number. *)
Definition one_guest_per_phone (w : World) : Prop :=
  forall phone, (List.length (filter (guest_matches phone) (Guests w)) <= 1)%nat.

(** A phone number [update_or_create_guest] does not persist. *)
Definition no_usable_phone (phone : pyval) : Prop :=
  truthy phone = false \/ phone = PStr "Not available".

(** A phone number it does persist. *)
Definition usable_phone (phone : pyval) : Prop :=
  truthy phone = true /\ phone <> PStr "Not available".

(** A country code: a [str], or absent. *)
Definition country_code (country : pyval) : Prop :=
  country = PNone \/ exists s, country = PStr s.


(** ** Sample surroundings

    A vendor whose every call fails, a three-entry language table, an
    import time and a supply of placeholder names, for evaluating the
    module on concrete inputs. *)

Definition sample_choices : list (string * string) :=
  [("de", "German"); ("en-GB", "British English"); ("nl", "Dutch")].

Definition vendor_down : endpoint -> pyval -> nat -> result string :=
  fun _ _ _ => inl (APIError "Currently no access to the API").

(** An interpreter with the default limits on digits and depth. The
    texts evaluated on it below are ASCII, which its three Unicode
    tables are not asked about. *)
Definition sample_python : Python :=
  mkPython (fun s => s) (fun _ => false) (fun s => s) 4300 990 985.

Definition sample_env : Env :=
  mkEnv sample_choices 1700000000 (fun k => String (ascii_of_nat (97 + k)) "-uuid")
        vendor_down true sample_python.

(** An interpreter that knows three characters beyond ASCII, as the
    tables of Unicode have them: the letter e with an acute accent, an
    identifier; the ligature of f and i, a letter that the compiler
    reads as fi; and the Kelvin sign, which [lower()] turns into k. *)
Definition e_acute : string := chr 233.
Definition ligature_fi : string := chr 64257.
Definition kelvin_sign : string := chr 8490.

Definition unicode_python : Python :=
  mkPython (fun s => if (s =? kelvin_sign ++ "o")%string then "ko" else s)
           (fun s => (s =? e_acute)%string || (s =? ligature_fi)%string)
           (fun s => if (s =? ligature_fi)%string then "fi" else s) 4300 990 985.

(** The surroundings on that interpreter, with a table of one entry. *)
Definition unicode_env : Env :=
  mkEnv [("ko", "Korean")] 1700000000 (fun k => String (ascii_of_nat (97 + k)) "-uuid")
        vendor_down true unicode_python.

(** [n] times the character [c]. *)
Fixpoint repeat_char (c : ascii) (n : nat) : string :=
  match n with
  | O => EmptyString
  | S n' => String c (repeat_char c n')
  end.


Definition empty_world : World := mkWorld [] [] [] 1 1 [] [] 0.

(** [PRecord] with the fields of a vendor guest. *)
Definition vendor_guest (name phone country : pyval) : pyval :=
  PRecord [("Name", name); ("Phone", phone); ("Country", country)].

(** [PRecord] with the fields of a vendor stay. *)
Definition vendor_stay (hotel reservation guest status : string) : pyval :=
  PRecord [("HotelId", PStr hotel); ("ReservationId", PStr reservation);
           ("GuestId", PStr guest); ("Status", PStr status);
           ("CheckInDate", PStr "2024-01-02"); ("CheckOutDate", PStr "2024-01-05")].

(** A world with one hotel, and the vendor stay that names it. *)
Definition hotel_world : World :=
  mkWorld [Hotel.Build 1 (PStr "H-1")] [] [] 1 1 [] [] 0.

Definition stay_R1 : pyval := vendor_stay "H-1" "R-1" "G-1" "confirmed".

(** JSON texts are written with single quotes below; [json_quotes] puts
    the double quotes in. *)
Fixpoint json_quotes (s : string) : string :=
  match s with
  | EmptyString => EmptyString
  | String c rest =>
      String (if Ascii.eqb c "'" then dquote else c) (json_quotes rest)
  end.

(** A vendor that is up: it knows the reservations R-1, of hotel H-1, and
    R-2, of a hotel H-404 that no [Hotel] row carries, and their guests. *)
Definition vendor_up : endpoint -> pyval -> nat -> result string :=
  fun request parameters _ =>
    match request with
    | get_reservation_details =>
        if eq_str parameters "R-1" then
          inr (json_quotes "{'HotelId': 'H-1', 'ReservationId': 'R-1', 'GuestId': 'G-1', 'Status': 'confirmed', 'CheckInDate': '2024-01-02', 'CheckOutDate': '2024-01-05', 'BreakfastIncluded': true}")
        else if eq_str parameters "R-2" then
          inr (json_quotes "{'HotelId': 'H-404', 'ReservationId': 'R-2', 'GuestId': 'G-2', 'Status': 'confirmed', 'CheckInDate': '2024-01-03', 'CheckOutDate': '2024-01-04', 'BreakfastIncluded': false}")
        else inr "no such reservation"
    | get_guest_details =>
        if eq_str parameters "G-1" then
          inr (json_quotes "{'Name': 'Ada', 'Phone': '+31 6 1234', 'Country': 'NL'}")
        else if eq_str parameters "G-2" then
          inr (json_quotes "{'Name': 'Grace', 'Phone': 'Not available', 'Country': null}")
        else inr "no such guest"
    | get_reservations_for_given_checkin_date => inr "[]"
    end.

Definition vendor_env (json_value_error_is_value_error : bool) : Env :=
  mkEnv sample_choices 1700000000 (fun k => String (ascii_of_nat (97 + k)) "-uuid")
        vendor_up json_value_error_is_value_error sample_python.

(** Webhook bodies with two events: the known hotel's reservation first,
    and the unknown hotel's first. *)
Definition webhook_known_first : string :=
  json_quotes "{'HotelId': 'H-1', 'IntegrationId': 'I-1', 'Events': [{'Name': 'ReservationUpdated', 'Value': {'ReservationId': 'R-1'}}, {'Name': 'ReservationUpdated', 'Value': {'ReservationId': 'R-2'}}]}".

Definition webhook_unknown_first : string :=
  json_quotes "{'HotelId': 'H-1', 'IntegrationId': 'I-1', 'Events': [{'Name': 'ReservationUpdated', 'Value': {'ReservationId': 'R-2'}}, {'Name': 'ReservationUpdated', 'Value': {'ReservationId': 'R-1'}}]}".

(** A vendor that fails three calls, then answers with an empty body. *)
Definition vendor_flaky : endpoint -> pyval -> nat -> result string :=
  fun _ _ k => if (k <? 3)%nat then inl (APIError "busy") else inr "".

Definition flaky_env : Env :=
  mkEnv sample_choices 1700000000 (fun k => String (ascii_of_nat (97 + k)) "-uuid")
        vendor_flaky true sample_python.

(** The store and the placeholder count are as before; [calls] more
    calls have been recorded and [errors] more lines printed. *)
Definition after_calls (calls errors : nat) (request : endpoint) (parameters : pyval)
  (w w' : World) : Prop :=
  api_calls w' = (api_calls w ++ repeat (request, parameters) calls)%list /\
  List.length (stdout w') = (List.length (stdout w) + errors)%nat /\
  Hotels w' = Hotels w /\ Guests w' = Guests w /\ Stays w' = Stays w /\
  next_guest_id w' = next_guest_id w /\ next_stay_id w' = next_stay_id w /\
  uuids_drawn w' = uuids_drawn w.




(** ** Statements about the store *)

(** The calls of [update_or_create_stay] on a list of vendor stays with
    their guest ids, one after the other, whatever each raises. *)
Fixpoint reconcile_stays (env : Env) (stays : list (pyval * option Z)) (w : World)
  : World :=
  match stays with
  | [] => w
  | (stay, guest_id) :: rest =>
      reconcile_stays env rest (snd (update_or_create_stay env stay guest_id w))
  end.

(** At most one [Stay] row per vendor reservation id. *)
Definition one_stay_per_reservation (w : World) : Prop :=
  forall key, (List.length (filter (stay_matches key) (Stays w)) <= 1)%nat.

(** The three tables and the id counters of two worlds agree. *)
Definition same_store (w w' : World) : Prop :=
  Hotels w' = Hotels w /\ Guests w' = Guests w /\ Stays w' = Stays w /\
  next_guest_id w' = next_guest_id w /\ next_stay_id w' = next_stay_id w.

(** No row has gone and none has a new id: the ids of the old rows, in
    their order, start the ids of the new ones. *)
Definition keeps_rows (old new : list Z) : Prop :=
  exists added, new = (old ++ added)%list.

(** A vendor stay that carries the six fields [update_or_create_stay]
    reads. *)
Definition stay_fields (stay hotel key guest status checkin checkout : pyval) : Prop :=
  get_attr stay "HotelId" = inr hotel /\
  get_attr stay "ReservationId" = inr key /\
  get_attr stay "GuestId" = inr guest /\
  get_attr stay "Status" = inr status /\
  get_attr stay "CheckInDate" = inr checkin /\
  get_attr stay "CheckOutDate" = inr checkout.

(** A vendor guest that carries the three fields
    [update_or_create_guest] reads. *)
Definition guest_fields (guest name phone country : pyval) : Prop :=
  get_attr guest "Name" = inr name /\
  get_attr guest "Phone" = inr phone /\
  get_attr guest "Country" = inr country.

(** The name stored for a vendor name [n]: the name itself, or for a
    falsy one the next placeholder. *)
Definition stored_name (env : Env) (n : pyval) (w : World) : pyval :=
  if truthy n then n else PStr (uuid4 env (uuids_drawn w)).

(** The count of placeholders drawn once the name has been chosen. *)
Definition drawn_after (n : pyval) (w : World) : nat :=
  if truthy n then uuids_drawn w else S (uuids_drawn w).

Definition set_uuids_drawn (k : nat) (w : World) : World :=
  mkWorld (Hotels w) (Guests w) (Stays w) (next_guest_id w) (next_stay_id w)
          (api_calls w) (stdout w) k.

(** A vendor that knows one reservation for every check-in date, and a
    guest without a name. *)
Definition vendor_daily : endpoint -> pyval -> nat -> result string :=
  fun request parameters _ =>
    match request with
    | get_reservations_for_given_checkin_date =>
        inr (json_quotes "[{'HotelId': 'H-1', 'ReservationId': 'R-7', 'GuestId': 'G-7', 'Status': 'confirmed', 'CheckInDate': '2024-03-01', 'CheckOutDate': '2024-03-02'}]")
    | get_guest_details =>
        inr (json_quotes "{'Name': '', 'Phone': '+44 20 7946', 'Country': 'DE'}")
    | get_reservation_details =>
        inr (json_quotes "{'ReservationId': 'R-7', 'BreakfastIncluded': true}")
    end.

Definition daily_env : Env :=
  mkEnv sample_choices 1700000000 (fun k => String (ascii_of_nat (97 + k)) "-uuid")
        vendor_daily true sample_python.

(** ** What a run may change *)

(** The errors [update_or_create_stay] can raise. *)
Definition stay_error (e : exn) : Prop :=
  e = AttributeError \/ e = DoesNotExist \/ e = MultipleObjectsReturned \/
  e = IncorrectHotelIdException "Hotel ID not found".

(** The call log of [w'] starts with the call log of [w]. *)
Definition log_grows (w w' : World) : Prop :=
  exists more, api_calls w' = (api_calls w ++ more)%list.

(** From [w] to [w']: the [Hotel] table is the same, no [Guest] or [Stay]
    row has gone or changed its id, the call log has only grown, and the
    one-row-per-key invariants hold after if they held before. *)
Definition evolves (w w' : World) : Prop :=
  Hotels w' = Hotels w /\
  log_grows w w' /\
  keeps_rows (map Guest.id (Guests w)) (map Guest.id (Guests w')) /\
  keeps_rows (map Stay.id (Stays w)) (map Stay.id (Stays w')) /\
  (one_guest_per_phone w -> one_guest_per_phone w') /\
  (one_stay_per_reservation w -> one_stay_per_reservation w').

(** A computation every run of which evolves the world. *)
Definition evolving {A} (m : M A) : Prop := forall w, evolves w (snd (m w)).


Ltac break_match :=
  match goal with
  | H : context [match ?x with _ => _ end] |- _ => destruct x eqn:?
  | H : context [if ?x then _ else _] |- _ => destruct x eqn:?
  end.

(** * Properties *)

(** ** Exact match is equality *)

Lemma pyval_eqb_refl : forall v, pyval_eqb v v = true.
Proof.
  induction v as [| b | z | m e | b | | s | items IH | fields IH] using pyval_nested_ind;
    simpl; auto.
  - apply Bool.eqb_reflx.
  - apply Z.eqb_refl.
  - now rewrite !Z.eqb_refl.
  - apply Bool.eqb_reflx.
  - apply String.eqb_refl.
  - induction IH as [| x r Hx _ IHr]; auto.
    now rewrite Hx, IHr.
  - induction IH as [| [k x] r Hx _ IHr]; auto.
    simpl in Hx. now rewrite String.eqb_refl, Hx, IHr.
Qed.

Lemma pyval_eqb_eq : forall a b, pyval_eqb a b = true -> a = b.
Proof.
  induction a as [| x | x | m e | x | | s | items IH | fields IH] using pyval_nested_ind;
    intros [| y | y | m' e' | y | | t | items' | fields']; simpl; try discriminate; auto.
  - intros H. apply Bool.eqb_prop in H. now subst.
  - intros H. apply Z.eqb_eq in H. now subst.
  - intros H. apply andb_prop in H as [H1 H2].
    apply Z.eqb_eq in H1, H2. now subst.
  - intros H. apply Bool.eqb_prop in H. now subst.
  - intros H. apply String.eqb_eq in H. now subst.
  - intros H. f_equal. revert items' H.
    induction IH as [| x r Hx _ IHr]; intros [| y r']; try discriminate; auto.
    intros H. apply andb_prop in H as [H1 H2].
    f_equal; auto.
  - intros H. f_equal. revert fields' H.
    induction IH as [| [k x] r Hx _ IHr]; intros [| [k' y] r']; try discriminate; auto.
    intros H. apply andb_prop in H as [H1 H2]. apply andb_prop in H1 as [H0 H1].
    apply String.eqb_eq in H0. simpl in Hx. apply Hx in H1. subst.
    f_equal; auto.
Qed.

Lemma pyval_eqb_spec : forall a b, pyval_eqb a b = true <-> a = b.
Proof.
  split; [apply pyval_eqb_eq | intros ->; apply pyval_eqb_refl].
Qed.

(** ** get_guest_language *)



Lemma language_choice_total : forall env choices s,
  exists label, language_choice env choices (PStr s) = inr label.
Proof.
  intros env. induction choices as [| [code label] rest IH]; intros s; simpl; eauto.
  destruct (code =? lower (python env) s)%string; eauto.
Qed.

Lemma lower_char_idempotent : forall c, lower_char (lower_char c) = lower_char c.
Proof.
  intros c. unfold lower_char.
  destruct ((65 <=? nat_of_ascii c) && (nat_of_ascii c <=? 90))%nat eqn:E.
  - apply andb_prop in E as [E1 E2].
    apply Nat.leb_le in E1, E2.
    rewrite nat_ascii_embedding by lia.
    replace ((65 <=? nat_of_ascii c + 32) && (nat_of_ascii c + 32 <=? 90))%nat with false; auto.
    symmetry. apply andb_false_iff. right. apply Nat.leb_gt. lia.
  - now rewrite E.
Qed.

Lemma ascii_lower_idempotent : forall s, ascii_lower (ascii_lower s) = ascii_lower s.
Proof.
  induction s as [| c r IH]; simpl; auto.
  now rewrite lower_char_idempotent, IH.
Qed.


Lemma get_guest_language_total : forall env country,
  country_code country -> exists label, get_guest_language env country = inr label.
Proof.
  intros env country [-> | [s ->]]; unfold get_guest_language.
  - simpl. eauto.
  - destruct (negb (truthy (PStr s))); eauto using language_choice_total.
Qed.



(** The condition on the table is needed. A table with the entry en-GB
    does not resolve the country code en-GB, which matches the entry
    identically and so under any comparison of case: the lower-cased
    input en-gb is compared with the entry as it is written. *)
Lemma get_guest_language_mixed_case_entry :
  In ("en-GB", "British English") (Language_choices sample_env) /\
  get_guest_language sample_env (PStr "en-GB") = inr "None".
Proof.
  split.
  - simpl. auto.
  - reflexivity.
Qed.

(** ** update_or_create_guest *)

(** C5. A vendor guest whose phone number is empty, absent or the text
    "Not available" gets no row: [update_or_create_guest] returns [None]
    and leaves the store, and all else, as it was. *)
Theorem update_or_create_guest_without_phone :
  forall env guest country phone w,
    get_attr guest "Country" = inr country ->
    country_code country ->
    get_attr guest "Phone" = inr phone ->
    no_usable_phone phone ->
    update_or_create_guest env guest w = (inr None, w).
Proof.
  intros env guest country phone w HC Hcc HP Hphone.
  destruct (get_guest_language_total env country Hcc) as [language HL].
  unfold update_or_create_guest, bind, lift. rewrite HC, HL, HP.
  destruct Hphone as [H | ->].
  - now rewrite H.
  - reflexivity.
Qed.

Lemma update_or_create_guest_without_phone_witness :
  update_or_create_guest sample_env
    (vendor_guest (PStr "Ada") (PStr "Not available") (PStr "NL")) empty_world
  = (inr None, empty_world)
  /\ update_or_create_guest sample_env
       (vendor_guest (PStr "Ada") PNone PNone) empty_world
     = (inr None, empty_world).
Proof.
  split.
  - apply (update_or_create_guest_without_phone sample_env _ (PStr "NL")
             (PStr "Not available")).
    + reflexivity.
    + right. now exists "NL".
    + reflexivity.
    + right. reflexivity.
  - apply (update_or_create_guest_without_phone sample_env _ PNone PNone).
    + reflexivity.
    + left. reflexivity.
    + reflexivity.
    + left. reflexivity.
Defined.

(** ** update_or_create_stay *)

(** C1, as the code has it. For a vendor stay whose hotel id matches no
    [Hotel] row, whatever the guest id, [update_or_create_stay] leaves
    the store unchanged, but what it raises is the [DoesNotExist] of
    [Hotel.objects.all().get(...)]: the guard that raises
    [IncorrectHotelIdException] is never reached. *)
Theorem update_or_create_stay_unknown_hotel :
  forall env stay guest_id pms_hotel_id w,
    get_attr stay "HotelId" = inr pms_hotel_id ->
    filter (hotel_matches pms_hotel_id) (Hotels w) = [] ->
    update_or_create_stay env stay guest_id w = (inl DoesNotExist, w).
Proof.
  intros env stay guest_id pms_hotel_id w HH Hnone.
  unfold update_or_create_stay, bind, lift, hotels_by_pms_id.
  now rewrite HH, Hnone.
Qed.

Lemma update_or_create_stay_unknown_hotel_witness :
  update_or_create_stay sample_env (vendor_stay "H-404" "R-1" "G-1" "confirmed") (Some 7)
                        empty_world
  = (inl DoesNotExist, empty_world).
Proof.
  apply (update_or_create_stay_unknown_hotel sample_env _ (Some 7) (PStr "H-404")).
  - reflexivity.
  - reflexivity.
Defined.

Lemma get_attr_error : forall v name e, get_attr v name = inl e -> e = AttributeError.
Proof.
  intros v name e H. unfold get_attr in H.
  destruct v; try (inversion H; reflexivity).
  destruct (assoc name fields); inversion H; reflexivity.
Qed.

(** The guard of [update_or_create_stay] fires only for a hotel that is
    found, under an id that is zero. *)
Lemma update_or_create_stay_guard : forall env stay guest_id w msg w',
  update_or_create_stay env stay guest_id w = (inl (IncorrectHotelIdException msg), w') ->
  exists pms_hotel_id hotel,
    get_attr stay "HotelId" = inr pms_hotel_id /\
    filter (hotel_matches pms_hotel_id) (Hotels w) = [hotel] /\
    Hotel.id hotel = 0.
Proof.
  intros env stay guest_id w msg w' H.
  unfold update_or_create_stay, bind, lift, hotels_by_pms_id, stays_by_reservation,
    raise in H.
  destruct (get_attr stay "HotelId") as [e | pms_hotel_id] eqn:HH;
    [apply get_attr_error in HH; subst; discriminate |].
  destruct (filter (hotel_matches pms_hotel_id) (Hotels w)) as [| hotel [| h2 rest]] eqn:E;
    cbn [get_one] in H; try discriminate.
  exists pms_hotel_id, hotel.
  destruct (Hotel.id hotel =? 0) eqn:Hid.
  - apply Z.eqb_eq in Hid. auto.
  - exfalso.
    repeat match type of H with
           | context [get_attr stay ?n] =>
               let E := fresh "E" in
               destruct (get_attr stay n) eqn:E;
               [apply get_attr_error in E; subst;
                first [discriminate | destruct (exists_ (filter _ _)); discriminate] |]
           end.
    destruct (exists_ (filter _ _)); unfold save_stay in H; discriminate.
Qed.

Lemma update_stay_matches : forall env key hotel_id guest guest_id status checkin checkout s,
  stay_matches key
    (update_stay env key hotel_id key guest guest_id status checkin checkout s)
  = stay_matches key s.
Proof.
  intros. unfold update_stay.
  destruct (stay_matches key s) eqn:E; auto.
  unfold stay_matches. simpl. apply pyval_eqb_refl.
Qed.

Lemma update_stay_idempotent : forall env key hotel_id guest guest_id status checkin checkout s,
  let f := update_stay env key hotel_id key guest guest_id status checkin checkout in
  f (f s) = f s.
Proof.
  intros. subst f. unfold update_stay at 2 3.
  destruct (stay_matches key s) eqn:E.
  - unfold update_stay, stay_matches. simpl. now rewrite pyval_eqb_refl.
  - unfold update_stay. now rewrite E.
Qed.

Lemma filter_map_same : forall (A : Type) (p : A -> bool) (f : A -> A) (l : list A),
  (forall x, p (f x) = p x) ->
  filter p (map f l) = map f (filter p l).
Proof.
  intros A p f l H. induction l as [| x r IH]; simpl; auto.
  rewrite H. destruct (p x); simpl; now rewrite IH.
Qed.

Lemma exists_filter_map : forall (A : Type) (p : A -> bool) (f : A -> A) (l : list A),
  (forall x, p (f x) = p x) ->
  exists_ (filter p (map f l)) = exists_ (filter p l).
Proof.
  intros A p f l H. rewrite filter_map_same by assumption.
  now destruct (filter p l).
Qed.

(** C4, as the code has it. Once a [Stay] row for the reservation
    exists, reconciling the same vendor stay again keeps the number of
    its rows and every field the vendor supplies, and stamps
    [updated_at] with [now], the time the module was imported. A further
    identical reconciliation therefore changes nothing at all: the world
    it leaves, [updated_at] included, is the world it found. The
    timestamp does not advance between the two. *)
Theorem update_or_create_stay_again :
  forall env stay guest_id key w w1,
    get_attr stay "ReservationId" = inr key ->
    filter (stay_matches key) (Stays w) <> [] ->
    update_or_create_stay env stay guest_id w = (inr tt, w1) ->
    update_or_create_stay env stay guest_id w1 = (inr tt, w1) /\
    List.length (filter (stay_matches key) (Stays w1))
    = List.length (filter (stay_matches key) (Stays w)) /\
    Forall (fun s => Stay.updated_at s = Some (now env))
           (filter (stay_matches key) (Stays w1)).
Proof.
  intros env stay guest_id key w w1 HK Hrows Hrun.
  unfold update_or_create_stay, bind, lift, hotels_by_pms_id, stays_by_reservation,
    raise in *.
  destruct (get_attr stay "HotelId") as [e | pms_hotel_id]; [discriminate |].
  rewrite HK in *.
  destruct (get_one (filter (hotel_matches pms_hotel_id) (Hotels w))) as [e | hotel] eqn:Hhotel;
    [discriminate |].
  destruct (Hotel.id hotel =? 0) eqn:Hid; [discriminate |].
  destruct (filter (stay_matches key) (Stays w)) as [| s0 rest] eqn:Hfilter;
    [contradiction |].
  cbn [exists_] in Hrun.
  destruct (get_attr stay "GuestId") as [e | guest]; [discriminate |].
  destruct (get_attr stay "Status") as [e | status]; [discriminate |].
  destruct (get_attr stay "CheckInDate") as [e | checkin]; [discriminate |].
  destruct (get_attr stay "CheckOutDate") as [e | checkout]; [discriminate |].
  injection Hrun as <-.
  set (f := update_stay env key (Hotel.id hotel) key guest guest_id status checkin checkout).
  assert (Hf : forall x, stay_matches key (f x) = stay_matches key x)
    by (intros x; apply update_stay_matches).
  change (Hotels (set_Stays (map f (Stays w)) w)) with (Hotels w).
  change (Stays (set_Stays (map f (Stays w)) w)) with (map f (Stays w)).
  rewrite Hhotel, Hid, !(filter_map_same _ _ f _ Hf), Hfilter.
  repeat split.
  - cbn [map exists_]. unfold set_Stays.
    cbn [Hotels Guests Stays next_guest_id next_stay_id api_calls stdout uuids_drawn].
    rewrite (filter_map_same _ _ f _ Hf), Hfilter. cbn [map exists_]. cbv beta.
    cbn [Hotels Guests Stays next_guest_id next_stay_id api_calls stdout uuids_drawn].
    fold f. rewrite map_map. f_equal. f_equal. apply map_ext.
    intros x. apply update_stay_idempotent.
  - now rewrite length_map.
  - rewrite <- Hfilter. apply Forall_forall. intros x Hx.
    apply in_map_iff in Hx as [y [<- Hy]].
    apply filter_In in Hy as [_ Hy].
    subst f. unfold update_stay. now rewrite Hy.
Qed.

Lemma update_or_create_stay_again_witness :
  let w := snd (update_or_create_stay sample_env stay_R1 (Some 1) hotel_world) in
  let w1 := snd (update_or_create_stay sample_env stay_R1 (Some 1) w) in
  update_or_create_stay sample_env stay_R1 (Some 1) w1 = (inr tt, w1) /\
  List.length (filter (stay_matches (PStr "R-1")) (Stays w1))
  = List.length (filter (stay_matches (PStr "R-1")) (Stays w)) /\
  Forall (fun s => Stay.updated_at s = Some (now sample_env))
         (filter (stay_matches (PStr "R-1")) (Stays w1)).
Proof.
  apply (update_or_create_stay_again sample_env stay_R1 (Some 1) (PStr "R-1")).
  - reflexivity.
  - vm_compute. discriminate.
  - reflexivity.
Defined.

(** The same vendor stay reconciled three times from its first sighting:
    the first call creates the row with [created_at = now] and no
    [updated_at]; the second and the third both leave
    [updated_at = now], the import time that [created_at] holds too. *)
Lemma update_or_create_stay_three_times :
  let run := update_or_create_stay sample_env stay_R1 (Some 1) in
  let w1 := snd (run hotel_world) in
  let w2 := snd (run w1) in
  let w3 := snd (run w2) in
  map (fun s => (Stay.created_at s, Stay.updated_at s)) (Stays w1)
  = [(Some (now sample_env), None)] /\
  map (fun s => (Stay.created_at s, Stay.updated_at s)) (Stays w2)
  = [(Some (now sample_env), Some (now sample_env))] /\
  w3 = w2.
Proof.
  vm_compute. auto.
Qed.

(** ** One guest per phone number *)

Lemma update_guest_matches : forall env phone name language q g,
  guest_matches q (update_guest env phone name language g) = guest_matches q g.
Proof.
  intros. unfold update_guest.
  destruct (guest_matches phone g) eqn:E; auto.
  unfold guest_matches in *. simpl.
  apply pyval_eqb_eq in E. now rewrite E.
Qed.

Lemma eq_str_false : forall v s, v <> PStr s -> eq_str v s = false.
Proof.
  intros v s H. destruct v; simpl; auto.
  destruct (String.eqb_spec s0 s); auto. subst. contradiction.
Qed.

(** [guest_name] touches nothing but the count of placeholders drawn,
    and yields the vendor's name when there is one. *)
Lemma guest_name_cases : forall env guest w,
  (exists e, guest_name env guest w = (inl e, w)) \/
  (exists nm w',
      guest_name env guest w = (inr nm, w') /\
      Guests w' = Guests w /\ next_guest_id w' = next_guest_id w /\
      Hotels w' = Hotels w /\ Stays w' = Stays w /\
      (forall n, get_attr guest "Name" = inr n -> truthy n = true -> nm = n)).
Proof.
  intros env guest w. unfold guest_name, bind, lift.
  destruct (get_attr guest "Name") as [e | n]; [left; eauto |].
  right. destruct (truthy n) eqn:T; cbn [negb].
  - exists n, w. repeat split; auto. intros n' E _. now inversion E.
  - eexists _, _. repeat split. intros n' E T'. inversion E; subst. congruence.
Qed.

(** What a call can do to the [Guest] table: nothing, an update of the
    rows of one phone number, or one new row for a phone number that had
    none. *)
Lemma update_or_create_guest_Guests : forall env guest w,
  let w' := snd (update_or_create_guest env guest w) in
  Guests w' = Guests w \/
  (exists phone name language,
      Guests w' = map (update_guest env phone name language) (Guests w)) \/
  (exists phone name language id,
      filter (guest_matches phone) (Guests w) = [] /\
      Guests w' = (Guests w ++ [Guest.Build id name phone language
                                            (Some (now env)) None])%list).
Proof.
  intros env guest w.
  unfold update_or_create_guest, bind, lift, ret, guests_by_phone, save_guest.
  destruct (get_attr guest "Country") as [e | country]; [now left |].
  destruct (get_guest_language env country) as [e | language]; [now left |].
  destruct (get_attr guest "Phone") as [e | phone]; [now left |].
  destruct (negb (truthy phone) || eq_str phone "Not available"); [now left |].
  cbv beta iota.
  destruct (guest_name_cases env guest w)
    as [[e Hname] | (nm & w0 & Hname & HG & Hid & _)].
  - destruct (exists_ _); rewrite Hname; now left.
  - destruct (filter (guest_matches phone) (Guests w)) as [| g0 rest] eqn:Hrows;
      cbn [exists_]; rewrite Hname; cbv beta iota.
    + right. right. exists phone, nm, language, (next_guest_id w0).
      split; [assumption |].
      cbn [Guests]. destruct (negb (exists_ _)); cbn [snd Guests].
      * now rewrite HG.
      * destruct (get_one _); cbn [snd Guests]; now rewrite HG.
    + right. left. exists phone, nm, language.
      cbn [Guests set_Guests]. destruct (get_one _); cbn [snd Guests]; now rewrite HG.
Qed.

Lemma update_or_create_guest_keeps_invariant : forall env guest w,
  one_guest_per_phone w ->
  one_guest_per_phone (snd (update_or_create_guest env guest w)).
Proof.
  intros env guest w H q.
  destruct (update_or_create_guest_Guests env guest w)
    as [E | [(p & n & l & E) | (p & n & l & id & Hnone & E)]]; rewrite E.
  - apply H.
  - rewrite filter_map_same by (intros; apply update_guest_matches).
    rewrite length_map. apply H.
  - rewrite filter_app, length_app. cbn [filter]. unfold guest_matches at 2.
    cbn [Guest.phone].
    destruct (pyval_eqb p q) eqn:Epq; cbn [List.length].
    + apply pyval_eqb_eq in Epq. subst q. rewrite Hnone. simpl. lia.
    + specialize (H q). lia.
Qed.

Lemma reconcile_guests_keeps_invariant : forall env guests w,
  one_guest_per_phone w -> one_guest_per_phone (reconcile_guests env guests w).
Proof.
  intros env guests. induction guests as [| guest rest IH]; intros w H; simpl; auto.
  apply IH. now apply update_or_create_guest_keeps_invariant.
Qed.

(** A reconciliation that goes through leaves exactly one row for the
    phone number, under the vendor's name, and returns its id. *)
Lemma update_or_create_guest_named : forall env guest country phone n w,
  one_guest_per_phone w ->
  get_attr guest "Country" = inr country -> country_code country ->
  get_attr guest "Phone" = inr phone -> usable_phone phone ->
  get_attr guest "Name" = inr n -> truthy n = true ->
  exists g,
    fst (update_or_create_guest env guest w) = inr (Some (Guest.id g)) /\
    filter (guest_matches phone) (Guests (snd (update_or_create_guest env guest w))) = [g] /\
    Guest.name g = n /\ Guest.phone g = phone.
Proof.
  intros env guest country phone n w Hinv HC Hcc HP [Ht Hs] HN Hn.
  destruct (get_guest_language_total env country Hcc) as [language HL].
  unfold update_or_create_guest, bind, lift, ret, guests_by_phone, save_guest.
  rewrite HC, HL, HP, Ht, (eq_str_false _ _ Hs). cbn [negb orb]. cbv beta iota.
  destruct (guest_name_cases env guest w)
    as [[e Hname] | (nm & w0 & Hname & HG & Hid & _ & _ & Hnm)].
  - unfold guest_name, bind, lift in Hname. rewrite HN, Hn in Hname.
    cbn [negb] in Hname. discriminate.
  - rewrite (Hnm n HN Hn) in Hname. clear Hnm nm.
    pose proof (Hinv phone) as Hone.
    destruct (filter (guest_matches phone) (Guests w)) as [| g0 [| g1 rest]] eqn:Hrows;
      cbn [exists_]; rewrite Hname; cbv beta iota.
    + assert (Hnew : forall id,
                 filter (guest_matches phone)
                   (Guests w ++ [Guest.Build id n phone language (Some (now env)) None])
                 = [Guest.Build id n phone language (Some (now env)) None]).
      { intros id. rewrite filter_app, Hrows. cbn [filter app].
        unfold guest_matches. cbn [Guest.phone]. now rewrite pyval_eqb_refl. }
      eexists.
      repeat (cbn [Guests exists_ negb get_one fst snd]; cbv beta iota;
              rewrite ?HG, ?Hnew).
      split; [| split; [reflexivity | split; reflexivity]]. reflexivity.
    + assert (Hm : guest_matches phone g0 = true).
      { assert (Hin : In g0 (filter (guest_matches phone) (Guests w)))
          by (rewrite Hrows; simpl; auto).
        now apply filter_In in Hin. }
      assert (Hupd : forall nm lg,
                 filter (guest_matches phone)
                   (map (update_guest env phone nm lg) (Guests w))
                 = [Guest.Build (Guest.id g0) nm phone lg (Guest.created_at g0)
                                (Some (now env))]).
      { intros nm lg.
        rewrite filter_map_same by (intros; apply update_guest_matches).
        rewrite Hrows. cbn [map]. unfold update_guest. now rewrite Hm. }
      eexists.
      repeat (cbn [Guests set_Guests exists_ negb get_one fst snd]; cbv beta iota;
              rewrite ?HG, ?Hupd).
      split; [| split; [reflexivity | split; reflexivity]]. reflexivity.
    + simpl in Hone. lia.
Qed.

(** C6. Whatever sequence of [update_or_create_guest] calls is made on a
    store with at most one [Guest] row per phone number (the empty store
    is one), the store it leaves has at most one row per phone number.
    In particular two vendor guests with the same usable phone number,
    reconciled one after the other, leave exactly one row for that
    number, named as the first after the first call and as the second
    after the second. *)
Theorem one_guest_per_phone_number : forall env,
  (forall guests w,
      one_guest_per_phone w -> one_guest_per_phone (reconcile_guests env guests w)) /\
  (forall w g1 g2 phone n1 n2 c1 c2,
      one_guest_per_phone w ->
      get_attr g1 "Phone" = inr phone -> get_attr g2 "Phone" = inr phone ->
      usable_phone phone ->
      get_attr g1 "Name" = inr n1 -> truthy n1 = true ->
      get_attr g2 "Name" = inr n2 -> truthy n2 = true ->
      get_attr g1 "Country" = inr c1 -> country_code c1 ->
      get_attr g2 "Country" = inr c2 -> country_code c2 ->
      exists a b,
        filter (guest_matches phone) (Guests (reconcile_guests env [g1] w)) = [a] /\
        Guest.name a = n1 /\
        filter (guest_matches phone) (Guests (reconcile_guests env [g1; g2] w)) = [b] /\
        Guest.name b = n2).
Proof.
  intros env. split.
  - apply reconcile_guests_keeps_invariant.
  - intros w g1 g2 phone n1 n2 c1 c2 Hinv HP1 HP2 Hphone HN1 Ht1 HN2 Ht2 HC1 Hc1 HC2 Hc2.
    cbn [reconcile_guests].
    destruct (update_or_create_guest_named env g1 c1 phone n1 w Hinv HC1 Hc1 HP1 Hphone HN1 Ht1)
      as (a & _ & Ha & Hna & _).
    pose proof (update_or_create_guest_keeps_invariant env g1 w Hinv) as Hinv1.
    destruct (update_or_create_guest_named env g2 c2 phone n2 _ Hinv1 HC2 Hc2 HP2 Hphone HN2 Ht2)
      as (b & _ & Hb & Hnb & _).
    exists a, b. auto.
Qed.

Lemma one_guest_per_phone_number_witness :
  one_guest_per_phone
    (reconcile_guests sample_env
       [vendor_guest (PStr "Ada") (PStr "+31 6 1234") (PStr "NL");
        vendor_guest (PStr "") (PStr "+31 6 1234") (PStr "NL");
        PInt 3] empty_world) /\
  exists a b,
    filter (guest_matches (PStr "+31 6 1234"))
      (Guests (reconcile_guests sample_env
                 [vendor_guest (PStr "Ada") (PStr "+31 6 1234") (PStr "NL")] empty_world))
    = [a] /\
    Guest.name a = PStr "Ada" /\
    filter (guest_matches (PStr "+31 6 1234"))
      (Guests (reconcile_guests sample_env
                 [vendor_guest (PStr "Ada") (PStr "+31 6 1234") (PStr "NL");
                  vendor_guest (PStr "Grace") (PStr "+31 6 1234") PNone] empty_world))
    = [b] /\
    Guest.name b = PStr "Grace".
Proof.
  assert (Hempty : one_guest_per_phone empty_world)
    by (intros phone; simpl; lia).
  destruct (one_guest_per_phone_number sample_env) as [Hseq Hpair].
  split.
  - apply Hseq. exact Hempty.
  - apply (Hpair empty_world _ _ (PStr "+31 6 1234") (PStr "Ada") (PStr "Grace")
                 (PStr "NL") PNone); try reflexivity; try exact Hempty.
    + split; [reflexivity | discriminate].
    + right. now exists "NL".
    + now left.
Defined.

(** ** What the decoder and the adapter can raise *)

(** An error of the decoder is a syntax error, an integer too long, a
    stack too deep or an error of the object hook. *)
Lemma scanner_errors :
  forall (finish : nat -> list (string * pyval) -> result pyval) (max_str_digits : nat)
         (room : nat -> bool) (P : exn -> Prop),
    P JSONDecodeError -> P ValueError -> P RecursionError ->
    (forall level pairs e, finish level pairs = inl e -> P e) ->
    forall fuel,
      (forall level s e, scan_once finish max_str_digits room fuel level s = inl e -> P e) /\
      (forall level s pairs e,
          JSONObject finish max_str_digits room fuel level s pairs = inl e -> P e) /\
      (forall level s items e,
          JSONArray finish max_str_digits room fuel level s items = inl e -> P e).
Proof.
  intros finish max_str_digits room P HJ HV HR HF.
  induction fuel as [| fuel (IHs & IHo & IHa)].
  - repeat split; intros; simpl in *; congruence.
  - repeat split.
    + intros level s e H. cbn [scan_once] in H.
      repeat break_match; try congruence; eauto;
        try (inversion H; subst; eauto).
    + intros level s pairs e H. cbn [JSONObject] in H.
      repeat break_match; try congruence; eauto;
        try (inversion H; subst; eauto).
    + intros level s items e H. cbn [JSONArray] in H.
      repeat break_match; try congruence; eauto;
        try (inversion H; subst; eauto).
Qed.

Lemma decode_errors :
  forall (finish : nat -> list (string * pyval) -> result pyval) (max_str_digits : nat)
         (room : nat -> bool) (P : exn -> Prop),
    P JSONDecodeError -> P ValueError -> P RecursionError ->
    (forall level pairs e, finish level pairs = inl e -> P e) ->
    forall s e, decode finish max_str_digits room s = inl e -> P e.
Proof.
  intros finish max_str_digits room P HJ HV HR HF s e H. unfold decode in H.
  destruct (scan_once finish max_str_digits room (S (2 * String.length s)) 0
              (skip_whitespace s)) as [e' | [obj rest]] eqn:E.
  - inversion H; subst.
    eapply (proj1 (scanner_errors finish max_str_digits room P HJ HV HR HF _)); eauto.
  - destruct (skip_whitespace rest); congruence.
Qed.

Lemma hook_errors : forall py level pairs e,
  hook py level pairs = inl e ->
  e = ValueError \/ e = RecursionError \/ e = SyntaxError.
Proof.
  intros py level pairs e H. unfold hook, namedtuple_X in H.
  destruct (level <=? hook_depth py)%nat; [| inversion H; auto].
  destruct (negb _); [inversion H; auto |].
  destruct (distinct _); inversion H; auto.
Qed.

Lemma json_loads_errors : forall py payload e,
  json_loads py payload = inl e ->
  e = JSONDecodeError \/ e = ValueError \/ e = RecursionError \/ e = SyntaxError.
Proof.
  intros py payload e H.
  apply (decode_errors _ _ _
           (fun e => e = JSONDecodeError \/ e = ValueError \/ e = RecursionError \/
                     e = SyntaxError)) in H; auto.
  intros level pairs e' H'. apply hook_errors in H'. tauto.
Qed.

(** [clean_webhook_payload] raises [JsonValueError], [TypeError],
    [ValueError], [RecursionError] or [SyntaxError], never [APIError]. *)
Lemma clean_webhook_payload_errors : forall env self payload e,
  clean_webhook_payload env self payload = inl e ->
  e = JsonValueError "Incorrect json input" \/ e = TypeError \/ e = ValueError \/
  e = RecursionError \/ e = SyntaxError.
Proof.
  intros env [] payload e H. unfold clean_webhook_payload in H.
  destruct (negb (truthy (PStr payload))).
  - inversion H. auto.
  - destruct (json_loads (python env) payload) as [e' |] eqn:E; [| discriminate].
    destruct (json_loads_errors _ _ _ E) as [-> | [-> | [-> | ->]]]; inversion H; auto 6.
Qed.

Lemma pms_clean_not_APIError : forall env pms raw e,
  pms_clean env pms raw = inl e -> is_APIError e = false.
Proof.
  intros env [self |] raw e H; simpl in H.
  - destruct (clean_webhook_payload_errors _ _ _ _ H) as [-> | [-> | [-> | [-> | ->]]]];
      reflexivity.
  - inversion H. reflexivity.
Qed.

(** ** The fuel of the scanner *)

Lemma skip_whitespace_length : forall s, (String.length (skip_whitespace s) <= String.length s)%nat.
Proof.
  induction s as [| c r IH]; simpl; auto.
  destruct (is_whitespace c); simpl; lia.
Qed.

Lemma after_length : forall c s r, after c s = Some r -> String.length s = S (String.length r).
Proof.
  intros c [| x s] r H; simpl in H; [discriminate |].
  destruct (Ascii.eqb x c); inversion H; reflexivity.
Qed.

Lemma strip_prefix_length : forall p s r,
  strip_prefix p s = Some r -> (String.length r <= String.length s)%nat.
Proof.
  induction p as [| a p IH]; intros s r H; simpl in H.
  - inversion H. lia.
  - destruct s as [| b s]; [discriminate |].
    destruct (Ascii.eqb a b); [| discriminate].
    apply IH in H. simpl. lia.
Qed.

Lemma digits_length : forall s ds r, digits s = (ds, r) -> (String.length r <= String.length s)%nat.
Proof.
  induction s as [| c s IH]; intros ds r H; simpl in H.
  - inversion H. simpl. lia.
  - destruct (is_digit c).
    + destruct (digits s) as [ds' r'] eqn:E. inversion H; subst.
      specialize (IH _ _ eq_refl). simpl. lia.
    + inversion H. simpl. lia.
Qed.

Lemma match_number_length : forall s v n r,
  match_number s = Some (v, n, r) -> (String.length r <= String.length s)%nat.
Proof.
  intros s v n r H. unfold match_number in H.
  destruct (match_integer s) as [[[negative ds] r0] |] eqn:Hi; [| discriminate].
  assert (H0 : (String.length r0 <= String.length s)%nat).
  { unfold match_integer in Hi.
    destruct (after "-" s) as [s1 |] eqn:Hs.
    - apply after_length in Hs.
      destruct s1 as [| c s1']; [discriminate |].
      destruct (Ascii.eqb c "0"); [inversion Hi; subst; simpl in *; lia |].
      destruct (is_digit c); [| discriminate].
      destruct (digits (String c s1')) as [ds' r'] eqn:Hd.
      apply digits_length in Hd. inversion Hi; subst. lia.
    - destruct s as [| c s1']; [discriminate |].
      destruct (Ascii.eqb c "0"); [inversion Hi; subst; simpl in *; lia |].
      destruct (is_digit c); [| discriminate].
      destruct (digits (String c s1')) as [ds' r'] eqn:Hd.
      apply digits_length in Hd. inversion Hi; subst. lia. }
  destruct (match_frac r0) as [fs r1] eqn:Hf.
  assert (H1 : (String.length r1 <= String.length r0)%nat).
  { unfold match_frac in Hf.
    destruct (after "." r0) as [r' |] eqn:Ha; [| inversion Hf; lia].
    apply after_length in Ha.
    destruct (digits r') as [ds' r''] eqn:Hd. apply digits_length in Hd.
    destruct ds'; inversion Hf; subst; lia. }
  destruct (match_exp r1) as [ex r2] eqn:He.
  assert (H2 : (String.length r2 <= String.length r1)%nat).
  { unfold match_exp in He.
    destruct r1 as [| c r']; [inversion He; lia |].
    destruct (Ascii.eqb c "e" || Ascii.eqb c "E"); [| inversion He; lia].
    destruct (after "-" r') as [r'' |] eqn:Hm.
    - apply after_length in Hm.
      destruct (digits r'') as [ds' r3] eqn:Hd. apply digits_length in Hd.
      destruct ds'; inversion He; subst; simpl in *; lia.
    - destruct (after "+" r') as [r'' |] eqn:Hp.
      + apply after_length in Hp.
        destruct (digits r'') as [ds' r3] eqn:Hd. apply digits_length in Hd.
        destruct ds'; inversion He; subst; simpl in *; lia.
      + destruct (digits r') as [ds' r3] eqn:Hd. apply digits_length in Hd.
        destruct ds'; inversion He; subst; simpl in *; lia. }
  destruct fs; destruct ex; inversion H; subst; lia.
Qed.

Lemma cons_chars_some : forall p r str rest,
  cons_chars p r = Some (str, rest) -> exists str', r = Some (str', rest).
Proof.
  intros p [[str' rest'] |] str rest H; simpl in H; inversion H; eauto.
Qed.

Lemma scanstring_length : forall n s str rest,
  (String.length s <= n)%nat -> scanstring s = Some (str, rest) -> (String.length rest < String.length s)%nat.
Proof.
  induction n as [| n IH]; intros s str rest Hn H.
  - destruct s; simpl in *; [discriminate | lia].
  - destruct s as [| c r]; [discriminate |].
    cbn [scanstring] in H.
    destruct (Ascii.eqb c dquote); [inversion H; subst; simpl; lia |].
    destruct (Ascii.eqb c backslash).
    + destruct r as [| esc r1]; [discriminate |].
      destruct (Ascii.eqb esc "u").
      * destruct r1 as [| h1 [| h2 [| h3 [| h4 r2]]]]; try discriminate.
        destruct (hex4 h1 h2 h3 h4) as [uni |]; [| discriminate].
        assert (Hr2 : forall str, scanstring r2 = Some (str, rest) ->
                                  (String.length rest < String.length r2)%nat)
          by (intros; eapply IH; eauto; simpl in Hn; lia).
        destruct r2 as [| b [| u [| k1 [| k2 [| k3 [| k4 r3]]]]]];
          try (apply cons_chars_some in H as [str' H]; apply Hr2 in H; simpl in *; lia).
        destruct (is_high_surrogate uni && Ascii.eqb b backslash && Ascii.eqb u "u");
          [| apply cons_chars_some in H as [str' H]; apply Hr2 in H; simpl in *; lia].
        destruct (hex4 k1 k2 k3 k4) as [uni2 |]; [| discriminate].
        destruct (is_low_surrogate uni2);
          [| apply cons_chars_some in H as [str' H]; apply Hr2 in H; simpl in *; lia].
        apply cons_chars_some in H as [str' H].
        apply IH in H; simpl in *; lia.
      * destruct (unescape esc); [| discriminate].
        apply cons_chars_some in H as [str' H].
        apply IH in H; simpl in *; lia.
    + destruct (nat_of_ascii c <? 32)%nat; [discriminate |].
      apply cons_chars_some in H as [str' H].
      apply IH in H; simpl in *; lia.
Qed.

Section Fuel.

Variable finish : nat -> list (string * pyval) -> result pyval.
Variable max_str_digits : nat.
Variable room : nat -> bool.

Let scan := scan_once finish max_str_digits room.
Let object := JSONObject finish max_str_digits room.
Let array := JSONArray finish max_str_digits room.

(** What a run leaves unread is part of what it was given. *)
Lemma scanner_rest : forall fuel,
  (forall level s v rest,
      scan fuel level s = inr (v, rest) -> (String.length rest <= String.length s)%nat) /\
  (forall level s acc v rest,
      object fuel level s acc = inr (v, rest) ->
      (String.length rest <= String.length s)%nat) /\
  (forall level s acc v rest,
      array fuel level s acc = inr (v, rest) ->
      (String.length rest <= String.length s)%nat).
Proof.
  unfold scan, object, array.
  induction fuel as [| fuel (IHs & IHo & IHa)].
  - repeat split; intros; simpl in *; discriminate.
  - repeat split.
    + intros level s v rest H. cbn [scan_once] in H.
      destruct s as [| c r]; [discriminate |].
      pose proof (skip_whitespace_length r) as Hw.
      destruct (Ascii.eqb c dquote).
      { destruct (scanstring r) as [[str rest'] |] eqn:E; [| discriminate].
        apply (scanstring_length _ _ _ _ (Nat.le_refl _)) in E.
        inversion H; subst. simpl. lia. }
      destruct (Ascii.eqb c "{").
      { destruct (room (S level)); [| discriminate].
        destruct (after "}" (skip_whitespace r)) as [rest' |] eqn:E.
        - apply after_length in E. destruct (finish (S level) []); inversion H; subst.
          simpl. lia.
        - apply IHo in H. simpl. lia. }
      destruct (Ascii.eqb c "[").
      { destruct (room (S level)); [| discriminate].
        destruct (after "]" (skip_whitespace r)) as [rest' |] eqn:E.
        - apply after_length in E. inversion H; subst. simpl. lia.
        - apply IHa in H. simpl. lia. }
      destruct (strip_prefix "null" (String c r)) eqn:E1;
        [apply strip_prefix_length in E1; inversion H; subst; exact E1 |].
      destruct (strip_prefix "true" (String c r)) eqn:E2;
        [apply strip_prefix_length in E2; inversion H; subst; exact E2 |].
      destruct (strip_prefix "false" (String c r)) eqn:E3;
        [apply strip_prefix_length in E3; inversion H; subst; exact E3 |].
      destruct (match_number (String c r)) as [[[number n] rest'] |] eqn:E4.
      { apply match_number_length in E4.
        destruct (too_many_digits max_str_digits n); inversion H; subst; exact E4. }
      destruct (strip_prefix "NaN" (String c r)) eqn:E5;
        [apply strip_prefix_length in E5; inversion H; subst; exact E5 |].
      destruct (strip_prefix "Infinity" (String c r)) eqn:E6;
        [apply strip_prefix_length in E6; inversion H; subst; exact E6 |].
      destruct (strip_prefix "-Infinity" (String c r)) eqn:E7;
        [apply strip_prefix_length in E7; inversion H; subst; exact E7 |].
      discriminate.
    + intros level s acc v rest H. simpl in H.
      destruct s as [| c r]; [discriminate |].
      destruct (Ascii.eqb c dquote); [| discriminate].
      destruct (scanstring r) as [[key r1] |] eqn:E; [| discriminate].
      apply (scanstring_length _ _ _ _ (Nat.le_refl _)) in E.
      pose proof (skip_whitespace_length r1) as Hw1.
      destruct (after ":" (skip_whitespace r1)) as [r2 |] eqn:E2; [| discriminate].
      apply after_length in E2.
      pose proof (skip_whitespace_length r2) as Hw2.
      destruct (scan_once finish max_str_digits room fuel level (skip_whitespace r2))
        as [e | [value r3]] eqn:E3; [discriminate |].
      apply IHs in E3. cbv zeta in H.
      pose proof (skip_whitespace_length r3) as Hw3.
      destruct (after "}" (skip_whitespace r3)) as [rest' |] eqn:E4.
      { apply after_length in E4. destruct (finish _ _); inversion H; subst.
        simpl. lia. }
      destruct (after "," (skip_whitespace r3)) as [r4 |] eqn:E5; [| discriminate].
      apply after_length in E5. apply IHo in H.
      pose proof (skip_whitespace_length r4). simpl. lia.
    + intros level s acc v rest H. simpl in H.
      destruct (scan_once finish max_str_digits room fuel level s)
        as [e | [value r1]] eqn:E; [discriminate |].
      apply IHs in E. cbv zeta in H.
      pose proof (skip_whitespace_length r1) as Hw1.
      destruct (after "]" (skip_whitespace r1)) as [rest' |] eqn:E2.
      { apply after_length in E2. inversion H; subst. lia. }
      destruct (after "," (skip_whitespace r1)) as [r2 |] eqn:E3; [| discriminate].
      apply after_length in E3. apply IHa in H.
      pose proof (skip_whitespace_length r2). lia.
Qed.

(** Past twice the length of the text, more fuel changes nothing: the
    scanner never stops for want of it. *)
Lemma scanner_fuel : forall fuel fuel',
  (forall level s, (2 * String.length s < fuel)%nat -> (2 * String.length s < fuel')%nat ->
                   scan fuel level s = scan fuel' level s) /\
  (forall level s acc,
      (2 * String.length s + 1 < fuel)%nat -> (2 * String.length s + 1 < fuel')%nat ->
      object fuel level s acc = object fuel' level s acc) /\
  (forall level s acc,
      (2 * String.length s + 1 < fuel)%nat -> (2 * String.length s + 1 < fuel')%nat ->
      array fuel level s acc = array fuel' level s acc).
Proof.
  induction fuel as [| fuel IH]; intros fuel'.
  - repeat split; intros; lia.
  - destruct fuel' as [| fuel']; [repeat split; intros; lia |].
    destruct (IH fuel') as (IHs & IHo & IHa).
    destruct (scanner_rest fuel) as (Rs & _ & _).
    unfold scan, object, array in *.
    repeat split.
    + intros level s H H'. cbn [scan_once].
      destruct s as [| c r]; [reflexivity |].
      pose proof (skip_whitespace_length r) as Hw. simpl in H, H'.
      destruct (Ascii.eqb c dquote); [reflexivity |].
      destruct (Ascii.eqb c "{").
      { destruct (room (S level)); [| reflexivity].
        destruct (after "}" (skip_whitespace r)); [reflexivity |].
        apply IHo; lia. }
      destruct (Ascii.eqb c "[").
      { destruct (room (S level)); [| reflexivity].
        destruct (after "]" (skip_whitespace r)); [reflexivity |].
        apply IHa; lia. }
      reflexivity.
    + intros level s acc H H'. simpl.
      destruct s as [| c r]; [reflexivity |]. simpl in H, H'.
      destruct (Ascii.eqb c dquote); [| reflexivity].
      destruct (scanstring r) as [[key r1] |] eqn:E; [| reflexivity].
      apply (scanstring_length _ _ _ _ (Nat.le_refl _)) in E.
      pose proof (skip_whitespace_length r1) as Hw1.
      destruct (after ":" (skip_whitespace r1)) as [r2 |] eqn:E2; [| reflexivity].
      apply after_length in E2.
      pose proof (skip_whitespace_length r2) as Hw2.
      rewrite <- (IHs level (skip_whitespace r2)) by lia.
      destruct (scan_once finish max_str_digits room fuel level (skip_whitespace r2))
        as [e | [value r3]] eqn:E3; [reflexivity |].
      apply Rs in E3. cbv zeta.
      pose proof (skip_whitespace_length r3) as Hw3.
      destruct (after "}" (skip_whitespace r3)); [reflexivity |].
      destruct (after "," (skip_whitespace r3)) as [r4 |] eqn:E5; [| reflexivity].
      apply after_length in E5. pose proof (skip_whitespace_length r4).
      apply IHo; lia.
    + intros level s acc H H'. simpl.
      rewrite <- (IHs level s) by lia.
      destruct (scan_once finish max_str_digits room fuel level s)
        as [e | [value r1]] eqn:E; [reflexivity |].
      apply Rs in E. cbv zeta.
      pose proof (skip_whitespace_length r1) as Hw1.
      destruct (after "]" (skip_whitespace r1)); [reflexivity |].
      destruct (after "," (skip_whitespace r1)) as [r2 |] eqn:E3; [| reflexivity].
      apply after_length in E3. pose proof (skip_whitespace_length r2).
      apply IHa; lia.
Qed.

(** The fuel [decode] gives is enough: any larger amount scans the text
    to the same result. *)
Lemma decode_fuel : forall s extra,
  scan (S (2 * String.length s) + extra) 0 (skip_whitespace s)
  = scan (S (2 * String.length s)) 0 (skip_whitespace s).
Proof.
  intros s extra. pose proof (skip_whitespace_length s).
  apply (proj1 (scanner_fuel _ _)); lia.
Qed.

End Fuel.

(** ** The hook against the syntax *)



(** *** The digits of an integer literal *)










(** *** The runs side by side *)

Section Follows.

Variable py : Python.





End Follows.

(** ** Field names *)
















(** ** clean_webhook_payload *)




(** On a text that is not JSON the decoder raises [JSONDecodeError]; the
    handler's [raise JSONDecodeError] then fails to build the exception,
    and a [TypeError] is what the caller sees. *)
Lemma clean_webhook_payload_not_json :
  json_loads sample_python "not json" = inl JSONDecodeError /\
  clean_webhook_payload sample_env PMS_Mews "not json" = inl TypeError.
Proof.
  split; vm_compute; reflexivity.
Qed.

(** ** make_api_call_with_retry *)

(** [k] attempts answered with [APIError] take the loop [k] turns on. *)
Lemma retry_loop_failures : forall env pms request parameters k fuel retry_times data w,
  (forall i, (i < k)%nat ->
             exists msg, remote env request parameters (List.length (api_calls w) + i)
                         = inl (APIError msg)) ->
  retry_times + Z.of_nat k <= 10 ->
  exists w',
    retry_loop env (k + fuel) pms request parameters retry_times data w
    = retry_loop env fuel pms request parameters (retry_times + Z.of_nat k) data w' /\
    after_calls k k request parameters w w'.
Proof.
  intros env pms request parameters.
  induction k as [| k IH]; intros fuel retry_times data w Hdown Hle.
  - exists w. rewrite Z.add_0_r. split; [reflexivity |].
    unfold after_calls. cbn [repeat]. rewrite app_nil_r, Nat.add_0_r. repeat split.
  - cbn [Nat.add retry_loop].
    replace (retry_times <? 10) with true by (symmetry; apply Z.ltb_lt; lia).
    destruct (Hdown 0%nat) as [msg Hmsg]; [lia |]. rewrite Nat.add_0_r in Hmsg.
    unfold bind at 1. unfold attempt, call. rewrite Hmsg. cbv beta iota.
    unfold bind at 1. cbn [print].
    set (w1 := mkWorld _ _ _ _ _ _ _ _).
    assert (Hcalls1 : api_calls w1 = (api_calls w ++ [(request, parameters)])%list)
      by reflexivity.
    assert (Hle' : retry_times + 1 + Z.of_nat k <= 10) by lia.
    destruct (IH fuel (retry_times + 1) data w1) as (w' & Hrun & Hafter); auto.
    { intros i Hi. destruct (Hdown (S i)) as [m Hm]; [lia |]. exists m.
      rewrite Hcalls1, length_app. cbn [List.length].
      now replace (List.length (api_calls w) + 1 + i)%nat
        with (List.length (api_calls w) + S i)%nat by lia. }
    exists w'. rewrite Hrun.
    replace (retry_times + 1 + Z.of_nat k) with (retry_times + Z.of_nat (S k)) by lia.
    split; [reflexivity |].
    destruct Hafter as (Hc & Ho & HH & HG & HS & Hg & Hs & Hu).
    unfold after_calls. repeat split; try assumption.
    + rewrite Hc, Hcalls1. cbn [repeat]. now rewrite <- app_assoc.
    + rewrite Ho. subst w1. cbn [stdout record_call]. rewrite length_app. simpl. lia.
Qed.

(** C3. When the vendor answers every attempt with [APIError],
    [make_api_call_with_retry] makes exactly ten calls, then raises
    [APIError]; it returns no cleaned result and leaves the record store
    as it was, having printed the ten errors. *)
Theorem make_api_call_with_retry_exhausted :
  forall env pms_name request parameters w,
    (forall k, exists msg, remote env request parameters k = inl (APIError msg)) ->
    exists w',
      make_api_call_with_retry env pms_name request parameters w
      = (inl (APIError ""), w') /\
      api_calls w' = (api_calls w ++ repeat (request, parameters) 10)%list /\
      List.length (stdout w') = (List.length (stdout w) + 10)%nat /\
      Hotels w' = Hotels w /\ Guests w' = Guests w /\ Stays w' = Stays w /\
      next_guest_id w' = next_guest_id w /\ next_stay_id w' = next_stay_id w.
Proof.
  intros env pms_name request parameters w Hdown.
  destruct (retry_loop_failures env (get_pms pms_name) request parameters
              10 0 0 PNone w) as (w' & Hrun & Hc & Ho & HH & HG & HS & Hg & Hs & _).
  - intros i _. apply Hdown.
  - simpl. lia.
  - exists w'. unfold make_api_call_with_retry, bind.
    change 10%nat with (10 + 0)%nat at 1. rewrite Hrun.
    repeat split; assumption.
Qed.

Lemma make_api_call_with_retry_exhausted_witness :
  exists w',
    make_api_call_with_retry sample_env "Mews" get_guest_details (PStr "G-1") hotel_world
    = (inl (APIError ""), w') /\
    api_calls w' = (api_calls hotel_world
                    ++ repeat (get_guest_details, PStr "G-1") 10)%list /\
    List.length (stdout w') = (List.length (stdout hotel_world) + 10)%nat /\
    Hotels w' = Hotels hotel_world /\ Guests w' = Guests hotel_world /\
    Stays w' = Stays hotel_world /\
    next_guest_id w' = next_guest_id hotel_world /\
    next_stay_id w' = next_stay_id hotel_world.
Proof.
  apply (make_api_call_with_retry_exhausted sample_env "Mews" get_guest_details
           (PStr "G-1") hotel_world).
  intros k. now exists "Currently no access to the API".
Defined.

(** The attempt that ends the loop with an error other than [APIError]. *)
Lemma retry_loop_raises : forall env pms request parameters fuel retry_times data w e,
  retry_times < 10 ->
  (remote env request parameters (List.length (api_calls w)) = inl e \/
   exists raw, remote env request parameters (List.length (api_calls w)) = inr raw /\
               pms_clean env pms raw = inl e) ->
  is_APIError e = false ->
  retry_loop env (S fuel) pms request parameters retry_times data w
  = (inl e, record_call request parameters w).
Proof.
  intros env pms request parameters fuel retry_times data w e Hlt Hcall Hne.
  cbn [retry_loop].
  replace (retry_times <? 10) with true by (symmetry; apply Z.ltb_lt; lia).
  unfold bind, attempt, call.
  destruct Hcall as [Herr | (raw & Hraw & Hclean)].
  - rewrite Herr. cbv beta iota. destruct e; try discriminate; reflexivity.
  - rewrite Hraw. cbv beta iota. rewrite Hclean.
    destruct e; try discriminate; reflexivity.
Qed.

(** C10. Only [APIError] starts another attempt. After any number of
    attempts answered with [APIError], short of ten, an attempt that the
    vendor answers and on whose answer the adapter's
    [clean_webhook_payload] raises ends [make_api_call_with_retry] with
    that error: no call follows it, and the record store is as it was.
    The same holds for an error of the call itself that is not an
    [APIError]. *)
Theorem make_api_call_with_retry_propagates :
  forall env pms_name request parameters w k,
    (k < 10)%nat ->
    (forall i, (i < k)%nat ->
               exists msg, remote env request parameters (List.length (api_calls w) + i)
                           = inl (APIError msg)) ->
    (forall self raw e,
        get_pms pms_name = Some self ->
        remote env request parameters (List.length (api_calls w) + k) = inr raw ->
        clean_webhook_payload env self raw = inl e ->
        exists w',
          make_api_call_with_retry env pms_name request parameters w = (inl e, w') /\
          after_calls (S k) k request parameters w w') /\
    (forall e,
        remote env request parameters (List.length (api_calls w) + k) = inl e ->
        is_APIError e = false ->
        exists w',
          make_api_call_with_retry env pms_name request parameters w = (inl e, w') /\
          after_calls (S k) k request parameters w w').
Proof.
  intros env pms_name request parameters w k Hk Hdown.
  assert (Hend : forall e,
             (remote env request parameters (List.length (api_calls w) + k) = inl e \/
              exists raw,
                remote env request parameters (List.length (api_calls w) + k) = inr raw /\
                pms_clean env (get_pms pms_name) raw = inl e) ->
             is_APIError e = false ->
             exists w',
               make_api_call_with_retry env pms_name request parameters w = (inl e, w') /\
               after_calls (S k) k request parameters w w').
  { intros e Hcall Hne.
    destruct (retry_loop_failures env (get_pms pms_name) request parameters
                k (10 - k) 0 PNone w Hdown) as (w1 & Hrun & Hc & Ho & HH & HG & HS & Hg & Hs & Hu);
      [lia |].
    exists (record_call request parameters w1). split.
    - unfold make_api_call_with_retry, bind.
      replace 10%nat with (k + (10 - k))%nat at 1 by lia. rewrite Hrun.
      replace (10 - k)%nat with (S (9 - k)) by lia.
      rewrite (retry_loop_raises env _ request parameters (9 - k) _ PNone w1 e);
        [reflexivity | lia | | assumption].
      rewrite Hc, length_app, repeat_length. exact Hcall.
    - unfold after_calls. cbn [record_call api_calls stdout Hotels Guests Stays
                                 next_guest_id next_stay_id uuids_drawn].
      repeat split; try assumption.
      rewrite Hc, <- app_assoc. f_equal.
      change [(request, parameters)] with (repeat (request, parameters) 1).
      rewrite <- repeat_app. f_equal. lia. }
  split.
  - intros self raw e Hpms Hraw Hclean.
    assert (Hc : pms_clean env (get_pms pms_name) raw = inl e) by (now rewrite Hpms).
    apply Hend; [right; eauto | exact (pms_clean_not_APIError _ _ _ _ Hc)].
  - intros e Herr Hne. apply Hend; auto.
Qed.

Lemma make_api_call_with_retry_propagates_witness :
  exists w',
    make_api_call_with_retry flaky_env "mews" get_guest_details (PStr "G-1") hotel_world
    = (inl (JsonValueError "Incorrect json input"), w') /\
    after_calls 4 3 get_guest_details (PStr "G-1") hotel_world w'.
Proof.
  destruct (make_api_call_with_retry_propagates flaky_env "mews"
              get_guest_details (PStr "G-1") hotel_world 3) as [Hclean _].
  - lia.
  - intros i Hi. exists "busy".
    destruct i as [| [| [| i]]]; [reflexivity | reflexivity | reflexivity | lia].
  - apply (Hclean PMS_Mews ""); reflexivity.
Defined.

(** ** handle_webhook *)

(** C9. A cleaned payload whose [Events] list is empty is handled with
    [True] and leaves the world untouched: no remote call, no change of
    the record store. *)
Theorem handle_webhook_no_events : forall env self webhook_data w,
  get_attr webhook_data "Events" = inr (PList []) ->
  handle_webhook env self webhook_data w = (inr true, w).
Proof.
  intros env [] webhook_data w H.
  unfold handle_webhook, bind, lift. now rewrite H.
Qed.

Lemma handle_webhook_no_events_witness :
  handle_webhook sample_env PMS_Mews
    (PRecord [("HotelId", PStr "H-1"); ("Events", PList [])]) hotel_world
  = (inr true, hotel_world).
Proof.
  apply (handle_webhook_no_events sample_env PMS_Mews).
  reflexivity.
Defined.

(** The event loop stops with [False] at the first event that raises what
    neither [except] clause that continues catches; [DoesNotExist] is
    such an error. *)
Lemma handle_events_aborts : forall env self event rest w e w',
  handle_event env self event w = (inl e, w') ->
  continues env e = false ->
  handle_events env self (event :: rest) w = (inr false, w').
Proof.
  intros env self event rest w e w' H Hc.
  cbn [handle_events]. unfold bind at 1. unfold attempt. rewrite H. cbv beta iota.
  now rewrite Hc.
Qed.

Lemma handle_events_continues : forall env self event rest w e w',
  handle_event env self event w = (inl e, w') ->
  continues env e = true ->
  handle_events env self (event :: rest) w = handle_events env self rest w'.
Proof.
  intros env self event rest w e w' H Hc.
  cbn [handle_events]. unfold bind at 1. unfold attempt. rewrite H. cbv beta iota.
  now rewrite Hc.
Qed.

(** C2, as the code has it. A webhook with two events, one for a
    reservation of a known hotel and one for a reservation of an unknown
    hotel, every remote call answered: the unknown hotel's event is not
    skipped. Its [DoesNotExist] falls to [except Exception], and
    [handle_webhook] returns [False]. With the known hotel's event first
    one [Stay] has been created by then; with the unknown hotel's event
    first none has, and the known hotel's event is never looked at. *)
Theorem handle_webhook_unknown_hotel_aborts : forall json_value_error_is_value_error,
  let env := vendor_env json_value_error_is_value_error in
  exists known_first unknown_first w1 w2,
    clean_webhook_payload env PMS_Mews webhook_known_first = inr known_first /\
    clean_webhook_payload env PMS_Mews webhook_unknown_first = inr unknown_first /\
    handle_webhook env PMS_Mews known_first hotel_world = (inr false, w1) /\
    map Stay.pms_reservation_id (Stays w1) = [PStr "R-1"] /\
    List.length (api_calls w1) = 4%nat /\
    handle_webhook env PMS_Mews unknown_first hotel_world = (inr false, w2) /\
    Stays w2 = [] /\
    List.length (api_calls w2) = 2%nat.
Proof.
  intros b env. subst env.
  do 4 eexists.
  split; [vm_compute; reflexivity |].
  split; [vm_compute; reflexivity |].
  split; [destruct b; vm_compute; reflexivity |].
  split; [reflexivity |].
  split; [reflexivity |].
  split; [destruct b; vm_compute; reflexivity |].
  split; reflexivity.
Qed.

(** * Further properties *)

(** ** get_pms and PMS.name *)

Lemma upper_M_lower_m : forall c,
  upper_char c = "M"%char <-> lower_char c = "m"%char.
Proof.
  intros [[] [] [] [] [] [] [] []]; vm_compute; split; intros H;
    solve [reflexivity | discriminate H].
Qed.

Lemma get_pms_spec : forall n, get_pms n = Some PMS_Mews <-> ascii_lower n = "mews".
Proof.
  intros n. unfold get_pms.
  change (class_name PMS_Mews) with ("PMS_" ++ "Mews")%string.
  assert (Hpre : forall x, (("PMS_" ++ x)%string =? ("PMS_" ++ "Mews")%string)%string
                           = (x =? "Mews")%string).
  { intros x. reflexivity. }
  rewrite Hpre.
  destruct (String.eqb_spec (capitalize n) "Mews") as [E | E].
  - split; [intros _ | reflexivity].
    destruct n as [| c rest]; [discriminate |]. simpl in *.
    inversion E as [[Hc Hr]]. f_equal.
    apply upper_M_lower_m. exact Hc.
  - split; [discriminate |]. intros H. exfalso. apply E.
    destruct n as [| c rest]; [discriminate |]. simpl in *.
    inversion H as [[Hc Hr]]. f_equal.
    apply upper_M_lower_m. exact Hc.
Qed.

(** X1. The registry finds an adapter for a name exactly when the name
    spells mews in any mix of upper and lower case, and every adapter
    is found under its own [name]. *)
Theorem get_pms_resolves : forall n self,
  (get_pms n = Some self <-> ascii_lower n = "mews") /\ get_pms (name self) = Some self.
Proof.
  intros n []. split; [apply get_pms_spec | reflexivity].
Qed.

(** ** make_api_call_with_retry, for every vendor *)

(** X2. After any number of attempts answered with [APIError], short of
    ten, the first answer that cleans well is returned at once: one call
    per attempt has been made, one line per failure printed, and the
    store is as it was. *)
Theorem make_api_call_with_retry_succeeds :
  forall env pms_name request parameters w k self raw cleaned,
    (k < 10)%nat ->
    (forall i, (i < k)%nat ->
               exists msg, remote env request parameters (List.length (api_calls w) + i)
                           = inl (APIError msg)) ->
    get_pms pms_name = Some self ->
    remote env request parameters (List.length (api_calls w) + k) = inr raw ->
    clean_webhook_payload env self raw = inr cleaned ->
    exists w',
      make_api_call_with_retry env pms_name request parameters w = (inr cleaned, w') /\
      after_calls (S k) k request parameters w w'.
Proof.
  intros env pms_name request parameters w k self raw cleaned Hk Hdown Hpms Hraw Hclean.
  destruct (retry_loop_failures env (get_pms pms_name) request parameters
              k (10 - k) 0 PNone w Hdown)
    as (w1 & Hrun & Hc & Ho & HH & HG & HS & Hg & Hs & Hu); [lia |].
  exists (record_call request parameters w1). split.
  - unfold make_api_call_with_retry, bind.
    replace 10%nat with (k + (10 - k))%nat at 1 by lia. rewrite Hrun.
    replace (10 - k)%nat with (S (9 - k)) by lia.
    cbn [retry_loop].
    replace (0 + Z.of_nat k <? 10) with true by (symmetry; apply Z.ltb_lt; lia).
    unfold bind, attempt, call, ret.
    rewrite Hc, length_app, repeat_length, Hraw. cbv beta iota.
    rewrite Hpms. cbn [pms_clean]. rewrite Hclean.
    replace (0 + Z.of_nat k =? 10) with false by (symmetry; apply Z.eqb_neq; lia).
    reflexivity.
  - unfold after_calls. cbn [record_call api_calls stdout Hotels Guests Stays
                               next_guest_id next_stay_id uuids_drawn].
    repeat split; try assumption.
    rewrite Hc, <- app_assoc. f_equal.
    change [(request, parameters)] with (repeat (request, parameters) 1).
    rewrite <- repeat_app. f_equal. lia.
Qed.

Lemma make_api_call_with_retry_succeeds_witness :
  exists w',
    make_api_call_with_retry (vendor_env true) "MEWS" get_guest_details (PStr "G-1")
                             hotel_world
    = (inr (PRecord [("Name", PStr "Ada"); ("Phone", PStr "+31 6 1234");
                     ("Country", PStr "NL")]), w') /\
    after_calls 1 0 get_guest_details (PStr "G-1") hotel_world w'.
Proof.
  apply (make_api_call_with_retry_succeeds (vendor_env true) "MEWS" get_guest_details
           (PStr "G-1") hotel_world 0 PMS_Mews
           (json_quotes "{'Name': 'Ada', 'Phone': '+31 6 1234', 'Country': 'NL'}")).
  - lia.
  - intros i Hi. lia.
  - reflexivity.
  - reflexivity.
  - vm_compute. reflexivity.
Defined.

Lemma after_calls_refl : forall request parameters w,
  after_calls 0 0 request parameters w w.
Proof.
  intros. unfold after_calls. cbn [repeat]. rewrite app_nil_r, Nat.add_0_r.
  repeat split.
Qed.

Lemma after_calls_step : forall request parameters w w1 w' calls errors printed,
  api_calls w1 = (api_calls w ++ [(request, parameters)])%list ->
  List.length (stdout w1) = (List.length (stdout w) + printed)%nat ->
  Hotels w1 = Hotels w -> Guests w1 = Guests w -> Stays w1 = Stays w ->
  next_guest_id w1 = next_guest_id w -> next_stay_id w1 = next_stay_id w ->
  uuids_drawn w1 = uuids_drawn w ->
  after_calls calls errors request parameters w1 w' ->
  after_calls (S calls) (printed + errors) request parameters w w'.
Proof.
  intros request parameters w w1 w' calls errors printed Hc Ho HH HG HS Hg Hs Hu
         (Hc' & Ho' & HH' & HG' & HS' & Hg' & Hs' & Hu').
  unfold after_calls. repeat split; try congruence.
  - rewrite Hc', Hc, <- app_assoc. reflexivity.
  - rewrite Ho', Ho. lia.
Qed.

Lemma retry_loop_frame : forall env pms request parameters fuel retry_times data w,
  exists calls errors,
    (calls <= fuel)%nat /\ (errors <= calls)%nat /\
    (retry_times < 10 -> (0 < fuel)%nat -> (0 < calls)%nat) /\
    after_calls calls errors request parameters w
                (snd (retry_loop env fuel pms request parameters retry_times data w)).
Proof.
  intros env pms request parameters.
  induction fuel as [| fuel IH]; intros retry_times data w.
  - exists 0%nat, 0%nat. cbn [retry_loop ret snd].
    repeat (split; [lia |]). apply after_calls_refl.
  - cbn [retry_loop].
    destruct (retry_times <? 10) eqn:Hlt.
    + assert (Hone : exists calls errors,
                 (calls <= S fuel)%nat /\ (errors <= calls)%nat /\
                 (retry_times < 10 -> (0 < S fuel)%nat -> (0 < calls)%nat) /\
                 after_calls calls errors request parameters w
                             (record_call request parameters w)).
      { exists 1%nat, 0%nat. repeat (split; [lia |]).
        apply (after_calls_step _ _ w (record_call request parameters w) _ 0 0 0);
          try reflexivity.
        - cbn [record_call stdout]. lia.
        - apply after_calls_refl. }
      assert (Hmore : forall msg d,
                 exists calls errors,
                   (calls <= S fuel)%nat /\ (errors <= calls)%nat /\
                   (retry_times < 10 -> (0 < S fuel)%nat -> (0 < calls)%nat) /\
                   after_calls calls errors request parameters w
                     (snd ((print msg ;;; retry_loop env fuel pms request parameters
                                                       (retry_times + 1) d)
                             (record_call request parameters w)))).
      { intros msg d. unfold bind at 1. cbn [print].
        set (w1 := mkWorld _ _ _ _ _ _ _ _).
        destruct (IH (retry_times + 1) d w1) as (calls & errors & H1 & H2 & _ & H4).
        exists (S calls), (1 + errors)%nat. repeat (split; [lia |]).
        apply (after_calls_step _ _ w w1 _ calls errors 1); try reflexivity.
        - subst w1. cbn [record_call stdout]. rewrite length_app. reflexivity.
        - exact H4. }
      unfold bind at 1. unfold attempt, call.
      destruct (remote env request parameters (List.length (api_calls w))) as [e | raw];
        cbv beta iota.
      * destruct e; try exact Hone. apply Hmore.
      * destruct (pms_clean env pms raw) as [e | cleaned].
        -- destruct e; try exact Hone. apply Hmore.
        -- exact Hone.
    + exists 0%nat, 0%nat. cbn [ret snd].
      split; [lia |]. split; [lia |]. split.
      * intros H. apply Z.ltb_ge in Hlt. lia.
      * apply after_calls_refl.
Qed.

Lemma make_api_call_with_retry_calls : forall env pms_name request parameters w,
  exists calls errors,
    (1 <= calls <= 10)%nat /\ (errors <= calls)%nat /\
    after_calls calls errors request parameters w
                (snd (make_api_call_with_retry env pms_name request parameters w)).
Proof.
  intros env pms_name request parameters w.
  destruct (retry_loop_frame env (get_pms pms_name) request parameters 10 0 PNone w)
    as (calls & errors & H1 & H2 & H3 & H4).
  exists calls, errors.
  split; [split; [apply H3; lia | lia] |]. split; [lia |].
  unfold make_api_call_with_retry, bind.
  destruct (retry_loop env 10 (get_pms pms_name) request parameters 0 PNone w)
    as [[e | [rt d]] w'] eqn:E; cbn [snd] in *; try assumption.
  destruct (rt =? 10); assumption.
Qed.

(** X3. Whatever the vendor answers and whatever the adapter name,
    [make_api_call_with_retry] makes at least one and at most ten calls,
    all of them the call it was given, prints at most one line per call
    and leaves the three tables and the id counters as they were. *)
Theorem make_api_call_with_retry_bounded : forall env pms_name request parameters w,
  exists calls errors,
    (1 <= calls <= 10)%nat /\ (errors <= calls)%nat /\
    after_calls calls errors request parameters w
                (snd (make_api_call_with_retry env pms_name request parameters w)).
Proof.
  exact make_api_call_with_retry_calls.
Qed.

(** X4. Under a name that no adapter carries the vendor is still called:
    when it answers, the missing adapter shows as an [AttributeError]
    after exactly one call. *)
Theorem make_api_call_with_retry_no_adapter :
  forall env pms_name request parameters w raw,
    ascii_lower pms_name <> "mews" ->
    remote env request parameters (List.length (api_calls w)) = inr raw ->
    make_api_call_with_retry env pms_name request parameters w
    = (inl AttributeError, record_call request parameters w).
Proof.
  intros env pms_name request parameters w raw Hname Hraw.
  assert (Hpms : get_pms pms_name = None).
  { destruct (get_pms pms_name) as [[] |] eqn:E; [| reflexivity].
    apply get_pms_spec in E. contradiction. }
  unfold make_api_call_with_retry, bind.
  rewrite (retry_loop_raises env (get_pms pms_name) request parameters 9 0 PNone w
             AttributeError); try reflexivity; try lia.
  right. exists raw. split; [assumption |]. now rewrite Hpms.
Qed.

Lemma make_api_call_with_retry_no_adapter_witness :
  make_api_call_with_retry (vendor_env true) "Opera" get_guest_details (PStr "G-1")
                           hotel_world
  = (inl AttributeError, record_call get_guest_details (PStr "G-1") hotel_world).
Proof.
  apply (make_api_call_with_retry_no_adapter (vendor_env true) "Opera" get_guest_details
           (PStr "G-1") hotel_world
           (json_quotes "{'Name': 'Ada', 'Phone': '+31 6 1234', 'Country': 'NL'}")).
  - vm_compute. discriminate.
  - reflexivity.
Defined.

(** ** clean_webhook_payload *)

(** X5. What [clean_webhook_payload] raises: [JsonValueError] on the
    empty payload and on no other; on a non-empty payload [TypeError]
    (the text is not JSON), [ValueError] (a key that is no field name,
    an integer with too many digits), [RecursionError] (arrays and
    objects too deep) or [SyntaxError] (two keys that are one
    identifier). The [JSONDecodeError] its handler names never reaches
    the caller. *)
Theorem clean_webhook_payload_raises : forall env self payload e,
  clean_webhook_payload env self payload = inl e ->
  (payload = "" /\ e = JsonValueError "Incorrect json input") \/
  (payload <> "" /\
   (e = TypeError \/ e = ValueError \/ e = RecursionError \/ e = SyntaxError)).
Proof.
  intros env [] payload e H. unfold clean_webhook_payload in H.
  destruct payload as [| c rest].
  - left. inversion H. auto.
  - right. split; [discriminate |]. cbn [truthy String.eqb negb] in H.
    destruct (json_loads (python env) (String c rest)) as [e' |] eqn:E; [| discriminate].
    destruct (json_loads_errors _ _ _ E) as [-> | [-> | [-> | ->]]]; inversion H; auto.
Qed.

Lemma clean_webhook_payload_raises_witness :
  ("[1, 2" = "" /\ TypeError = JsonValueError "Incorrect json input") \/
  ("[1, 2" <> "" /\
   (TypeError = TypeError \/ TypeError = ValueError \/ TypeError = RecursionError \/
    TypeError = SyntaxError)).
Proof.
  apply (clean_webhook_payload_raises sample_env PMS_Mews "[1, 2" TypeError).
  reflexivity.
Defined.

(** A key with a letter beyond ASCII is a field name like any other. *)
Lemma clean_webhook_payload_unicode_key :
  clean_webhook_payload unicode_env PMS_Mews (json_quotes "{'\u00e9': 1}")
  = inr (PRecord [(e_acute, PInt 1)]).
Proof. vm_compute. reflexivity. Qed.

(** Each of the four is raised: by a text that is not JSON, by a key that
    is a keyword and by an integer of 4301 digits, by 991 nested arrays,
    and by the keys fi and its ligature, which the compiler reads as one
    identifier. *)
Lemma clean_webhook_payload_raises_each :
  clean_webhook_payload sample_env PMS_Mews "[1, 2" = inl TypeError /\
  clean_webhook_payload sample_env PMS_Mews (json_quotes "{'class': 1}") = inl ValueError /\
  clean_webhook_payload sample_env PMS_Mews (String "1" (repeat_char "0" 4300))
  = inl ValueError /\
  clean_webhook_payload sample_env PMS_Mews (repeat_char "[" 991) = inl RecursionError /\
  clean_webhook_payload unicode_env PMS_Mews (json_quotes "{'fi': 1, '\ufb01': 2}")
  = inl SyntaxError.
Proof.
  repeat split; vm_compute; reflexivity.
Qed.

(** ** get_guest_language *)

Lemma is_ascii_lower : forall s, is_ascii (ascii_lower s) = is_ascii s.
Proof.
  unfold is_ascii. induction s as [| c r IH]; [reflexivity |].
  cbn [ascii_lower all_chars]. rewrite IH. f_equal.
  destruct c as [[] [] [] [] [] [] [] []]; reflexivity.
Qed.

(** [lower()] of a text is [lower()] of the text with its letters A to Z
    lowered. *)
Lemma lower_ascii_lower : forall py s t,
  ascii_lower s = ascii_lower t -> lower py s = lower py t.
Proof.
  intros py s t H. unfold lower.
  now rewrite <- (is_ascii_lower s), <- (is_ascii_lower t), H.
Qed.

Lemma language_choice_lower : forall env choices s t,
  ascii_lower s = ascii_lower t ->
  language_choice env choices (PStr s) = language_choice env choices (PStr t).
Proof.
  intros env. induction choices as [| choice rest IH]; intros s t H; simpl; auto.
  rewrite (lower_ascii_lower _ s t H).
  destruct (fst choice =? lower (python env) t)%string; auto.
Qed.

Lemma ascii_lower_empty : forall s, ascii_lower s = "" -> s = "".
Proof.
  intros [| c r] H; [reflexivity | discriminate].
Qed.

(** X6. The language of a country code does not depend on the case it
    is written in: two codes with the same lower-case form resolve
    alike. *)
Theorem get_guest_language_ignores_case : forall env s t,
  ascii_lower s = ascii_lower t ->
  get_guest_language env (PStr s) = get_guest_language env (PStr t).
Proof.
  intros env s t H. unfold get_guest_language.
  destruct s as [| c r].
  - symmetry in H. apply ascii_lower_empty in H. now subst.
  - destruct t as [| c' r']; [discriminate |].
    cbn [truthy String.eqb negb]. now apply language_choice_lower.
Qed.

Lemma get_guest_language_ignores_case_witness :
  get_guest_language sample_env (PStr "nL") = get_guest_language sample_env (PStr "Nl").
Proof.
  apply (get_guest_language_ignores_case sample_env "nL" "Nl").
  reflexivity.
Defined.

(** X7. A label that [get_guest_language] returns is "None" or the label
    of an entry of [Language.choices] whose code is [lower()] of the
    input: the input with its ASCII letters lowered when it is ASCII,
    and what the Unicode tables make of it otherwise. *)
Theorem get_guest_language_label : forall env country label,
  get_guest_language env country = inr label ->
  label = "None" \/
  exists s, country = PStr s /\
            In (lower (python env) s, label) (Language_choices env).
Proof.
  intros env country label H. unfold get_guest_language in H.
  destruct (negb (truthy country)); [left; now inversion H |].
  induction (Language_choices env) as [| [code l] rest IH]; simpl in H.
  - left. now inversion H.
  - destruct country; simpl in H; try discriminate.
    + destruct (String.eqb_spec code (lower (python env) s)) as [-> | _].
      * right. inversion H; subst. exists s. simpl. auto.
      * destruct (IH H) as [-> | (s' & Hs & Hin)]; auto.
        right. inversion Hs; subst. exists s'. simpl. auto.
    + destruct (assoc "lower" fields); discriminate.
Qed.

Lemma get_guest_language_label_witness :
  "German" = "None" \/
  exists s, PStr "DE" = PStr s /\
            In (lower (python sample_env) s, "German") (Language_choices sample_env).
Proof.
  apply (get_guest_language_label sample_env (PStr "DE") "German").
  reflexivity.
Defined.

(** The Unicode tables are asked: with a table that lowers the Kelvin
    sign to k, as the tables of Unicode do, the Kelvin sign followed by
    o resolves to the entry ko. *)
Lemma get_guest_language_kelvin :
  get_guest_language unicode_env (PStr (kelvin_sign ++ "o")) = inr "Korean".
Proof. reflexivity. Qed.

(** X8. A country that is not a [str], is not falsy and is not a record
    with a field called [lower] (a number, a list, [True]) has no
    [lower]: against a non-empty table [get_guest_language] raises
    [AttributeError]. *)
Theorem get_guest_language_not_a_str : forall env country,
  truthy country = true ->
  (forall s, country <> PStr s) ->
  get_attr country "lower" = inl AttributeError ->
  Language_choices env <> [] ->
  get_guest_language env country = inl AttributeError.
Proof.
  intros env country Ht Hs Hlower Hc. unfold get_guest_language. rewrite Ht. cbn [negb].
  destruct (Language_choices env) as [| choice rest]; [contradiction |].
  cbn [language_choice].
  destruct country; try reflexivity.
  - exfalso. now apply (Hs s).
  - cbn [call_lower bind_result]. cbn [get_attr] in Hlower.
    destruct (assoc "lower" fields); [discriminate | reflexivity].
Qed.

Lemma get_guest_language_not_a_str_witness :
  get_guest_language sample_env (PInt 31) = inl AttributeError.
Proof.
  apply (get_guest_language_not_a_str sample_env (PInt 31)).
  - reflexivity.
  - discriminate.
  - reflexivity.
  - discriminate.
Defined.

(** ** update_or_create_guest, row by row *)

Lemma guest_name_value : forall env guest n w,
  get_attr guest "Name" = inr n ->
  guest_name env guest w
  = (inr (stored_name env n w), set_uuids_drawn (drawn_after n w) w).
Proof.
  intros env guest n w H. unfold guest_name, bind, lift, stored_name, drawn_after.
  rewrite H. destruct (truthy n); cbn [negb].
  - unfold set_uuids_drawn. destruct w; reflexivity.
  - reflexivity.
Qed.

(** The whole of a reconciliation that reaches the table. *)
Lemma update_or_create_guest_run : forall env guest n phone country language w,
  guest_fields guest n phone country ->
  get_guest_language env country = inr language ->
  usable_phone phone ->
  let stored := stored_name env n w in
  let w0 := set_uuids_drawn (drawn_after n w) w in
  update_or_create_guest env guest w
  = match filter (guest_matches phone) (Guests w) with
    | [] =>
        (inr (Some (next_guest_id w)),
         mkWorld (Hotels w)
                 (Guests w ++ [Guest.Build (next_guest_id w) stored phone language
                                           (Some (now env)) None])%list
                 (Stays w) (next_guest_id w + 1) (next_stay_id w)
                 (api_calls w) (stdout w) (drawn_after n w))
    | [g0] =>
        (inr (Some (Guest.id g0)),
         set_Guests (map (update_guest env phone stored language) (Guests w)) w0)
    | _ =>
        (inl MultipleObjectsReturned,
         set_Guests (map (update_guest env phone stored language) (Guests w)) w0)
    end.
Proof.
  intros env guest n phone country language w (HN & HP & HC) HL [Ht Hs] stored w0.
  unfold update_or_create_guest, bind at 1 2 3, lift.
  rewrite HC, HL, HP, Ht, (eq_str_false _ _ Hs). cbn [negb orb]. cbv beta iota.
  unfold bind at 1. unfold guests_by_phone at 1.
  destruct (filter (guest_matches phone) (Guests w)) as [| g0 rest] eqn:Hrows;
    cbn [exists_].
  - unfold bind at 1. rewrite (guest_name_value env guest n w HN). fold stored w0.
    unfold bind at 1. unfold save_guest. cbv beta iota.
    unfold bind at 1. unfold guests_by_phone at 1. cbn [Guests set_uuids_drawn w0].
    unfold w0, set_uuids_drawn. cbn [Guests Hotels Stays next_guest_id next_stay_id
                                       api_calls stdout uuids_drawn].
    rewrite filter_app, Hrows. cbn [filter app].
    unfold guest_matches at 1. cbn [Guest.phone]. rewrite pyval_eqb_refl.
    cbn [exists_ negb]. unfold bind, guests_by_phone, lift, ret.
    cbn [Guests]. rewrite filter_app, Hrows. cbn [filter app].
    unfold guest_matches at 1. cbn [Guest.phone]. rewrite pyval_eqb_refl.
    reflexivity.
  - unfold bind at 1. rewrite (guest_name_value env guest n w HN). fold stored w0.
    unfold bind, guests_by_phone, lift, ret. cbv beta iota.
    cbn [Guests set_Guests].
    rewrite filter_map_same by (intros; apply update_guest_matches).
    assert (HG0 : Guests w0 = Guests w) by reflexivity.
    rewrite HG0, Hrows.
    assert (Hm : guest_matches phone g0 = true).
    { assert (Hin : In g0 (filter (guest_matches phone) (Guests w)))
        by (rewrite Hrows; simpl; auto).
      now apply filter_In in Hin. }
    destruct rest as [| g1 rest]; cbn [map get_one].
    + unfold update_guest at 1. rewrite Hm. reflexivity.
    + reflexivity.
Qed.

Lemma eq_str_true : forall v s, eq_str v s = true -> v = PStr s.
Proof.
  intros v s H. destruct v; simpl in H; try discriminate.
  apply String.eqb_eq in H. now subst.
Qed.

(** A call either changes nothing or is a reconciliation that reaches
    the table. *)
Lemma update_or_create_guest_cases : forall env guest w,
  snd (update_or_create_guest env guest w) = w \/
  exists n phone country language,
    guest_fields guest n phone country /\
    get_guest_language env country = inr language /\
    usable_phone phone.
Proof.
  intros env guest w.
  unfold update_or_create_guest, bind at 1 2 3, lift.
  destruct (get_attr guest "Country") as [e | country] eqn:HC; [now left |].
  destruct (get_guest_language env country) as [e | language] eqn:HL; [now left |].
  destruct (get_attr guest "Phone") as [e | phone] eqn:HP; [now left |].
  destruct (negb (truthy phone) || eq_str phone "Not available") eqn:Hu; [now left |].
  apply orb_false_elim in Hu as [Ht Hs]. apply negb_false_iff in Ht.
  destruct (get_attr guest "Name") as [e | n] eqn:HN.
  - left. cbv beta iota. unfold bind at 1. unfold guests_by_phone at 1.
    assert (Hname : guest_name env guest w = (inl e, w)).
    { unfold guest_name, bind, lift. now rewrite HN. }
    destruct (exists_ _); unfold bind at 1; now rewrite Hname.
  - right. exists n, phone, country, language.
    repeat split; auto.
    intros ->. simpl in Hs. discriminate.
Qed.

Lemma map_id_update_guest : forall env phone name language l,
  map Guest.id (map (update_guest env phone name language) l) = map Guest.id l.
Proof.
  intros. rewrite map_map. apply map_ext. intros g. unfold update_guest.
  now destruct (guest_matches phone g).
Qed.

(** What [update_or_create_guest] leaves alone. *)
Lemma update_or_create_guest_keeps : forall env guest w,
  let w' := snd (update_or_create_guest env guest w) in
  Hotels w' = Hotels w /\ Stays w' = Stays w /\ next_stay_id w' = next_stay_id w /\
  api_calls w' = api_calls w /\ stdout w' = stdout w /\
  keeps_rows (map Guest.id (Guests w)) (map Guest.id (Guests w')) /\
  (List.length (Guests w') <= S (List.length (Guests w)))%nat.
Proof.
  intros env guest w.
  destruct (update_or_create_guest_cases env guest w)
    as [E | (n & phone & country & language & Hf & HL & Hu)].
  - cbv zeta. rewrite E. repeat split; try lia. exists []. now rewrite app_nil_r.
  - cbv zeta. rewrite (update_or_create_guest_run env guest n phone country language w Hf HL Hu).
    destruct (filter (guest_matches phone) (Guests w)) as [| g0 [| g1 rest]];
      cbn [snd Hotels Stays next_stay_id api_calls stdout Guests set_Guests
               set_uuids_drawn];
      repeat split.
    + exists [next_guest_id w]. now rewrite map_app.
    + rewrite length_app. simpl. lia.
    + exists []. now rewrite app_nil_r, map_id_update_guest.
    + rewrite length_map. lia.
    + exists []. now rewrite app_nil_r, map_id_update_guest.
    + rewrite length_map. lia.
Qed.

(** X9. [update_or_create_guest] keeps to the [Guest] table: hotels,
    stays, the call log and the output are as before, whatever it
    returns or raises. In the [Guest] table no row goes and none changes
    its id; at most one row is added. *)
Theorem update_or_create_guest_frame : forall env guest w,
  let w' := snd (update_or_create_guest env guest w) in
  Hotels w' = Hotels w /\ Stays w' = Stays w /\ next_stay_id w' = next_stay_id w /\
  api_calls w' = api_calls w /\ stdout w' = stdout w /\
  keeps_rows (map Guest.id (Guests w)) (map Guest.id (Guests w')) /\
  (List.length (Guests w') <= S (List.length (Guests w)))%nat.
Proof.
  exact update_or_create_guest_keeps.
Qed.

(** X10. The first sighting of a usable phone number adds one row to the
    end of the table: its id is the next free one, which is returned;
    the name or its placeholder, the phone and the resolved language are
    stored; [created_at] is [now] and [updated_at] is not set. Nothing
    else changes but the count of placeholders. *)
Theorem update_or_create_guest_creates :
  forall env guest n phone country language w,
    guest_fields guest n phone country ->
    get_guest_language env country = inr language ->
    usable_phone phone ->
    filter (guest_matches phone) (Guests w) = [] ->
    update_or_create_guest env guest w
    = (inr (Some (next_guest_id w)),
       mkWorld (Hotels w)
               (Guests w ++ [Guest.Build (next_guest_id w) (stored_name env n w) phone
                                         language (Some (now env)) None])%list
               (Stays w) (next_guest_id w + 1) (next_stay_id w)
               (api_calls w) (stdout w) (drawn_after n w)).
Proof.
  intros env guest n phone country language w Hf HL Hu Hrows.
  rewrite (update_or_create_guest_run env guest n phone country language w Hf HL Hu).
  now rewrite Hrows.
Qed.

Lemma update_or_create_guest_creates_witness :
  update_or_create_guest sample_env
    (vendor_guest (PStr "Ada") (PStr "+31 6 1234") (PStr "NL")) empty_world
  = (inr (Some 1),
     mkWorld [] [Guest.Build 1 (PStr "Ada") (PStr "+31 6 1234") "Dutch"
                             (Some 1700000000) None] [] 2 1 [] [] 0).
Proof.
  apply (update_or_create_guest_creates sample_env _ (PStr "Ada") (PStr "+31 6 1234")
           (PStr "NL") "Dutch" empty_world).
  - repeat split.
  - reflexivity.
  - split; [reflexivity | discriminate].
  - reflexivity.
Defined.

(** X11. A later sighting of a phone number that has one row rewrites
    that row in place: name, language and [updated_at = now] are new,
    the id and [created_at] stay, and the id returned is the one the row
    had. Every other row is left as it is. *)
Theorem update_or_create_guest_updates :
  forall env guest n phone country language w g0,
    guest_fields guest n phone country ->
    get_guest_language env country = inr language ->
    usable_phone phone ->
    filter (guest_matches phone) (Guests w) = [g0] ->
    exists w',
      update_or_create_guest env guest w = (inr (Some (Guest.id g0)), w') /\
      filter (guest_matches phone) (Guests w')
      = [Guest.Build (Guest.id g0) (stored_name env n w) phone language
                     (Guest.created_at g0) (Some (now env))] /\
      (forall other, other <> phone ->
                     filter (guest_matches other) (Guests w')
                     = filter (guest_matches other) (Guests w)) /\
      List.length (Guests w') = List.length (Guests w).
Proof.
  intros env guest n phone country language w g0 Hf HL Hu Hrows.
  rewrite (update_or_create_guest_run env guest n phone country language w Hf HL Hu).
  rewrite Hrows. eexists. split; [reflexivity |].
  cbn [Guests set_Guests].
  assert (Hm : guest_matches phone g0 = true).
  { assert (Hin : In g0 (filter (guest_matches phone) (Guests w)))
      by (rewrite Hrows; simpl; auto).
    now apply filter_In in Hin. }
  repeat split.
  - rewrite filter_map_same by (intros; apply update_guest_matches).
    rewrite Hrows. cbn [map]. unfold update_guest. now rewrite Hm.
  - intros other Hother.
    rewrite filter_map_same by (intros; apply update_guest_matches).
    rewrite <- (map_id (filter (guest_matches other) (Guests w))) at 2.
    apply map_ext_in. intros g Hg. apply filter_In in Hg as [_ Hg].
    unfold update_guest. destruct (guest_matches phone g) eqn:Hp; [| reflexivity].
    exfalso. apply Hother. unfold guest_matches in *.
    apply pyval_eqb_eq in Hg, Hp. congruence.
  - apply length_map.
Qed.

Lemma update_or_create_guest_updates_witness :
  let w := mkWorld [] [Guest.Build 5 (PStr "Ada") (PStr "+31 6 1234") "Dutch"
                                   (Some 1600000000) None] [] 6 1 [] [] 0 in
  exists w',
    update_or_create_guest sample_env
      (vendor_guest (PStr "Ada L.") (PStr "+31 6 1234") (PStr "de")) w
    = (inr (Some 5), w') /\
    filter (guest_matches (PStr "+31 6 1234")) (Guests w')
    = [Guest.Build 5 (PStr "Ada L.") (PStr "+31 6 1234") "German"
                   (Some 1600000000) (Some 1700000000)] /\
    (forall other, other <> PStr "+31 6 1234" ->
                   filter (guest_matches other) (Guests w')
                   = filter (guest_matches other) (Guests w)) /\
    List.length (Guests w') = List.length (Guests w).
Proof.
  intros w.
  apply (update_or_create_guest_updates sample_env _ (PStr "Ada L.") (PStr "+31 6 1234")
           (PStr "de") "German" w
           (Guest.Build 5 (PStr "Ada") (PStr "+31 6 1234") "Dutch" (Some 1600000000) None)).
  - repeat split.
  - reflexivity.
  - split; [reflexivity | discriminate].
  - reflexivity.
Defined.

(** X12. A vendor guest without a name is stored under a placeholder,
    and each such reconciliation draws a new one: the row of the phone
    number ends up named by the placeholder drawn in this call, whatever
    name it carried before. *)
Theorem update_or_create_guest_placeholder :
  forall env guest n phone country w,
    one_guest_per_phone w ->
    guest_fields guest n phone country ->
    truthy n = false ->
    country_code country ->
    usable_phone phone ->
    exists g,
      filter (guest_matches phone) (Guests (snd (update_or_create_guest env guest w)))
      = [g] /\
      Guest.name g = PStr (uuid4 env (uuids_drawn w)) /\
      uuids_drawn (snd (update_or_create_guest env guest w)) = S (uuids_drawn w).
Proof.
  intros env guest n phone country w Hinv Hf Hn Hcc Hu.
  destruct (get_guest_language_total env country Hcc) as [language HL].
  rewrite (update_or_create_guest_run env guest n phone country language w Hf HL Hu).
  unfold stored_name, drawn_after. rewrite Hn.
  pose proof (Hinv phone) as Hone.
  destruct (filter (guest_matches phone) (Guests w)) as [| g0 [| g1 rest]] eqn:Hrows.
  - eexists. cbn [snd Guests uuids_drawn]. rewrite filter_app, Hrows. cbn [filter app].
    unfold guest_matches at 1. cbn [Guest.phone]. rewrite pyval_eqb_refl.
    repeat split.
  - assert (Hm : guest_matches phone g0 = true).
    { assert (Hin : In g0 (filter (guest_matches phone) (Guests w)))
        by (rewrite Hrows; simpl; auto).
      now apply filter_In in Hin. }
    eexists. cbn [snd Guests set_Guests set_uuids_drawn uuids_drawn].
    rewrite filter_map_same by (intros; apply update_guest_matches).
    rewrite Hrows. cbn [map]. unfold update_guest. rewrite Hm.
    repeat split.
  - simpl in Hone. lia.
Qed.

Lemma update_or_create_guest_placeholder_witness :
  let w := mkWorld [] [Guest.Build 5 (PStr "Ada") (PStr "+31 6 1234") "Dutch"
                                   (Some 1600000000) None] [] 6 1 [] [] 0 in
  exists g,
    filter (guest_matches (PStr "+31 6 1234"))
      (Guests (snd (update_or_create_guest sample_env
                      (vendor_guest (PStr "") (PStr "+31 6 1234") PNone) w)))
    = [g] /\
    Guest.name g = PStr (uuid4 sample_env (uuids_drawn w)) /\
    uuids_drawn (snd (update_or_create_guest sample_env
                        (vendor_guest (PStr "") (PStr "+31 6 1234") PNone) w))
    = S (uuids_drawn w).
Proof.
  intros w.
  apply (update_or_create_guest_placeholder sample_env _ (PStr "") (PStr "+31 6 1234")
           PNone w).
  - intros phone. cbn [Guests w filter]. destruct (guest_matches phone _); simpl; lia.
  - repeat split.
  - reflexivity.
  - now left.
  - split; [reflexivity | discriminate].
Defined.

(** X13. When the table already holds several rows for the phone number,
    [update_or_create_guest] writes name, language and [updated_at] into
    every one of them and only then raises [MultipleObjectsReturned]:
    the error does not undo the update. *)
Theorem update_or_create_guest_duplicates :
  forall env guest n phone country language w g0 g1 rest,
    guest_fields guest n phone country ->
    get_guest_language env country = inr language ->
    usable_phone phone ->
    filter (guest_matches phone) (Guests w) = g0 :: g1 :: rest ->
    exists w',
      update_or_create_guest env guest w = (inl MultipleObjectsReturned, w') /\
      Guests w' = map (update_guest env phone (stored_name env n w) language) (Guests w) /\
      Forall (fun g => Guest.name g = stored_name env n w /\
                       Guest.updated_at g = Some (now env))
             (filter (guest_matches phone) (Guests w')).
Proof.
  intros env guest n phone country language w g0 g1 rest Hf HL Hu Hrows.
  rewrite (update_or_create_guest_run env guest n phone country language w Hf HL Hu).
  rewrite Hrows. eexists. split; [reflexivity |].
  cbn [Guests set_Guests]. split; [reflexivity |].
  rewrite filter_map_same by (intros; apply update_guest_matches).
  apply Forall_forall. intros g Hg.
  apply in_map_iff in Hg as (g' & <- & Hg').
  apply filter_In in Hg' as [_ Hm].
  unfold update_guest. rewrite Hm. split; reflexivity.
Qed.

Lemma update_or_create_guest_duplicates_witness :
  let w := mkWorld [] [Guest.Build 5 (PStr "Ada") (PStr "+31 6 1234") "Dutch" None None;
                       Guest.Build 6 (PStr "A.") (PStr "+31 6 1234") "None" None None]
                   [] 7 1 [] [] 0 in
  exists w',
    update_or_create_guest sample_env
      (vendor_guest (PStr "Grace") (PStr "+31 6 1234") (PStr "NL")) w
    = (inl MultipleObjectsReturned, w') /\
    Guests w'
    = map (update_guest sample_env (PStr "+31 6 1234")
                        (stored_name sample_env (PStr "Grace") w) "Dutch") (Guests w) /\
    Forall (fun g => Guest.name g = stored_name sample_env (PStr "Grace") w /\
                     Guest.updated_at g = Some (now sample_env))
           (filter (guest_matches (PStr "+31 6 1234")) (Guests w')).
Proof.
  intros w.
  apply (update_or_create_guest_duplicates sample_env _ (PStr "Grace") (PStr "+31 6 1234")
           (PStr "NL") "Dutch" w
           (Guest.Build 5 (PStr "Ada") (PStr "+31 6 1234") "Dutch" None None)
           (Guest.Build 6 (PStr "A.") (PStr "+31 6 1234") "None" None None) []).
  - repeat split.
  - reflexivity.
  - split; [reflexivity | discriminate].
  - reflexivity.
Defined.

(** ** update_or_create_stay, row by row *)

(** The whole of a reconciliation whose hotel resolves. *)
Lemma update_or_create_stay_run :
  forall env stay guest_id hotel key guest status checkin checkout h w,
    stay_fields stay hotel key guest status checkin checkout ->
    filter (hotel_matches hotel) (Hotels w) = [h] ->
    Hotel.id h <> 0 ->
    update_or_create_stay env stay guest_id w
    = (inr tt,
       match filter (stay_matches key) (Stays w) with
       | [] =>
           mkWorld (Hotels w) (Guests w)
                   (Stays w ++ [Stay.Build (next_stay_id w) (Hotel.id h) key guest guest_id
                                           status checkin checkout (Some (now env)) None])%list
                   (next_guest_id w) (next_stay_id w + 1)
                   (api_calls w) (stdout w) (uuids_drawn w)
       | _ =>
           set_Stays (map (update_stay env key (Hotel.id h) key guest guest_id
                                       status checkin checkout) (Stays w)) w
       end).
Proof.
  intros env stay guest_id hotel key guest status checkin checkout h w
         (HH & HK & HG & HS & HI & HO) Hhotel Hid.
  unfold update_or_create_stay, bind, lift, hotels_by_pms_id, stays_by_reservation.
  rewrite HH, Hhotel. cbn [get_one].
  replace (Hotel.id h =? 0) with false by (symmetry; now apply Z.eqb_neq).
  rewrite HK, HG, HS, HI, HO.
  destruct (filter (stay_matches key) (Stays w)); reflexivity.
Qed.

(** A call either raises and changes nothing, or is a reconciliation
    whose hotel resolves. *)
Lemma update_or_create_stay_cases : forall env stay guest_id w,
  (exists e, update_or_create_stay env stay guest_id w = (inl e, w) /\ stay_error e) \/
  exists hotel key guest status checkin checkout h,
    stay_fields stay hotel key guest status checkin checkout /\
    filter (hotel_matches hotel) (Hotels w) = [h] /\
    Hotel.id h <> 0.
Proof.
  intros env stay guest_id w. unfold stay_error.
  unfold update_or_create_stay, bind, lift, hotels_by_pms_id, stays_by_reservation, raise.
  destruct (get_attr stay "HotelId") as [e | hotel] eqn:HH.
  { apply get_attr_error in HH. subst. left. eauto. }
  destruct (filter (hotel_matches hotel) (Hotels w)) as [| h [| h2 rest]] eqn:Hh;
    cbn [get_one]; [left; eauto | | left; eauto 6].
  destruct (Z.eqb_spec (Hotel.id h) 0) as [E | E]; [left; eauto 7 |].
  destruct (get_attr stay "ReservationId") as [e | key] eqn:HK.
  { apply get_attr_error in HK. subst. left. eauto. }
  destruct (get_attr stay "GuestId") as [e | guest] eqn:HG.
  { apply get_attr_error in HG. subst. left. destruct (exists_ _); eauto. }
  destruct (get_attr stay "Status") as [e | status] eqn:HS.
  { apply get_attr_error in HS. subst. left. destruct (exists_ _); eauto. }
  destruct (get_attr stay "CheckInDate") as [e | checkin] eqn:HI.
  { apply get_attr_error in HI. subst. left. destruct (exists_ _); eauto. }
  destruct (get_attr stay "CheckOutDate") as [e | checkout] eqn:HO.
  { apply get_attr_error in HO. subst. left. destruct (exists_ _); eauto. }
  right. exists hotel, key, guest, status, checkin, checkout, h.
  unfold stay_fields. repeat split; auto.
Qed.

(** X14. [update_or_create_stay] raises nothing but [AttributeError],
    [DoesNotExist], [MultipleObjectsReturned] and
    [IncorrectHotelIdException], and a call that raises leaves the world
    exactly as it found it: every check comes before the first write. *)
Theorem update_or_create_stay_raises : forall env stay guest_id w e w',
  update_or_create_stay env stay guest_id w = (inl e, w') ->
  w' = w /\ stay_error e.
Proof.
  intros env stay guest_id w e w' H.
  destruct (update_or_create_stay_cases env stay guest_id w)
    as [(e0 & Hrun & He) | (hotel & key & guest & status & ci & co & h & Hf & Hh & Hid)].
  - rewrite Hrun in H. inversion H; subst. auto.
  - rewrite (update_or_create_stay_run env stay guest_id _ _ _ _ _ _ h w Hf Hh Hid) in H.
    discriminate.
Qed.

Lemma update_or_create_stay_raises_witness :
  hotel_world = hotel_world /\ stay_error AttributeError.
Proof.
  apply (update_or_create_stay_raises sample_env
           (PRecord [("HotelId", PStr "H-1"); ("ReservationId", PStr "R-1")]) None
           hotel_world AttributeError hotel_world).
  reflexivity.
Defined.

(** X15. The first sighting of a reservation whose hotel resolves adds
    one row to the end of the [Stay] table: the next free id, the
    hotel's internal id, the vendor's fields, the guest id passed in,
    [created_at = now] and no [updated_at]. Nothing else changes. *)
Theorem update_or_create_stay_creates :
  forall env stay guest_id hotel key guest status checkin checkout h w,
    stay_fields stay hotel key guest status checkin checkout ->
    filter (hotel_matches hotel) (Hotels w) = [h] ->
    Hotel.id h <> 0 ->
    filter (stay_matches key) (Stays w) = [] ->
    update_or_create_stay env stay guest_id w
    = (inr tt,
       mkWorld (Hotels w) (Guests w)
               (Stays w ++ [Stay.Build (next_stay_id w) (Hotel.id h) key guest guest_id
                                       status checkin checkout (Some (now env)) None])%list
               (next_guest_id w) (next_stay_id w + 1)
               (api_calls w) (stdout w) (uuids_drawn w)).
Proof.
  intros env stay guest_id hotel key guest status checkin checkout h w Hf Hh Hid Hrows.
  rewrite (update_or_create_stay_run env stay guest_id _ _ _ _ _ _ h w Hf Hh Hid).
  now rewrite Hrows.
Qed.

Lemma update_or_create_stay_creates_witness :
  update_or_create_stay sample_env stay_R1 None hotel_world
  = (inr tt,
     mkWorld [Hotel.Build 1 (PStr "H-1")] []
             [Stay.Build 1 1 (PStr "R-1") (PStr "G-1") None (PStr "confirmed")
                         (PStr "2024-01-02") (PStr "2024-01-05") (Some 1700000000) None]
             1 2 [] [] 0).
Proof.
  apply (update_or_create_stay_creates sample_env stay_R1 None (PStr "H-1") (PStr "R-1")
           (PStr "G-1") (PStr "confirmed") (PStr "2024-01-02") (PStr "2024-01-05")
           (Hotel.Build 1 (PStr "H-1")) hotel_world).
  - repeat split.
  - reflexivity.
  - discriminate.
  - reflexivity.
Defined.

Lemma stay_matches_eq : forall key s,
  stay_matches key s = true -> Stay.pms_reservation_id s = key.
Proof.
  intros key s H. now apply pyval_eqb_eq in H.
Qed.

(** X16. A later sighting overwrites every row of the reservation with
    the vendor's fields, the hotel's id and the guest id passed in, a
    missing guest included; the id and [created_at] of a row stay, and
    [updated_at] is [now]. The rows of other reservations are left as
    they are, and no row is added. *)
Theorem update_or_create_stay_updates :
  forall env stay guest_id hotel key guest status checkin checkout h w,
    stay_fields stay hotel key guest status checkin checkout ->
    filter (hotel_matches hotel) (Hotels w) = [h] ->
    Hotel.id h <> 0 ->
    filter (stay_matches key) (Stays w) <> [] ->
    exists w',
      update_or_create_stay env stay guest_id w = (inr tt, w') /\
      filter (stay_matches key) (Stays w')
      = map (fun s => Stay.Build (Stay.id s) (Hotel.id h) key guest guest_id status
                                 checkin checkout (Stay.created_at s) (Some (now env)))
            (filter (stay_matches key) (Stays w)) /\
      (forall other, other <> key ->
                     filter (stay_matches other) (Stays w')
                     = filter (stay_matches other) (Stays w)) /\
      List.length (Stays w') = List.length (Stays w).
Proof.
  intros env stay guest_id hotel key guest status checkin checkout h w Hf Hh Hid Hrows.
  rewrite (update_or_create_stay_run env stay guest_id _ _ _ _ _ _ h w Hf Hh Hid).
  destruct (filter (stay_matches key) (Stays w)) as [| s0 rest] eqn:E; [contradiction |].
  rewrite <- E. eexists. split; [reflexivity |].
  cbn [Stays set_Stays].
  set (f := update_stay env key (Hotel.id h) key guest guest_id status checkin checkout).
  assert (Hm : forall x, stay_matches key (f x) = stay_matches key x)
    by (intros; apply update_stay_matches).
  repeat split.
  - rewrite (filter_map_same _ _ f _ Hm). apply map_ext_in.
    intros s Hs. apply filter_In in Hs as [_ Hs].
    subst f. unfold update_stay. now rewrite Hs.
  - intros other Hother.
    assert (Hm' : forall x, stay_matches other (f x) = stay_matches other x).
    { intros x. subst f. unfold update_stay.
      destruct (stay_matches key x) eqn:Hx; [| reflexivity].
      apply stay_matches_eq in Hx. unfold stay_matches. cbn [Stay.pms_reservation_id].
      rewrite Hx. reflexivity. }
    rewrite (filter_map_same _ _ f _ Hm').
    rewrite <- (map_id (filter (stay_matches other) (Stays w))) at 2.
    apply map_ext_in. intros s Hs. apply filter_In in Hs as [_ Hs].
    subst f. unfold update_stay. destruct (stay_matches key s) eqn:Hk; [| reflexivity].
    exfalso. apply Hother. apply stay_matches_eq in Hs, Hk. congruence.
  - apply length_map.
Qed.

Lemma update_or_create_stay_updates_witness :
  let w := mkWorld [Hotel.Build 1 (PStr "H-1")] []
                   [Stay.Build 4 1 (PStr "R-1") (PStr "G-0") (Some 9) (PStr "optional")
                               (PStr "2024-01-01") (PStr "2024-01-02")
                               (Some 1600000000) None]
                   1 5 [] [] 0 in
  exists w',
    update_or_create_stay sample_env stay_R1 None w = (inr tt, w') /\
    filter (stay_matches (PStr "R-1")) (Stays w')
    = map (fun s => Stay.Build (Stay.id s) 1 (PStr "R-1") (PStr "G-1") None
                               (PStr "confirmed") (PStr "2024-01-02") (PStr "2024-01-05")
                               (Stay.created_at s) (Some (now sample_env)))
          (filter (stay_matches (PStr "R-1")) (Stays w)) /\
    (forall other, other <> PStr "R-1" ->
                   filter (stay_matches other) (Stays w')
                   = filter (stay_matches other) (Stays w)) /\
    List.length (Stays w') = List.length (Stays w).
Proof.
  intros w.
  apply (update_or_create_stay_updates sample_env stay_R1 None (PStr "H-1") (PStr "R-1")
           (PStr "G-1") (PStr "confirmed") (PStr "2024-01-02") (PStr "2024-01-05")
           (Hotel.Build 1 (PStr "H-1")) w).
  - repeat split.
  - reflexivity.
  - discriminate.
  - discriminate.
Defined.

Lemma map_id_update_stay : forall env key hotel_id reservation guest guest_id status ci co l,
  map Stay.id (map (update_stay env key hotel_id reservation guest guest_id status ci co) l)
  = map Stay.id l.
Proof.
  intros. rewrite map_map. apply map_ext. intros s. unfold update_stay.
  now destruct (stay_matches key s).
Qed.

(** What [update_or_create_stay] leaves alone. *)
Lemma update_or_create_stay_keeps : forall env stay guest_id w,
  let w' := snd (update_or_create_stay env stay guest_id w) in
  Hotels w' = Hotels w /\ Guests w' = Guests w /\ next_guest_id w' = next_guest_id w /\
  api_calls w' = api_calls w /\ stdout w' = stdout w /\ uuids_drawn w' = uuids_drawn w /\
  keeps_rows (map Stay.id (Stays w)) (map Stay.id (Stays w')) /\
  (List.length (Stays w') <= S (List.length (Stays w)))%nat.
Proof.
  intros env stay guest_id w. cbv zeta.
  destruct (update_or_create_stay_cases env stay guest_id w)
    as [(e0 & Hrun & He) | (hotel & key & guest & status & ci & co & h & Hf & Hh & Hid)].
  - rewrite Hrun. cbn [snd]. repeat split; try lia. exists []. now rewrite app_nil_r.
  - rewrite (update_or_create_stay_run env stay guest_id _ _ _ _ _ _ h w Hf Hh Hid).
    destruct (filter (stay_matches key) (Stays w));
      cbn [snd Hotels Guests Stays next_guest_id api_calls stdout uuids_drawn set_Stays];
      repeat split.
    + exists [next_stay_id w]. now rewrite map_app.
    + rewrite length_app. simpl. lia.
    + exists []. now rewrite app_nil_r, map_id_update_stay.
    + rewrite length_map. lia.
Qed.

(** X17. [update_or_create_stay] keeps to the [Stay] table: hotels,
    guests, the call log, the output and the placeholder count are as
    before, whatever it returns or raises. In the [Stay] table no row
    goes and none changes its id; at most one row is added. *)
Theorem update_or_create_stay_frame : forall env stay guest_id w,
  let w' := snd (update_or_create_stay env stay guest_id w) in
  Hotels w' = Hotels w /\ Guests w' = Guests w /\ next_guest_id w' = next_guest_id w /\
  api_calls w' = api_calls w /\ stdout w' = stdout w /\ uuids_drawn w' = uuids_drawn w /\
  keeps_rows (map Stay.id (Stays w)) (map Stay.id (Stays w')) /\
  (List.length (Stays w') <= S (List.length (Stays w)))%nat.
Proof.
  exact update_or_create_stay_keeps.
Qed.

Lemma update_or_create_stay_keeps_invariant : forall env stay guest_id w,
  one_stay_per_reservation w ->
  one_stay_per_reservation (snd (update_or_create_stay env stay guest_id w)).
Proof.
  intros env stay guest_id w Hinv q.
  destruct (update_or_create_stay_cases env stay guest_id w)
    as [(e0 & Hrun & He) | (hotel & key & guest & status & ci & co & h & Hf & Hh & Hid)].
  - rewrite Hrun. apply Hinv.
  - rewrite (update_or_create_stay_run env stay guest_id _ _ _ _ _ _ h w Hf Hh Hid).
    destruct (filter (stay_matches key) (Stays w)) as [| s0 rest] eqn:E;
      cbn [snd Stays set_Stays].
    + rewrite filter_app, length_app. cbn [filter]. unfold stay_matches at 2.
      cbn [Stay.pms_reservation_id].
      destruct (pyval_eqb key q) eqn:Ekq; cbn [List.length].
      * apply pyval_eqb_eq in Ekq. subst q. rewrite E. simpl. lia.
      * specialize (Hinv q). lia.
    + set (f := update_stay env key (Hotel.id h) key guest guest_id status ci co).
      assert (Hm : forall x, stay_matches q (f x) = stay_matches q x).
      { intros x. subst f. unfold update_stay.
        destruct (stay_matches key x) eqn:Hx; [| reflexivity].
        apply stay_matches_eq in Hx. unfold stay_matches. cbn [Stay.pms_reservation_id].
        now rewrite Hx. }
      rewrite (filter_map_same _ _ f _ Hm), length_map. apply Hinv.
Qed.

(** X18. Whatever sequence of [update_or_create_stay] calls is made on a
    store with at most one [Stay] row per vendor reservation id (the
    empty store is one), the store it leaves has at most one row per
    reservation id. *)
Theorem one_stay_per_reservation_kept : forall env stays w,
  one_stay_per_reservation w ->
  one_stay_per_reservation (reconcile_stays env stays w).
Proof.
  intros env stays. induction stays as [| [stay guest_id] rest IH]; intros w H; simpl; auto.
  apply IH. now apply update_or_create_stay_keeps_invariant.
Qed.

Lemma one_stay_per_reservation_kept_witness :
  one_stay_per_reservation
    (reconcile_stays sample_env
       [(stay_R1, Some 1); (PInt 3, None); (stay_R1, None);
        (vendor_stay "H-1" "R-2" "G-1" "cancelled", Some 1)] hotel_world).
Proof.
  apply (one_stay_per_reservation_kept sample_env).
  intros key. simpl. lia.
Defined.

(** X19. The guard of [update_or_create_stay] raises
    [IncorrectHotelIdException] exactly when the vendor's hotel id is
    carried by one [Hotel] row and the id of that row is zero. *)
Theorem update_or_create_stay_guard_fires : forall env stay guest_id w,
  (exists msg w', update_or_create_stay env stay guest_id w
                  = (inl (IncorrectHotelIdException msg), w')) <->
  (exists pms_hotel_id hotel,
      get_attr stay "HotelId" = inr pms_hotel_id /\
      filter (hotel_matches pms_hotel_id) (Hotels w) = [hotel] /\
      Hotel.id hotel = 0).
Proof.
  intros env stay guest_id w. split.
  - intros (msg & w' & H). eapply update_or_create_stay_guard; eauto.
  - intros (pms_hotel_id & hotel & HH & Hh & Hid).
    exists "Hotel ID not found", w.
    unfold update_or_create_stay, bind, lift, hotels_by_pms_id, raise.
    rewrite HH, Hh. cbn [get_one]. now rewrite Hid.
Qed.

(** ** What every run keeps *)

Lemma keeps_rows_refl : forall l, keeps_rows l l.
Proof. intros l. exists []. now rewrite app_nil_r. Qed.

Lemma keeps_rows_trans : forall a b c, keeps_rows a b -> keeps_rows b c -> keeps_rows a c.
Proof.
  intros a b c [x ->] [y ->]. exists (x ++ y)%list. now rewrite app_assoc.
Qed.

Lemma log_grows_refl : forall w, log_grows w w.
Proof. intros w. exists []. now rewrite app_nil_r. Qed.

Lemma log_grows_same : forall w w', api_calls w' = api_calls w -> log_grows w w'.
Proof. intros w w' H. exists []. now rewrite app_nil_r. Qed.

Lemma log_grows_trans : forall a b c, log_grows a b -> log_grows b c -> log_grows a c.
Proof.
  intros a b c [x Hx] [y Hy]. exists (x ++ y)%list. now rewrite Hy, Hx, app_assoc.
Qed.

Lemma evolves_refl : forall w, evolves w w.
Proof.
  intros w. unfold evolves.
  repeat split; auto using keeps_rows_refl, log_grows_refl.
Qed.

Lemma evolves_trans : forall a b c, evolves a b -> evolves b c -> evolves a c.
Proof.
  intros a b c (H1 & L1 & H2 & H3 & H4 & H5) (K1 & L2 & K2 & K3 & K4 & K5).
  unfold evolves.
  split; [congruence |]. split; [eauto using log_grows_trans |].
  split; [eauto using keeps_rows_trans |]. split; [eauto using keeps_rows_trans |].
  split; auto.
Qed.

Lemma evolves_same_tables : forall w w',
  Hotels w' = Hotels w -> Guests w' = Guests w -> Stays w' = Stays w ->
  log_grows w w' -> evolves w w'.
Proof.
  intros w w' HH HG HS HL. unfold evolves, one_guest_per_phone, one_stay_per_reservation.
  rewrite HH, HG, HS. repeat split; auto using keeps_rows_refl.
Qed.

Lemma evolving_bind : forall A B (m : M A) (k : A -> M B),
  evolving m -> (forall a, evolving (k a)) -> evolving (bind m k).
Proof.
  intros A B m k Hm Hk w. unfold bind.
  specialize (Hm w). destruct (m w) as [[e | a] w1]; cbn [snd] in *; auto.
  eapply evolves_trans; [exact Hm | apply Hk].
Qed.

Lemma evolving_lift : forall A (r : result A), evolving (lift r).
Proof. intros A r w. apply evolves_refl. Qed.

Lemma evolving_ret : forall A (a : A), evolving (ret a).
Proof. intros A a w. apply evolves_refl. Qed.

Lemma evolving_attempt : forall A (m : M A), evolving m -> evolving (attempt m).
Proof.
  intros A m Hm w. unfold attempt. specialize (Hm w). now destruct (m w).
Qed.

Lemma evolving_make_api_call_with_retry : forall env pms_name request parameters,
  evolving (make_api_call_with_retry env pms_name request parameters).
Proof.
  intros env pms_name request parameters w.
  destruct (make_api_call_with_retry_calls env pms_name request parameters w)
    as (calls & errors & _ & _ & Hc & _ & HH & HG & HS & _).
  apply evolves_same_tables; auto. now exists (repeat (request, parameters) calls).
Qed.

Lemma evolving_update_or_create_guest : forall env guest,
  evolving (update_or_create_guest env guest).
Proof.
  intros env guest w.
  destruct (update_or_create_guest_keeps env guest w) as (HH & HS & _ & Hc & _ & Hk & _).
  unfold evolves.
  split; [assumption |]. split; [now apply log_grows_same |].
  split; [assumption |]. repeat split.
  - rewrite HS. apply keeps_rows_refl.
  - apply update_or_create_guest_keeps_invariant.
  - unfold one_stay_per_reservation. now rewrite HS.
Qed.

Lemma evolving_update_or_create_stay : forall env stay guest_id,
  evolving (update_or_create_stay env stay guest_id).
Proof.
  intros env stay guest_id w.
  destruct (update_or_create_stay_keeps env stay guest_id w)
    as (HH & HG & _ & Hc & _ & _ & Hk & _).
  unfold evolves.
  split; [assumption |]. split; [now apply log_grows_same |].
  split; [rewrite HG; apply keeps_rows_refl |]. split; [assumption |]. split.
  - unfold one_guest_per_phone. now rewrite HG.
  - apply update_or_create_stay_keeps_invariant.
Qed.

Lemma evolving_update_stay_and_guest : forall env self stay,
  evolving (update_stay_and_guest env self stay).
Proof.
  intros env self stay. unfold update_stay_and_guest.
  repeat first [ apply evolving_lift | apply evolving_ret
               | apply evolving_make_api_call_with_retry
               | apply evolving_update_or_create_guest
               | apply evolving_update_or_create_stay
               | apply evolving_bind; [| intros ?] ].
Qed.

Lemma evolving_handle_event : forall env self event,
  evolving (handle_event env self event).
Proof.
  intros env self event. unfold handle_event.
  repeat first [ apply evolving_lift | apply evolving_ret
               | apply evolving_make_api_call_with_retry
               | apply evolving_update_or_create_guest
               | apply evolving_update_or_create_stay
               | apply evolving_bind; [| intros ?] ].
Qed.

Lemma evolving_handle_events : forall env self events,
  evolving (handle_events env self events).
Proof.
  intros env self events. induction events as [| event rest IH]; cbn [handle_events].
  - apply evolving_ret.
  - apply evolving_bind; [apply evolving_attempt, evolving_handle_event |].
    intros [e | []]; [| exact IH].
    destruct (continues env e); [exact IH | apply evolving_ret].
Qed.

Lemma evolving_update_stays : forall env self stays,
  evolving (update_stays env self stays).
Proof.
  intros env self stays. induction stays as [| stay rest IH]; cbn [update_stays].
  - apply evolving_ret.
  - apply evolving_bind; [apply evolving_attempt, evolving_update_stay_and_guest |].
    intros [e | []]; [| exact IH].
    destruct (continues env e); [exact IH | apply evolving_ret].
Qed.

(** X20. Whatever the payload and whatever the vendor answers,
    [handle_webhook] never touches the [Hotel] table, never removes or
    renumbers a [Guest] or [Stay] row, only adds to the call log, and
    keeps a store with at most one guest per phone number and one stay
    per reservation id that way. *)
Theorem handle_webhook_evolves : forall env self webhook_data w,
  evolves w (snd (handle_webhook env self webhook_data w)).
Proof.
  intros env [] webhook_data. change (evolving (handle_webhook env PMS_Mews webhook_data)).
  unfold handle_webhook.
  repeat first [ apply evolving_lift | apply evolving_ret
               | apply evolving_make_api_call_with_retry
               | apply evolving_update_or_create_guest
               | apply evolving_update_or_create_stay
               | apply evolving_bind; [| intros ?] ].
  apply evolving_handle_events.
Qed.

(** X21. The daily pull keeps the same: for every date and every vendor
    [update_tomorrows_stays] leaves the [Hotel] table as it is, removes
    or renumbers no [Guest] or [Stay] row and preserves the
    one-row-per-key invariants. *)
Theorem update_tomorrows_stays_evolves : forall env self tomorrow_date w,
  evolves w (snd (update_tomorrows_stays env self tomorrow_date w)).
Proof.
  intros env [] tomorrow_date.
  change (evolving (update_tomorrows_stays env PMS_Mews tomorrow_date)).
  unfold update_tomorrows_stays.
  repeat first [ apply evolving_lift | apply evolving_ret
               | apply evolving_make_api_call_with_retry
               | apply evolving_update_or_create_guest
               | apply evolving_update_or_create_stay
               | apply evolving_bind; [| intros ?] ].
  apply evolving_update_stays.
Qed.

(** ** The callers of the retry wrapper *)

(** The wrapper when the vendor never answers. *)
Lemma make_api_call_with_retry_down : forall env pms_name request parameters w,
  (forall k, exists msg, remote env request parameters k = inl (APIError msg)) ->
  exists w',
    make_api_call_with_retry env pms_name request parameters w = (inl (APIError ""), w') /\
    after_calls 10 10 request parameters w w'.
Proof.
  intros env pms_name request parameters w Hdown.
  destruct (retry_loop_failures env (get_pms pms_name) request parameters
              10 0 0 PNone w) as (w' & Hrun & Hafter).
  - intros i _. apply Hdown.
  - simpl. lia.
  - exists w'. split; [| exact Hafter].
    unfold make_api_call_with_retry, bind.
    change 10%nat with (10 + 0)%nat at 1. now rewrite Hrun.
Qed.

(** The wrapper when the vendor answers the first call: what the adapter
    makes of the answer is the outcome. *)
Lemma make_api_call_with_retry_at_once : forall env self request parameters w raw,
  remote env request parameters (List.length (api_calls w)) = inr raw ->
  make_api_call_with_retry env (name self) request parameters w
  = (clean_webhook_payload env self raw, record_call request parameters w).
Proof.
  intros env [] request parameters w raw Hraw.
  destruct (clean_webhook_payload env PMS_Mews raw) as [e | cleaned] eqn:Hclean.
  - unfold make_api_call_with_retry, bind.
    rewrite (retry_loop_raises env (get_pms (name PMS_Mews)) request parameters 9 0 PNone w e);
      try reflexivity; try lia.
    + right. exists raw. split; [assumption | exact Hclean].
    + apply (pms_clean_not_APIError env (Some PMS_Mews) raw). exact Hclean.
  - unfold make_api_call_with_retry, bind. cbn [retry_loop].
    change (0 <? 10) with true. cbv iota.
    unfold bind, attempt, call, ret. rewrite Hraw. cbv beta iota.
    change (get_pms (name PMS_Mews)) with (Some PMS_Mews). cbn [pms_clean].
    rewrite Hclean. reflexivity.
Qed.

(** An event whose reservation the vendor delivers is handled as the
    daily pull handles a reservation. *)
Lemma handle_event_fetched : forall env self event value rid raw stay w,
  get_attr event "Value" = inr value ->
  get_attr value "ReservationId" = inr rid ->
  remote env get_reservation_details rid (List.length (api_calls w)) = inr raw ->
  clean_webhook_payload env self raw = inr stay ->
  handle_event env self event w
  = update_stay_and_guest env self stay (record_call get_reservation_details rid w).
Proof.
  intros env self event value rid raw stay w HV HR Hraw Hclean.
  unfold handle_event, update_stay_and_guest.
  unfold bind at 1 2 3. unfold lift at 1 2. rewrite HV, HR.
  rewrite (make_api_call_with_retry_at_once env self _ _ w raw Hraw), Hclean.
  reflexivity.
Qed.

Lemma update_stay_and_guest_fetched : forall env self stay gid raw guest w,
  get_attr stay "GuestId" = inr gid ->
  remote env get_guest_details gid (List.length (api_calls w)) = inr raw ->
  clean_webhook_payload env self raw = inr guest ->
  update_stay_and_guest env self stay w
  = (guest_id <- update_or_create_guest env guest ;;
     update_or_create_stay env stay guest_id) (record_call get_guest_details gid w).
Proof.
  intros env self stay gid raw guest w HG Hraw Hclean.
  unfold update_stay_and_guest.
  unfold bind at 1 2. unfold lift at 1. rewrite HG.
  rewrite (make_api_call_with_retry_at_once env self _ _ w raw Hraw), Hclean.
  reflexivity.
Qed.

(** X22. When the vendor answers the first event's reservation call with
    [APIError] every time, [handle_webhook] gives up on the whole batch:
    it returns [False] after exactly ten calls, the later events are not
    looked at, and the store is as it was. *)
Theorem handle_webhook_vendor_down :
  forall env self webhook_data events event rest value rid w,
    get_attr webhook_data "Events" = inr events ->
    iter events = inr (event :: rest) ->
    get_attr event "Value" = inr value ->
    get_attr value "ReservationId" = inr rid ->
    (forall k, exists msg, remote env get_reservation_details rid k = inl (APIError msg)) ->
    exists w',
      handle_webhook env self webhook_data w = (inr false, w') /\
      after_calls 10 10 get_reservation_details rid w w'.
Proof.
  intros env [] webhook_data events event rest value rid w HE Hit HV HR Hdown.
  destruct (make_api_call_with_retry_down env (name PMS_Mews) get_reservation_details rid w
              Hdown) as (w' & Hrun & Hafter).
  exists w'. split; [| exact Hafter].
  unfold handle_webhook, bind at 1 2, lift. rewrite HE, Hit.
  apply handle_events_aborts with (e := APIError ""); [| reflexivity].
  unfold handle_event, bind at 1 2 3, lift. rewrite HV, HR.
  now rewrite Hrun.
Qed.

Lemma handle_webhook_vendor_down_witness :
  exists w',
    handle_webhook sample_env PMS_Mews
      (PRecord [("Events", PList [PRecord [("Value", PRecord [("ReservationId", PStr "R-1")])];
                                  PRecord [("Value", PRecord [("ReservationId", PStr "R-2")])]])])
      hotel_world
    = (inr false, w') /\
    after_calls 10 10 get_reservation_details (PStr "R-1") hotel_world w'.
Proof.
  eapply (handle_webhook_vendor_down sample_env PMS_Mews); try reflexivity.
  intros k. now exists "Currently no access to the API".
Defined.

(** X23. An event that lacks [Value], or whose [Value] lacks
    [ReservationId], ends the batch: [handle_webhook] returns [False]
    without a call to the vendor and without a change, whatever events
    follow. *)
Theorem handle_webhook_malformed_event :
  forall env self webhook_data events event rest w,
    get_attr webhook_data "Events" = inr events ->
    iter events = inr (event :: rest) ->
    (forall value, get_attr event "Value" = inr value ->
                   exists e, get_attr value "ReservationId" = inl e) ->
    handle_webhook env self webhook_data w = (inr false, w).
Proof.
  intros env [] webhook_data events event rest w HE Hit Hbad.
  unfold handle_webhook, bind at 1 2, lift. rewrite HE, Hit.
  apply handle_events_aborts with (e := AttributeError); [| reflexivity].
  unfold handle_event, bind at 1 2, lift.
  destruct (get_attr event "Value") as [e | value] eqn:HV.
  - apply get_attr_error in HV. now subst.
  - destruct (Hbad value eq_refl) as [e HR]. rewrite HR.
    apply get_attr_error in HR. now subst.
Qed.

Lemma handle_webhook_malformed_event_witness :
  handle_webhook (vendor_env true) PMS_Mews
    (PRecord [("Events", PList [PRecord [("Value", PRecord [("Id", PStr "R-1")])];
                                PRecord [("Value", PRecord [("ReservationId", PStr "R-1")])]])])
    hotel_world
  = (inr false, hotel_world).
Proof.
  eapply (handle_webhook_malformed_event (vendor_env true) PMS_Mews); try reflexivity.
  intros value H. inversion H; subst. exists AttributeError. reflexivity.
Defined.

(** X24. [handle_webhook] does not always return a truth value: a
    payload without [Events] raises [AttributeError] and one whose
    [Events] cannot be iterated ([None], a number, a truth value) raises
    [TypeError], both out of the function and before anything is done. *)
Theorem handle_webhook_raises : forall env self webhook_data w,
  ((forall events, get_attr webhook_data "Events" <> inr events) ->
   handle_webhook env self webhook_data w = (inl AttributeError, w)) /\
  (forall events e, get_attr webhook_data "Events" = inr events ->
                    iter events = inl e ->
                    handle_webhook env self webhook_data w = (inl TypeError, w)).
Proof.
  intros env [] webhook_data w. split.
  - intros H. unfold handle_webhook, bind, lift.
    destruct (get_attr webhook_data "Events") as [e | events] eqn:HE.
    + apply get_attr_error in HE. now subst.
    + exfalso. now apply (H events).
  - intros events e HE Hit. unfold handle_webhook, bind, lift. rewrite HE.
    destruct events; simpl in Hit; inversion Hit; reflexivity.
Qed.

Lemma handle_webhook_raises_witness :
  handle_webhook sample_env PMS_Mews (PRecord [("HotelId", PStr "H-1")]) hotel_world
  = (inl AttributeError, hotel_world) /\
  handle_webhook sample_env PMS_Mews (PRecord [("Events", PNone)]) hotel_world
  = (inl TypeError, hotel_world).
Proof.
  destruct (handle_webhook_raises sample_env PMS_Mews (PRecord [("HotelId", PStr "H-1")])
              hotel_world) as [H1 _].
  destruct (handle_webhook_raises sample_env PMS_Mews (PRecord [("Events", PNone)])
              hotel_world) as [_ H2].
  split.
  - apply H1. intros events H. discriminate.
  - apply (H2 PNone TypeError); reflexivity.
Defined.

(** X25. What the vendor's answer to the reservation call does to the
    batch. An answer that is JSON but carries a key [namedtuple] refuses
    makes the cleaning raise [ValueError], and the event is skipped: the
    loop goes on with the next event. An answer that is not JSON makes
    it raise [TypeError], and the batch ends with [False]. *)
Theorem handle_events_bad_answer : forall env self event rest value rid raw w,
  get_attr event "Value" = inr value ->
  get_attr value "ReservationId" = inr rid ->
  remote env get_reservation_details rid (List.length (api_calls w)) = inr raw ->
  (clean_webhook_payload env self raw = inl ValueError ->
   handle_events env self (event :: rest) w
   = handle_events env self rest (record_call get_reservation_details rid w)) /\
  (clean_webhook_payload env self raw = inl TypeError ->
   handle_events env self (event :: rest) w
   = (inr false, record_call get_reservation_details rid w)).
Proof.
  intros env self event rest value rid raw w HV HR Hraw.
  assert (Hrun : forall e, clean_webhook_payload env self raw = inl e ->
                           handle_event env self event w
                           = (inl e, record_call get_reservation_details rid w)).
  { intros e Hclean. unfold handle_event, bind at 1 2 3, lift. rewrite HV, HR.
    now rewrite (make_api_call_with_retry_at_once env self _ _ w raw Hraw), Hclean. }
  split; intros Hclean.
  - apply handle_events_continues with (e := ValueError); auto.
  - apply handle_events_aborts with (e := TypeError); auto.
Qed.

Lemma handle_events_bad_answer_witness :
  let env := mkEnv sample_choices 0 (fun _ => "")
                   (fun _ p _ => if eq_str p "R-1" then inr (json_quotes "{'check-in': 1}")
                                 else inr "<html>")
                   true sample_python in
  let event rid := PRecord [("Value", PRecord [("ReservationId", PStr rid)])] in
  handle_events env PMS_Mews [event "R-1"; event "R-2"] hotel_world
  = handle_events env PMS_Mews [event "R-2"]
      (record_call get_reservation_details (PStr "R-1") hotel_world) /\
  handle_events env PMS_Mews [event "R-2"] hotel_world
  = (inr false, record_call get_reservation_details (PStr "R-2") hotel_world).
Proof.
  intros env event.
  destruct (handle_events_bad_answer env PMS_Mews (event "R-1") [event "R-2"]
              (PRecord [("ReservationId", PStr "R-1")]) (PStr "R-1")
              (json_quotes "{'check-in': 1}") hotel_world eq_refl eq_refl eq_refl)
    as [Hskip _].
  destruct (handle_events_bad_answer env PMS_Mews (event "R-2") []
              (PRecord [("ReservationId", PStr "R-2")]) (PStr "R-2")
              "<html>" hotel_world eq_refl eq_refl eq_refl)
    as [_ Habort].
  split.
  - apply Hskip. vm_compute. reflexivity.
  - apply Habort. vm_compute. reflexivity.
Defined.

(** ** From the vendor's records to linked rows *)

Lemma update_or_create_guest_linked : forall env guest n phone country w,
  one_guest_per_phone w ->
  guest_fields guest n phone country ->
  country_code country ->
  usable_phone phone ->
  exists g w',
    update_or_create_guest env guest w = (inr (Some (Guest.id g)), w') /\
    filter (guest_matches phone) (Guests w') = [g] /\
    Hotels w' = Hotels w /\ Stays w' = Stays w.
Proof.
  intros env guest n phone country w Hinv Hf Hcc Hu.
  destruct (get_guest_language_total env country Hcc) as [language HL].
  pose proof (update_or_create_guest_run env guest n phone country language w Hf HL Hu)
    as Hrun.
  cbv zeta in Hrun.
  pose proof (Hinv phone) as Hone.
  destruct (filter (guest_matches phone) (Guests w)) as [| g0 [| g1 rest]] eqn:Hrows.
  - eexists (Guest.Build (next_guest_id w) _ phone language _ _), _.
    split; [exact Hrun |]. cbn [Guests Hotels Stays].
    rewrite filter_app, Hrows. cbn [filter app].
    unfold guest_matches at 1. cbn [Guest.phone]. rewrite pyval_eqb_refl.
    repeat split.
  - assert (Hm : guest_matches phone g0 = true).
    { assert (Hin : In g0 (filter (guest_matches phone) (Guests w)))
        by (rewrite Hrows; simpl; auto).
      now apply filter_In in Hin. }
    exists (update_guest env phone (stored_name env n w) language g0).
    eexists. split.
    + assert (Hid : Guest.id (update_guest env phone (stored_name env n w) language g0)
                    = Guest.id g0)
        by (unfold update_guest; rewrite Hm; reflexivity).
      rewrite Hid. exact Hrun.
    + cbn [Guests Hotels Stays set_Guests set_uuids_drawn].
      rewrite filter_map_same by (intros; apply update_guest_matches).
      rewrite Hrows. repeat split.
  - simpl in Hone. lia.
Qed.

Lemma update_or_create_guest_none : forall env guest n phone country w,
  guest_fields guest n phone country ->
  country_code country ->
  no_usable_phone phone ->
  update_or_create_guest env guest w = (inr None, w).
Proof.
  intros env guest n phone country w (HN & HP & HC) Hcc Hphone.
  destruct (get_guest_language_total env country Hcc) as [language HL].
  unfold update_or_create_guest, bind, lift. rewrite HC, HL, HP.
  destruct Hphone as [H | ->]; [now rewrite H | reflexivity].
Qed.

Lemma update_or_create_stay_rows :
  forall env stay guest_id hotel key guest status checkin checkout h w,
    stay_fields stay hotel key guest status checkin checkout ->
    filter (hotel_matches hotel) (Hotels w) = [h] ->
    Hotel.id h <> 0 ->
    exists w',
      update_or_create_stay env stay guest_id w = (inr tt, w') /\
      Guests w' = Guests w /\
      filter (stay_matches key) (Stays w') <> [] /\
      Forall (fun s => Stay.guest_id s = guest_id /\ Stay.hotel_id s = Hotel.id h)
             (filter (stay_matches key) (Stays w')).
Proof.
  intros env stay guest_id hotel key guest status checkin checkout h w Hf Hh Hid.
  rewrite (update_or_create_stay_run env stay guest_id _ _ _ _ _ _ h w Hf Hh Hid).
  eexists. split; [reflexivity |].
  destruct (filter (stay_matches key) (Stays w)) as [| s0 rest] eqn:E;
    cbn [Guests Stays set_Stays].
  - rewrite filter_app, E. cbn [filter app].
    unfold stay_matches at 1 2. cbn [Stay.pms_reservation_id]. rewrite pyval_eqb_refl.
    repeat split; [discriminate |]. constructor; [split; reflexivity | constructor].
  - set (f := update_stay env key (Hotel.id h) key guest guest_id status checkin checkout).
    assert (Hm : forall x, stay_matches key (f x) = stay_matches key x)
      by (intros; apply update_stay_matches).
    rewrite (filter_map_same _ _ f _ Hm), E.
    repeat split; [discriminate |].
    rewrite <- E. apply Forall_forall. intros s Hs.
    apply in_map_iff in Hs as (s' & <- & Hs').
    apply filter_In in Hs' as [_ Hs'].
    subst f. unfold update_stay. rewrite Hs'. split; reflexivity.
Qed.

(** X26. A webhook event whose reservation and guest the vendor delivers
    links the two: for a guest with a usable phone number and a
    reservation whose hotel resolves, [handle_event] leaves one [Guest]
    row for the phone number and at least one [Stay] row for the
    reservation, and every such [Stay] row carries the id of that
    [Guest] row and the internal id of the hotel. *)
Theorem handle_event_links_guest :
  forall env self event value rid raw_stay stay gid raw_guest guest w
         n phone country hotel key status checkin checkout h,
    get_attr event "Value" = inr value ->
    get_attr value "ReservationId" = inr rid ->
    remote env get_reservation_details rid (List.length (api_calls w)) = inr raw_stay ->
    clean_webhook_payload env self raw_stay = inr stay ->
    remote env get_guest_details gid (S (List.length (api_calls w))) = inr raw_guest ->
    clean_webhook_payload env self raw_guest = inr guest ->
    guest_fields guest n phone country ->
    country_code country ->
    usable_phone phone ->
    stay_fields stay hotel key gid status checkin checkout ->
    filter (hotel_matches hotel) (Hotels w) = [h] ->
    Hotel.id h <> 0 ->
    one_guest_per_phone w ->
    exists g w',
      handle_event env self event w = (inr tt, w') /\
      filter (guest_matches phone) (Guests w') = [g] /\
      filter (stay_matches key) (Stays w') <> [] /\
      Forall (fun s => Stay.guest_id s = Some (Guest.id g) /\ Stay.hotel_id s = Hotel.id h)
             (filter (stay_matches key) (Stays w')).
Proof.
  intros env self event value rid raw_stay stay gid raw_guest guest w
         n phone country hotel key status checkin checkout h
         HV HR Hrs Hcs Hrg Hcg Hgf Hcc Hu Hsf Hh Hid Hinv.
  rewrite (handle_event_fetched env self event value rid raw_stay stay w HV HR Hrs Hcs).
  set (w1 := record_call get_reservation_details rid w).
  assert (Hlen : List.length (api_calls w1) = S (List.length (api_calls w))).
  { subst w1. cbn [record_call api_calls]. rewrite length_app. simpl. lia. }
  rewrite <- Hlen in Hrg.
  rewrite (update_stay_and_guest_fetched env self stay gid raw_guest guest w1
             (proj1 (proj2 (proj2 Hsf))) Hrg Hcg).
  set (w2 := record_call get_guest_details gid w1).
  assert (Hinv2 : one_guest_per_phone w2) by exact Hinv.
  destruct (update_or_create_guest_linked env guest n phone country w2 Hinv2 Hgf Hcc Hu)
    as (g & w3 & Hguest & Hrow & HH3 & HS3).
  assert (Hh3 : filter (hotel_matches hotel) (Hotels w3) = [h]) by (now rewrite HH3).
  destruct (update_or_create_stay_rows env stay (Some (Guest.id g)) _ _ _ _ _ _ h w3
              Hsf Hh3 Hid) as (w4 & Hstay & HG4 & Hne & Hall).
  exists g, w4. unfold bind. rewrite Hguest, Hstay.
  rewrite HG4. auto.
Qed.

Lemma handle_event_links_guest_witness :
  exists g w',
    handle_event (vendor_env true) PMS_Mews
      (PRecord [("Value", PRecord [("ReservationId", PStr "R-1")])]) hotel_world
    = (inr tt, w') /\
    filter (guest_matches (PStr "+31 6 1234")) (Guests w') = [g] /\
    filter (stay_matches (PStr "R-1")) (Stays w') <> [] /\
    Forall (fun s => Stay.guest_id s = Some (Guest.id g) /\ Stay.hotel_id s = 1)
           (filter (stay_matches (PStr "R-1")) (Stays w')).
Proof.
  apply (handle_event_links_guest (vendor_env true) PMS_Mews _
           (PRecord [("ReservationId", PStr "R-1")]) (PStr "R-1")
           (json_quotes "{'HotelId': 'H-1', 'ReservationId': 'R-1', 'GuestId': 'G-1', 'Status': 'confirmed', 'CheckInDate': '2024-01-02', 'CheckOutDate': '2024-01-05', 'BreakfastIncluded': true}")
           (PRecord [("HotelId", PStr "H-1"); ("ReservationId", PStr "R-1");
                     ("GuestId", PStr "G-1"); ("Status", PStr "confirmed");
                     ("CheckInDate", PStr "2024-01-02"); ("CheckOutDate", PStr "2024-01-05");
                     ("BreakfastIncluded", PBool true)])
           (PStr "G-1")
           (json_quotes "{'Name': 'Ada', 'Phone': '+31 6 1234', 'Country': 'NL'}")
           (PRecord [("Name", PStr "Ada"); ("Phone", PStr "+31 6 1234");
                     ("Country", PStr "NL")])
           hotel_world (PStr "Ada") (PStr "+31 6 1234") (PStr "NL")
           (PStr "H-1") (PStr "R-1") (PStr "confirmed") (PStr "2024-01-02")
           (PStr "2024-01-05") (Hotel.Build 1 (PStr "H-1")));
    try reflexivity.
  - repeat split.
  - right. now exists "NL".
  - split; [reflexivity | discriminate].
  - repeat split.
  - discriminate.
  - intros phone. simpl. lia.
Defined.

(** X27. The same event for a guest without a usable phone number
    stores the stay without a guest: no [Guest] row is written, and
    every [Stay] row of the reservation has no guest id, a link it had
    before included. *)
Theorem handle_event_without_guest :
  forall env self event value rid raw_stay stay gid raw_guest guest w
         n phone country hotel key status checkin checkout h,
    get_attr event "Value" = inr value ->
    get_attr value "ReservationId" = inr rid ->
    remote env get_reservation_details rid (List.length (api_calls w)) = inr raw_stay ->
    clean_webhook_payload env self raw_stay = inr stay ->
    remote env get_guest_details gid (S (List.length (api_calls w))) = inr raw_guest ->
    clean_webhook_payload env self raw_guest = inr guest ->
    guest_fields guest n phone country ->
    country_code country ->
    no_usable_phone phone ->
    stay_fields stay hotel key gid status checkin checkout ->
    filter (hotel_matches hotel) (Hotels w) = [h] ->
    Hotel.id h <> 0 ->
    exists w',
      handle_event env self event w = (inr tt, w') /\
      Guests w' = Guests w /\
      filter (stay_matches key) (Stays w') <> [] /\
      Forall (fun s => Stay.guest_id s = None /\ Stay.hotel_id s = Hotel.id h)
             (filter (stay_matches key) (Stays w')).
Proof.
  intros env self event value rid raw_stay stay gid raw_guest guest w
         n phone country hotel key status checkin checkout h
         HV HR Hrs Hcs Hrg Hcg Hgf Hcc Hu Hsf Hh Hid.
  rewrite (handle_event_fetched env self event value rid raw_stay stay w HV HR Hrs Hcs).
  set (w1 := record_call get_reservation_details rid w).
  assert (Hlen : List.length (api_calls w1) = S (List.length (api_calls w))).
  { subst w1. cbn [record_call api_calls]. rewrite length_app. simpl. lia. }
  rewrite <- Hlen in Hrg.
  rewrite (update_stay_and_guest_fetched env self stay gid raw_guest guest w1
             (proj1 (proj2 (proj2 Hsf))) Hrg Hcg).
  set (w2 := record_call get_guest_details gid w1).
  assert (Hh2 : filter (hotel_matches hotel) (Hotels w2) = [h]) by exact Hh.
  destruct (update_or_create_stay_rows env stay None _ _ _ _ _ _ h w2 Hsf Hh2 Hid)
    as (w3 & Hstay & HG3 & Hne & Hall).
  exists w3. unfold bind.
  rewrite (update_or_create_guest_none env guest n phone country w2 Hgf Hcc Hu), Hstay.
  rewrite HG3. auto.
Qed.

Lemma handle_event_without_guest_witness :
  let w := mkWorld [Hotel.Build 3 (PStr "H-404")] []
                   [Stay.Build 4 3 (PStr "R-2") (PStr "G-2") (Some 9) (PStr "optional")
                               (PStr "2024-01-01") (PStr "2024-01-02") None None]
                   1 5 [] [] 0 in
  exists w',
    handle_event (vendor_env true) PMS_Mews
      (PRecord [("Value", PRecord [("ReservationId", PStr "R-2")])]) w
    = (inr tt, w') /\
    Guests w' = Guests w /\
    filter (stay_matches (PStr "R-2")) (Stays w') <> [] /\
    Forall (fun s => Stay.guest_id s = None /\ Stay.hotel_id s = 3)
           (filter (stay_matches (PStr "R-2")) (Stays w')).
Proof.
  intros w.
  apply (handle_event_without_guest (vendor_env true) PMS_Mews _
           (PRecord [("ReservationId", PStr "R-2")]) (PStr "R-2")
           (json_quotes "{'HotelId': 'H-404', 'ReservationId': 'R-2', 'GuestId': 'G-2', 'Status': 'confirmed', 'CheckInDate': '2024-01-03', 'CheckOutDate': '2024-01-04', 'BreakfastIncluded': false}")
           (PRecord [("HotelId", PStr "H-404"); ("ReservationId", PStr "R-2");
                     ("GuestId", PStr "G-2"); ("Status", PStr "confirmed");
                     ("CheckInDate", PStr "2024-01-03"); ("CheckOutDate", PStr "2024-01-04");
                     ("BreakfastIncluded", PBool false)])
           (PStr "G-2")
           (json_quotes "{'Name': 'Grace', 'Phone': 'Not available', 'Country': null}")
           (PRecord [("Name", PStr "Grace"); ("Phone", PStr "Not available");
                     ("Country", PNone)])
           w (PStr "Grace") (PStr "Not available") PNone
           (PStr "H-404") (PStr "R-2") (PStr "confirmed") (PStr "2024-01-03")
           (PStr "2024-01-04") (Hotel.Build 3 (PStr "H-404")));
    try reflexivity.
  - repeat split.
  - now left.
  - now right.
  - repeat split.
  - discriminate.
Defined.

(** ** The daily pull *)

(** X28. What goes wrong before the loop of [update_tomorrows_stays]
    is not caught: with the vendor down for the reservations of the day
    it raises [APIError] after ten calls, never returning [False], and an
    answer that is not iterable raises [TypeError] after one call.  The
    store is as it was in both cases. *)
Theorem update_tomorrows_stays_raises : forall env self tomorrow_date w,
  let day := PStr (str_date tomorrow_date) in
  ((forall k, exists msg,
      remote env get_reservations_for_given_checkin_date day k = inl (APIError msg)) ->
   exists w',
     update_tomorrows_stays env self tomorrow_date w = (inl (APIError ""), w') /\
     after_calls 10 10 get_reservations_for_given_checkin_date day w w') /\
  (forall raw stays,
     remote env get_reservations_for_given_checkin_date day (List.length (api_calls w))
     = inr raw ->
     clean_webhook_payload env self raw = inr stays ->
     iter stays = inl TypeError ->
     update_tomorrows_stays env self tomorrow_date w
     = (inl TypeError, record_call get_reservations_for_given_checkin_date day w)).
Proof.
  intros env self tomorrow_date w day. split.
  - intros Hdown.
    destruct (make_api_call_with_retry_down env (name self)
                get_reservations_for_given_checkin_date day w Hdown) as (w' & Hrun & Hafter).
    exists w'. split; [| exact Hafter].
    destruct self. unfold update_tomorrows_stays, bind. fold day. now rewrite Hrun.
  - intros raw stays Hraw Hclean Hiter.
    pose proof (make_api_call_with_retry_at_once env self
                  get_reservations_for_given_checkin_date day w raw Hraw) as Hrun.
    rewrite Hclean in Hrun.
    destruct self. unfold update_tomorrows_stays, bind, lift. fold day.
    now rewrite Hrun, Hiter.
Qed.

Lemma update_tomorrows_stays_raises_witness :
  (exists w',
     update_tomorrows_stays sample_env PMS_Mews (Date.Build 2024 3 1) hotel_world
     = (inl (APIError ""), w') /\
     after_calls 10 10 get_reservations_for_given_checkin_date (PStr "2024-03-01")
                 hotel_world w') /\
  update_tomorrows_stays
    (mkEnv sample_choices 0 (fun _ => "u") (fun _ _ _ => inr "null") true sample_python)
    PMS_Mews (Date.Build 2024 3 1) hotel_world
  = (inl TypeError,
     record_call get_reservations_for_given_checkin_date (PStr "2024-03-01") hotel_world).
Proof.
  split.
  - apply (proj1 (update_tomorrows_stays_raises sample_env PMS_Mews
                    (Date.Build 2024 3 1) hotel_world)).
    intros k. eexists. reflexivity.
  - apply (proj2 (update_tomorrows_stays_raises
                    (mkEnv sample_choices 0 (fun _ => "u") (fun _ _ _ => inr "null") true sample_python)
                    PMS_Mews (Date.Build 2024 3 1) hotel_world) "null" PNone);
      reflexivity.
Defined.

(** X29. The daily pull asks before anything else for the reservations
    of the date it was given: that call is the first one it adds to the
    log, whatever follows. *)
Theorem update_tomorrows_stays_first_call : forall env self tomorrow_date w,
  exists more,
    api_calls (snd (update_tomorrows_stays env self tomorrow_date w))
    = (api_calls w
       ++ (get_reservations_for_given_checkin_date, PStr (str_date tomorrow_date)) :: more)%list.
Proof.
  intros env self tomorrow_date w.
  destruct self. unfold update_tomorrows_stays.
  set (day := PStr (str_date tomorrow_date)).
  destruct (make_api_call_with_retry_calls env (name PMS_Mews)
              get_reservations_for_given_checkin_date day w)
    as (calls & errors & [Hpos _] & _ & Hlog & _).
  unfold bind at 1.
  destruct (make_api_call_with_retry env (name PMS_Mews)
              get_reservations_for_given_checkin_date day w) as [[e | stays] w1];
    cbn [snd] in *.
  - destruct calls as [| calls]; [lia |].
    exists (repeat (get_reservations_for_given_checkin_date, day) calls).
    exact Hlog.
  - assert (Hrest : evolving (items <- lift (iter stays) ;; update_stays env PMS_Mews items)).
    { apply evolving_bind; [apply evolving_lift | intros; apply evolving_update_stays]. }
    destruct (Hrest w1) as (_ & [more Hmore] & _).
    destruct calls as [| calls]; [lia |].
    exists (repeat (get_reservations_for_given_checkin_date, day) calls ++ more)%list.
    rewrite Hmore, Hlog. cbn [repeat]. now rewrite <- app_assoc.
Qed.

(** ** Breakfast *)

(** X30. [stay_has_breakfast] never writes to the store. On a row of
    [Stay], the input its signature declares, it raises [AttributeError]
    before any call: the row has [pms_reservation_id], not
    [ReservationId]. On an object that has [ReservationId], a cleaned
    vendor stay, it asks the vendor for that reservation and returns the
    [BreakfastIncluded] of the answer as it came; with the vendor down
    it raises [APIError] after ten calls instead of returning [None]. *)
Theorem stay_has_breakfast_reads : forall env self stay w,
  same_store w (snd (stay_has_breakfast env self stay w)) /\
  (forall row, stay = stay_row row ->
               stay_has_breakfast env self stay w = (inl AttributeError, w)) /\
  (forall rid, get_attr stay "ReservationId" = inr rid ->
     (forall raw details flag,
        remote env get_reservation_details rid (List.length (api_calls w)) = inr raw ->
        clean_webhook_payload env self raw = inr details ->
        get_attr details "BreakfastIncluded" = inr flag ->
        stay_has_breakfast env self stay w
        = (inr flag, record_call get_reservation_details rid w)) /\
     ((forall k, exists msg, remote env get_reservation_details rid k = inl (APIError msg)) ->
      exists w',
        stay_has_breakfast env self stay w = (inl (APIError ""), w') /\
        after_calls 10 10 get_reservation_details rid w w')).
Proof.
  intros env self stay w. split; [| split].
  - destruct self. unfold stay_has_breakfast, bind, lift.
    destruct (get_attr stay "ReservationId") as [e | rid]; [repeat split |].
    destruct (make_api_call_with_retry_calls env (name PMS_Mews)
                get_reservation_details rid w)
      as (calls & errors & _ & _ & _ & _ & HH & HG & HS & Hg & Hs & _).
    destruct (make_api_call_with_retry env (name PMS_Mews) get_reservation_details rid w)
      as [[e | details] w1]; cbn [snd] in *.
    + repeat split; assumption.
    + destruct (get_attr details "BreakfastIncluded"); cbn [snd]; repeat split; assumption.
  - intros row ->. destruct self. reflexivity.
  - intros rid Hrid. split.
    + intros raw details flag Hraw Hclean Hflag.
      pose proof (make_api_call_with_retry_at_once env self get_reservation_details rid w raw
                    Hraw) as Hrun.
      rewrite Hclean in Hrun.
      destruct self. unfold stay_has_breakfast, bind, lift.
      now rewrite Hrid, Hrun, Hflag.
    + intros Hdown.
      destruct (make_api_call_with_retry_down env (name self) get_reservation_details rid w
                  Hdown) as (w' & Hrun & Hafter).
      exists w'. split; [| exact Hafter].
      destruct self. unfold stay_has_breakfast, bind, lift. now rewrite Hrid, Hrun.
Qed.

Lemma stay_has_breakfast_reads_witness :
  stay_has_breakfast daily_env PMS_Mews
    (stay_row (Stay.Build 4 1 (PStr "R-7") (PStr "G-7") None (PStr "confirmed")
                          (PStr "2024-03-01") (PStr "2024-03-02") (Some 1700000000) None))
    hotel_world
  = (inl AttributeError, hotel_world) /\
  stay_has_breakfast daily_env PMS_Mews (PRecord [("ReservationId", PStr "R-7")]) hotel_world
  = (inr (PBool true), record_call get_reservation_details (PStr "R-7") hotel_world) /\
  exists w',
    stay_has_breakfast sample_env PMS_Mews (PRecord [("ReservationId", PStr "R-7")])
                       hotel_world
    = (inl (APIError ""), w') /\
    after_calls 10 10 get_reservation_details (PStr "R-7") hotel_world w'.
Proof.
  split; [| split].
  - apply (proj1 (proj2 (stay_has_breakfast_reads daily_env PMS_Mews _ hotel_world))
             (Stay.Build 4 1 (PStr "R-7") (PStr "G-7") None (PStr "confirmed")
                         (PStr "2024-03-01") (PStr "2024-03-02") (Some 1700000000) None)).
    reflexivity.
  - apply (proj1 (proj2 (proj2 (stay_has_breakfast_reads daily_env PMS_Mews
                                  (PRecord [("ReservationId", PStr "R-7")]) hotel_world))
                    (PStr "R-7") eq_refl)
             (json_quotes "{'ReservationId': 'R-7', 'BreakfastIncluded': true}")
             (PRecord [("ReservationId", PStr "R-7"); ("BreakfastIncluded", PBool true)]));
      reflexivity.
  - apply (proj2 (proj2 (proj2 (stay_has_breakfast_reads sample_env PMS_Mews
                                  (PRecord [("ReservationId", PStr "R-7")]) hotel_world))
                    (PStr "R-7") eq_refl)).
    intros k. eexists. reflexivity.
Defined.
